(** * Consistency-distillation trainer: a shallow embedding

    The development follows [seaweed_apt/distilled_trainer.py].

    - Scalars are exact rationals ([Qc]); a tensor is the flat list of its
      elements and its shape is its length.  Rounding of the float formats
      is outside the model.
    - A torch parameter is a mutable object: parameters live in a heap of
      tensors, a module holds the heap locations of its parameters, and the
      in-place operations [mul_] / [add_] write the heap.
    - Python exceptions are an outcome [Raise e]; the state reached when the
      exception is raised is kept, so that effects performed before a
      failure remain observable.
    - The network architecture, autograd, the optimiser rule, the text
      encoder and the random generator are collaborators of the script;
      they are parameters of the development.  A forward pass is a function
      of the values of the parameters it reads.
    - Printing is an event of the trace but not a side effect on the file
      system or the network; the progress bar of [tqdm], the device
      placement and the mixed-precision wrapper leave no trace. *)

From Stdlib Require Import ZArith QArith Qcanon PrimFloat.
From stdpp Require Import base option list strings pretty gmap.

(** ** Tensors *)

Abbreviation Tensor := (list Qc).
Abbreviation loc := nat.

(** Elementwise binary operation on two tensors of the same shape; [None]
    is torch's shape-mismatch [RuntimeError]. *)
Definition tensor_map2 (f : Qc -> Qc -> Qc) (a b : Tensor) : option Tensor :=
  if decide (length a = length b) then Some (zip_with f a b) else None.

Definition tensor_sub : Tensor -> Tensor -> option Tensor := tensor_map2 Qcminus.
Definition tensor_add : Tensor -> Tensor -> option Tensor := tensor_map2 Qcplus.
Definition tensor_scale (c : Qc) (a : Tensor) : Tensor := map (Qcmult c) a.

(** [v_uncond + cfg_scale * (v_cond - v_uncond)] (line 147). *)
Definition cfg_combine (cfg_scale : Qc) (v_uncond v_cond : Tensor) : option Tensor :=
  match tensor_sub v_cond v_uncond with
  | Some d => tensor_add v_uncond (tensor_scale cfg_scale d)
  | None => None
  end.

(** The same expression on Python floats (binary64), for scalar inputs. *)
Definition cfg_combine_float (cfg_scale v_uncond v_cond : float) : float :=
  PrimFloat.add v_uncond (PrimFloat.mul cfg_scale (PrimFloat.sub v_cond v_uncond)).

Definition Qc_of_nat (n : nat) : Qc := Q2Qc (inject_Z (Z.of_nat n)).

Definition tensor_sum (a : Tensor) : Qc := foldr Qcplus (Q2Qc 0) a.

(** [F.mse_loss(input, target)]: mean of the squared differences.  On empty
    tensors the division is by zero: torch gives [nan], [Qc] gives 0. *)
Definition mse_loss (input target : Tensor) : option Qc :=
  match tensor_sub input target with
  | Some d => Some (tensor_sum (map (fun x => x * x)%Qc d) / Qc_of_nat (length d))%Qc
  | None => None
  end.

(** ** Exceptions and the state monad *)

Inductive exn : Type :=
| ZeroDivisionError   (* [step % save_interval] with [save_interval = 0] *)
| RuntimeError        (* torch shape mismatch *)
| InvalidReference.   (* a location that is not allocated *)

Inductive outcome (A : Type) : Type :=
| Ok (a : A)
| Raise (e : exn).
Arguments Ok {A} a.
Arguments Raise {A} e.

Definition M (S A : Type) : Type := S -> outcome A * S.

Definition ret {S A} (a : A) : M S A := fun s => (Ok a, s).

Definition bind {S A B} (m : M S A) (k : A -> M S B) : M S B :=
  fun s =>
    match m s with
    | (Ok a, s') => k a s'
    | (Raise e, s') => (Raise e, s')
    end.

Definition raise {S A} (e : exn) : M S A := fun s => (Raise e, s).
Definition gets {S A} (f : S -> A) : M S A := fun s => (Ok (f s), s).
Definition modify {S} (f : S -> S) : M S unit := fun s => (Ok tt, f s).

Definition try {S A} (e : exn) (o : option A) : M S A :=
  match o with
  | Some a => ret a
  | None => raise e
  end.

Definition when {S} (b : bool) (m : M S unit) : M S unit :=
  if b then m else ret tt.

Declare Scope trainer_scope.
Delimit Scope trainer_scope with trainer.
Notation "x <- m ;; k" := (bind m (fun x => k))
  (at level 100, m at next level, right associativity) : trainer_scope.
Notation "m ;; k" := (bind m (fun _ => k))
  (at level 100, right associativity) : trainer_scope.
Local Open Scope trainer_scope.

(** A Python [for x in l: body]. *)
Fixpoint for_each {S A} (body : A -> M S unit) (l : list A) : M S unit :=
  match l with
  | [] => ret tt
  | x :: l' => body x ;; for_each body l'
  end.

(** [enumerate(l)]. *)
Definition enumerate {A} (l : list A) : list (nat * A) := imap pair l.

(** Run a computation on a component of the state. *)
Definition zoom {S T A} (proj : S -> T) (upd : T -> S -> S) (m : M T A) : M S A :=
  fun s => let '(r, t) := m (proj s) in (r, upd t s).

(** ** Collaborators

    Everything the script delegates to the libraries it imports. *)
Record Env : Type := {
  (** encoded text conditioning, and the T5 encoder applied to prompts *)
  Ctx : Type;
  text_encoder : list string -> Ctx;
  (** [WanModel.forward]: training flag, parameter values, input, timestep,
      context and [seq_len] to the predicted field *)
  forward : bool -> list Tensor -> Tensor -> Tensor -> Ctx -> nat -> Tensor;
  (** autograd: gradients of the loss with respect to the parameters of the
      module that produced the prediction, for the given target *)
  backward : bool -> list Tensor -> Tensor -> Tensor -> Ctx -> nat -> Tensor -> list Tensor;
  (** [optim.RMSprop(params, lr, alpha=0.9)] and its [step] *)
  OptState : Type;
  opt_init : Qc -> OptState;
  optimizer_step : OptState -> list Tensor -> list Tensor -> OptState * list Tensor;
  (** the [k]-th element of the [n]-th draw of [torch.randn_like] *)
  randn : nat -> nat -> Qc;
  (** the weights stored under a checkpoint directory *)
  pretrained : string -> list Tensor;
}.

(** ** Modules and the accelerator *)

Record Module : Type := { params : list loc; training : bool }.

(** A module, possibly wrapped for data-parallel training. *)
Inductive Model : Type :=
| Bare (m : Module)
| Wrapped (inner : Model).

Fixpoint parameters (m : Model) : list loc :=
  match m with
  | Bare b => params b
  | Wrapped i => parameters i
  end.

Fixpoint is_training (m : Model) : bool :=
  match m with
  | Bare b => training b
  | Wrapped i => is_training i
  end.

Fixpoint set_training (t : bool) (m : Model) : Model :=
  match m with
  | Bare b => Bare {| params := params b; training := t |}
  | Wrapped i => Wrapped (set_training t i)
  end.

Definition eval_mode : Model -> Model := set_training false.
Definition train_mode : Model -> Model := set_training true.

Record Accelerator : Type := { is_main_process : bool; distributed : bool }.

Definition prepare (acc : Accelerator) (m : Model) : Model :=
  if distributed acc then Wrapped m else m.

Fixpoint unwrap_model (m : Model) : Model :=
  match m with
  | Bare b => Bare b
  | Wrapped i => unwrap_model i
  end.

(** ** Observable effects *)

Inductive Message : Type :=
| MsgInitializing
| MsgEpoch (epoch1 : nat) (num_epochs : Z)
| MsgProgress (epoch1 batch_idx : nat) (avg_loss : Qc)
| MsgSavedStep (path : string)
| MsgSavedEpoch (path : string)
| MsgSavedFinal (path : string).

Record WandbConfig : Type := {
  wc_learning_rate : Qc;
  wc_num_epochs : Z;
  wc_cfg_scale : Qc;
  wc_save_interval : Z;
  wc_method : string;
}.

Inductive Event : Type :=
| EvPrint (msg : Message)
| EvMakedirs (dir : string)
| EvWandbInit (project : string) (name : option string) (cfg : WandbConfig)
| EvWandbLog (step : nat) (batch_loss avg_loss : Qc) (epoch1 : nat)
| EvWandbFinish
| EvSave (path : string) (state_dict : list Tensor).

(** Effects on the file system or the network; printing is not one. *)
Definition is_side_effect (e : Event) : bool :=
  match e with
  | EvPrint _ => false
  | _ => true
  end.

Definition is_makedirs (e : Event) : bool :=
  match e with EvMakedirs _ => true | _ => false end.

Definition is_metrics (e : Event) : bool :=
  match e with
  | EvWandbInit _ _ _ | EvWandbLog _ _ _ _ | EvWandbFinish => true
  | _ => false
  end.

Definition is_save (e : Event) : bool :=
  match e with EvSave _ _ => true | _ => false end.

Definition side_effects (tr : list Event) : list Event :=
  filter (fun e => is_side_effect e = true) tr.

(** The checkpoint files written, in order, with their contents. *)
Fixpoint saves (tr : list Event) : list (string * list Tensor) :=
  match tr with
  | [] => []
  | EvSave p c :: tr' => (p, c) :: saves tr'
  | _ :: tr' => saves tr'
  end.

Definition save_paths (tr : list Event) : list string := (saves tr).*1.

(** ** Checkpoint names (lines 188, 195, 204) *)

Definition step_path (output_dir : string) (step : nat) : string :=
  output_dir +:+ "/consistency_model_step_" +:+ pretty step +:+ ".pt".

Definition epoch_path (output_dir : string) (epoch1 : nat) : string :=
  output_dir +:+ "/consistency_model_epoch_" +:+ pretty epoch1 +:+ ".pt".

Definition final_path (output_dir : string) : string :=
  output_dir +:+ "/consistency_model_final.pt".

(** ** The program state *)

Inductive Role : Type := Teacher | Student.

Section Trainer.
Context (env : Env).

(** The state the numerical code works on. *)
Record NumState : Type := {
  heap : list Tensor;            (* parameter tensors, by location *)
  opt : OptState env;            (* the optimiser's own state *)
  draws : nat;                   (* number of [randn_like] calls so far *)
  grad_mode : bool;              (* [torch.is_grad_enabled()] *)
  calls : list (Role * bool * Ctx env);
                                 (* forward passes: who, grad mode, conditioning *)
}.

Definition set_heap (h : list Tensor) (s : NumState) : NumState :=
  {| heap := h; opt := opt s; draws := draws s; grad_mode := grad_mode s; calls := calls s |}.
Definition set_opt (o : OptState env) (s : NumState) : NumState :=
  {| heap := heap s; opt := o; draws := draws s; grad_mode := grad_mode s; calls := calls s |}.
Definition set_draws (n : nat) (s : NumState) : NumState :=
  {| heap := heap s; opt := opt s; draws := n; grad_mode := grad_mode s; calls := calls s |}.
Definition set_grad_mode (g : bool) (s : NumState) : NumState :=
  {| heap := heap s; opt := opt s; draws := draws s; grad_mode := g; calls := calls s |}.
Definition set_calls (c : list (Role * bool * Ctx env)) (s : NumState) : NumState :=
  {| heap := heap s; opt := opt s; draws := draws s; grad_mode := grad_mode s; calls := c |}.

(** The whole state of a run: the numerical state, the two counters of the
    loop and the trace of observable effects. *)
Record State : Type := {
  num : NumState;
  step : nat;
  total_loss : Qc;
  out : list Event;
}.

Definition set_num (n : NumState) (s : State) : State :=
  {| num := n; step := step s; total_loss := total_loss s; out := out s |}.
Definition set_step (k : nat) (s : State) : State :=
  {| num := num s; step := k; total_loss := total_loss s; out := out s |}.
Definition set_total_loss (l : Qc) (s : State) : State :=
  {| num := num s; step := step s; total_loss := l; out := out s |}.
Definition set_out (o : list Event) (s : State) : State :=
  {| num := num s; step := step s; total_loss := total_loss s; out := o |}.

Definition numeric {A} (m : M NumState A) : M State A := zoom num set_num m.

Definition emit (e : Event) : M State unit :=
  modify (fun s => set_out (out s ++ [e]) s).

(** ** Heap operations *)

Definition read (l : loc) : M NumState Tensor :=
  fun s =>
    match heap s !! l with
    | Some t => (Ok t, s)
    | None => (Raise InvalidReference, s)
    end.

Definition write (l : loc) (t : Tensor) : M NumState unit :=
  fun s =>
    if decide (l < length (heap s))
    then (Ok tt, set_heap (<[l := t]> (heap s)) s)
    else (Raise InvalidReference, s).

Definition alloc (t : Tensor) : M NumState loc :=
  fun s => (Ok (length (heap s)), set_heap (heap s ++ [t]) s).

Fixpoint read_all (ls : list loc) : M NumState (list Tensor) :=
  match ls with
  | [] => ret []
  | l :: ls' => t <- read l ;; ts <- read_all ls' ;; ret (t :: ts)
  end.

Fixpoint alloc_all (ts : list Tensor) : M NumState (list loc) :=
  match ts with
  | [] => ret []
  | t :: ts' => l <- alloc t ;; ls <- alloc_all ts' ;; ret (l :: ls)
  end.

(** [WanModel.from_pretrained(checkpoint_dir)]: a new module whose
    parameters are new tensors holding the stored weights. *)
Definition from_pretrained (checkpoint_dir : string) : M NumState Model :=
  ls <- alloc_all (pretrained env checkpoint_dir) ;;
  ret (Bare {| params := ls; training := true |}).

(** [t.mul_(c)] on the tensor at [l]. *)
Definition mul_ (l : loc) (c : Qc) : M NumState unit :=
  t <- read l ;;
  write l (map (fun x => x * c)%Qc t).

(** [t.add_(other, alpha=a)] on the tensor at [l]. *)
Definition add_ (l other : loc) (a : Qc) : M NumState unit :=
  t <- read l ;;
  o <- read other ;;
  r <- try RuntimeError (tensor_map2 (fun x y => x + a * y)%Qc t o) ;;
  write l r.

(** [with torch.no_grad(): body]: the previous mode is restored on exit,
    also when [body] raises. *)
Definition with_no_grad {A} (body : M NumState A) : M NumState A :=
  fun s =>
    let prev := grad_mode s in
    let '(r, s') := body (set_grad_mode false s) in
    (r, set_grad_mode prev s').

(** Lines 105-108. *)
Definition ema_param_update (decay : Qc) (p : loc * loc) : M NumState unit :=
  mul_ p.1 decay ;;
  add_ p.1 p.2 (1 - decay)%Qc.

Definition update_ema (target_model source_model : Model) (decay : Qc) : M NumState unit :=
  with_no_grad
    (for_each (ema_param_update decay)
       (zip (parameters target_model) (parameters source_model))).

(** A forward pass [model([x], t=t, context=c, seq_len=n)[0]]. *)
Definition call_model (r : Role) (m : Model) (x t : Tensor) (c : Ctx env) (seq_len : nat)
  : M NumState Tensor :=
  ps <- read_all (parameters m) ;;
  g <- gets grad_mode ;;
  modify (fun s => set_calls (calls s ++ [(r, g, c)]) s) ;;
  ret (forward env (is_training m) ps x t c seq_len).

(** [torch.randn_like(samples)]. *)
Definition randn_like (samples : Tensor) : M NumState Tensor :=
  n <- gets draws ;;
  modify (set_draws (S n)) ;;
  ret (map (randn env n) (seq 0 (length samples))).

(** ** Inputs of the training function *)

(** The fields of the module-level [config] that the function body reads.
    The body refers to the name [config], which is not a parameter of the
    function (the signature names it [model_config], while the call of line
    269 passes [config=...]); the embedding takes it as an argument.
    [sample_neg_prompt = None] is Python's [None]. *)
Record Config : Type := {
  sample_neg_prompt : option string;
  num_train_timesteps : Z;
  seq_len : nat;
}.

(** One element of the data loader: [samples], [samples.shape[0]] and the
    prompts. *)
Record Batch : Type := {
  samples : Tensor;
  batch_size : nat;
  text_prompts : list string;
}.

(** The arguments of [train_consistency_distillation].  The data loader
    gives, for each pass over it, the batches of that pass. *)
Record Args : Type := {
  original_model : Model;
  train_dataloader : nat -> list Batch;
  checkpoint_dir : string;
  output_dir : string;
  accelerator : Accelerator;
  num_epochs : Z;
  learning_rate : Qc;
  cfg_scale : Qc;
  save_interval : Z;
  use_wandb : bool;
  project_name : string;
  run_name : option string;
}.

(** [x or ""] on an optional string (line 99). *)
Definition or_empty (x : option string) : string :=
  match x with
  | Some s => if decide (s = "") then "" else s
  | None => ""
  end.

Definition ema_decay : Qc := Q2Qc (995 # 1000).

(** [a % b] on Python integers. *)
Definition py_mod {S} (a b : Z) : M S Z :=
  if decide (b = 0)%Z then raise ZeroDivisionError else ret (a mod b)%Z.

Section Loop.
Context (a : Args) (config : Config).
Context (teacher distilled_model ema_model : Model) (negative_prompt : string).

(** Lines 129-147: the two teacher passes and their combination. *)
Definition teacher_target (noise timestep : Tensor) (context context_null : Ctx env)
  : M NumState Tensor :=
  with_no_grad
    (v_uncond <- call_model Teacher teacher noise timestep context_null (seq_len config) ;;
     v_cond <- call_model Teacher teacher noise timestep context (seq_len config) ;;
     try RuntimeError (cfg_combine (cfg_scale a) v_uncond v_cond)).

(** Lines 161-163: [backward], [optimizer.step()], [optimizer.zero_grad()].
    The gradients are those of this iteration only, since they are cleared
    after every step.  [accelerator.backward] raises when the student's pass
    ran without gradient tracking; the embedding has no such failure. *)
Definition optimizer_update (noise timestep : Tensor) (context : Ctx env) (v_teacher : Tensor)
  : M NumState unit :=
  ps <- read_all (parameters distilled_model) ;;
  o <- gets opt ;;
  let grads := backward env (is_training distilled_model) ps noise timestep context
                 (seq_len config) v_teacher in
  let r := optimizer_step env o ps grads in
  for_each (fun p => write p.1 p.2) (zip (parameters distilled_model) r.2) ;;
  modify (set_opt r.1).

(** Lines 118-166: one distillation step; the result is the loss. *)
Definition distill_step (b : Batch) : M NumState Qc :=
  let context := text_encoder env (text_prompts b) in
  let context_null :=
    text_encoder env (replicate (length (text_prompts b)) negative_prompt) in
  noise <- randn_like (samples b) ;;
  let timestep := replicate (batch_size b) (Q2Qc (inject_Z (num_train_timesteps config))) in
  v_teacher <- teacher_target noise timestep context context_null ;;
  v_student <- call_model Student distilled_model noise timestep context (seq_len config) ;;
  loss <- try RuntimeError (mse_loss v_student v_teacher) ;;
  optimizer_update noise timestep context v_teacher ;;
  update_ema ema_model distilled_model ema_decay ;;
  ret loss.

(** [torch.save(unwrap_model(ema_model).state_dict(), path)]. *)
Definition save_ema (path : string) : M State unit :=
  sd <- numeric (read_all (parameters (unwrap_model ema_model))) ;;
  emit (EvSave path sd).

Definition is_main : bool := is_main_process (accelerator a).

(** Lines 117-191: the body of the inner loop. *)
Definition train_batch (epoch : nat) (ib : nat * Batch) : M State unit :=
  let batch_idx := ib.1 in
  loss <- numeric (distill_step ib.2) ;;
  modify (fun s => set_total_loss (total_loss s + loss)%Qc s) ;;
  modify (fun s => set_step (S (step s)) s) ;;
  st <- gets step ;;
  tl <- gets total_loss ;;
  when (use_wandb a && is_main && (batch_idx mod 5 =? 0))
    (emit (EvWandbLog st loss (tl / Qc_of_nat (batch_idx + 1))%Qc (epoch + 1))) ;;
  when (is_main && (batch_idx mod 10 =? 0))
    (emit (EvPrint (MsgProgress (epoch + 1) batch_idx
                      (tl / Qc_of_nat (batch_idx + 1))%Qc))) ;;
  r <- py_mod (Z.of_nat st) (save_interval a) ;;
  when ((r =? 0)%Z && is_main)
    (let checkpoint_path := step_path (output_dir a) st in
     save_ema checkpoint_path ;;
     emit (EvPrint (MsgSavedStep checkpoint_path))).

(** Lines 114-200: the body of the outer loop. *)
Definition train_epoch (epoch : nat) : M State unit :=
  emit (EvPrint (MsgEpoch (epoch + 1) (num_epochs a))) ;;
  for_each (train_batch epoch) (enumerate (train_dataloader a epoch)) ;;
  when is_main
    (let checkpoint_path := epoch_path (output_dir a) (epoch + 1) in
     save_ema checkpoint_path ;;
     emit (EvPrint (MsgSavedEpoch checkpoint_path))) ;;
  modify (set_total_loss (Q2Qc 0)).

End Loop.

(** Lines 54-212.  The construction of the T5 encoder (lines 89-96), where
    the body first reads the global [config], belongs to the collaborator
    [text_encoder]; a failure there, such as the [NameError] of an unbound
    [config], is outside the embedding. *)
Definition train_consistency_distillation (a : Args) (config : Config) : M State Model :=
  let acc := accelerator a in
  emit (EvPrint MsgInitializing) ;;
  emit (EvMakedirs (output_dir a)) ;;
  when (use_wandb a && is_main_process acc)
    (emit (EvWandbInit (project_name a) (run_name a)
             {| wc_learning_rate := learning_rate a;
                wc_num_epochs := num_epochs a;
                wc_cfg_scale := cfg_scale a;
                wc_save_interval := save_interval a;
                wc_method := "consistency_distillation" |})) ;;
  distilled_model <- numeric (from_pretrained (checkpoint_dir a)) ;;
  numeric (modify (set_opt (opt_init env (learning_rate a)))) ;;
  let distilled_model := prepare acc distilled_model in
  let teacher := eval_mode (original_model a) in
  let distilled_model := train_mode distilled_model in
  let negative_prompt := or_empty (sample_neg_prompt config) in
  ema_model <- numeric (from_pretrained (checkpoint_dir a)) ;;
  let ema_model := eval_mode ema_model in
  modify (set_step 0) ;;
  modify (set_total_loss (Q2Qc 0)) ;;
  for_each (train_epoch a config teacher distilled_model ema_model negative_prompt)
    (seq 0 (Z.to_nat (num_epochs a))) ;;
  when (is_main_process acc)
    (let final_path := final_path (output_dir a) in
     save_ema ema_model final_path ;;
     emit (EvPrint (MsgSavedFinal final_path))) ;;
  when (use_wandb a && is_main_process acc) (emit EvWandbFinish) ;;
  ret (unwrap_model ema_model).

End Trainer.

Arguments heap {env}.
Arguments opt {env}.
Arguments draws {env}.
Arguments grad_mode {env}.
Arguments calls {env}.
Arguments num {env}.
Arguments step {env}.
Arguments total_loss {env}.
Arguments out {env}.
Arguments set_heap {env}.
Arguments set_opt {env}.
Arguments set_draws {env}.
Arguments set_grad_mode {env}.
Arguments set_calls {env}.
Arguments set_num {env}.
Arguments set_step {env}.
Arguments set_total_loss {env}.
Arguments set_out {env}.

(** The values held at a list of locations, when all are allocated. *)
Definition lookup_all (h : list Tensor) (ls : list loc) : option (list Tensor) :=
  mapM (fun l => h !! l) ls.

(** The update rule in the words of the specification:
    [ema = decay*ema + (1-decay)*student]. *)
Definition ema_mix (d e x : Qc) : Qc := (d * e + (1 - d) * x)%Qc.
Definition ema_tensor (d : Qc) (e x : Tensor) : Tensor := zip_with (ema_mix d) e x.

(** ** Vocabulary of the statements *)

(** [P] is an invariant of [m], whatever its outcome. *)
Definition preserves {S A} (P : S -> Prop) (m : M S A) : Prop :=
  forall s, P s -> P (m s).2.

(** A teacher pass recorded in the call log ran without gradient tracking. *)
Definition teacher_no_grad {env} (c : Role * bool * Ctx env) : Prop :=
  c.1.1 = Teacher -> c.1.2 = false.

(** What the numerical code may do between [s0] and [s]: write the tensors
    at the locations [W] (no tensor is allocated or resized away), change
    the optimiser state and the random draws, keep the grad mode, and add
    forward passes to the call log, the teacher's without gradient
    tracking. *)
Definition touched {env} (W : loc -> Prop) (s0 s : NumState env) : Prop :=
  length (heap s) = length (heap s0)
  /\ (forall l, ~ W l -> heap s !! l = heap s0 !! l)
  /\ grad_mode s = grad_mode s0
  /\ exists new, calls s = calls s0 ++ new /\ Forall teacher_no_grad new.

(** The collaborators keep shapes: the network's prediction has the shape
    of its input, and the optimiser updates every parameter in place. *)
Definition shape_preserving (env : Env) : Prop :=
  (forall tr ps x t c n, length (forward env tr ps x t c n) = length x)
  /\ (forall o ps gs,
        Forall2 (fun p p' : Tensor => length p = length p') ps (optimizer_step env o ps gs).2).

(** The guided target, elementwise, in the words of the specification:
    [target = uncond_pred + cfg_scale * (cond_pred - uncond_pred)]. *)
Definition cfg_formula (cfg_scale uncond_pred cond_pred : Qc) : Qc :=
  (uncond_pred + cfg_scale * (cond_pred - uncond_pred))%Qc.

(** *** The data of one distillation step *)
Section StepVocabulary.
Context (env : Env) (a : Args) (config : Config).
Context (teacher : Model) (negative_prompt : string).

(** The noise drawn in state [s] for batch [b], and the timestep tensor. *)
Definition step_noise (b : Batch) (s : NumState env) : Tensor :=
  map (randn env (draws s)) (seq 0 (length (samples b))).
Definition step_timestep (b : Batch) : Tensor :=
  replicate (batch_size b) (Q2Qc (inject_Z (num_train_timesteps config))).

(** The two teacher predictions and their guided combination, when the
    teacher's parameters have the values [pt]. *)
Definition uncond_pred (b : Batch) (s : NumState env) (pt : list Tensor) : Tensor :=
  forward env (is_training teacher) pt (step_noise b s) (step_timestep b)
    (text_encoder env (replicate (length (text_prompts b)) negative_prompt))
    (seq_len config).
Definition cond_pred (b : Batch) (s : NumState env) (pt : list Tensor) : Tensor :=
  forward env (is_training teacher) pt (step_noise b s) (step_timestep b)
    (text_encoder env (text_prompts b)) (seq_len config).
Definition guided_target (b : Batch) (s : NumState env) (pt : list Tensor) : Tensor :=
  zip_with (cfg_formula (cfg_scale a)) (uncond_pred b s pt) (cond_pred b s pt).

(** The forward passes of one step, as the call log records them, when the
    grad mode outside the [no_grad] block is [g]. *)
Definition step_calls (g : bool) (b : Batch) : list (Role * bool * Ctx env) :=
  [(Teacher, false, text_encoder env (replicate (length (text_prompts b)) negative_prompt));
   (Teacher, false, text_encoder env (text_prompts b));
   (Student, g, text_encoder env (text_prompts b))].

End StepVocabulary.

(** *** The objects of a run

    What the prologue of [train_consistency_distillation] builds, as a
    function of the arguments and of the state before the call. *)
Section RunVocabulary.
Context (env : Env) (a : Args) (config : Config).

Definition stored_weights : list Tensor := pretrained env (checkpoint_dir a).

(** Locations of the parameters of the first and of the second module
    loaded from the checkpoint, when the heap was [h] before the call. *)
Definition student_locs (h : list Tensor) : list loc :=
  seq (length h) (length stored_weights).
Definition ema_locs (h : list Tensor) : list loc :=
  seq (length h + length stored_weights) (length stored_weights).

Definition teacher_of : Model := eval_mode (original_model a).
Definition student_of (h : list Tensor) : Model :=
  train_mode (prepare (accelerator a) (Bare {| params := student_locs h; training := true |})).
Definition ema_of (h : list Tensor) : Model :=
  eval_mode (Bare {| params := ema_locs h; training := true |}).

(** The numerical state when the loop starts. *)
Definition setup_num (n : NumState env) : NumState env :=
  {| heap := heap n ++ stored_weights ++ stored_weights;
     opt := opt_init env (learning_rate a);
     draws := draws n; grad_mode := grad_mode n; calls := calls n |}.

(** The events of the prologue. *)
Definition prologue_events : list Event :=
  [EvPrint MsgInitializing; EvMakedirs (output_dir a)]
  ++ (if use_wandb a && is_main_process (accelerator a)
      then [EvWandbInit (project_name a) (run_name a)
              {| wc_learning_rate := learning_rate a;
                 wc_num_epochs := num_epochs a;
                 wc_cfg_scale := cfg_scale a;
                 wc_save_interval := save_interval a;
                 wc_method := "consistency_distillation" |}]
      else []).

(** The events of one iteration before the checkpoint test. *)
Definition progress_events (epoch i st : nat) (loss tl : Qc) : list Event :=
  (if use_wandb a && is_main_process (accelerator a) && (i mod 5 =? 0)
   then [EvWandbLog st loss (tl / Qc_of_nat (i + 1))%Qc (epoch + 1)] else [])
  ++ (if is_main_process (accelerator a) && (i mod 10 =? 0)
      then [EvPrint (MsgProgress (epoch + 1) i (tl / Qc_of_nat (i + 1))%Qc)] else []).

(** The state in which the loop starts. *)
Definition loop_start (s : State env) : State env :=
  {| num := setup_num (num s); step := 0; total_loss := Q2Qc 0;
     out := out s ++ prologue_events |}.

(** The distillation steps alone, over a sequence of batches. *)
Definition num_run (h0 : list Tensor) (bs : list Batch) : M (NumState env) unit :=
  for_each
    (fun b => distill_step env a config teacher_of (student_of h0) (ema_of h0)
                (or_empty (sample_neg_prompt config)) b ;; ret tt)
    bs.

(** The batches of the passes before pass [e], in order. *)
Definition batches_upto (e : nat) : list Batch :=
  concat (map (train_dataloader a) (seq 0 e)).

Definition all_batches : list Batch := batches_upto (Z.to_nat (num_epochs a)).

End RunVocabulary.

(** The trace of [s] extends [o0] by events whose side effects are [X]. *)
Definition side_effects_are {env} (o0 X : list Event) (s : State env) : Prop :=
  exists new, out s = o0 ++ new /\ side_effects new = X.

(** The batches processed before batch [i] of pass [e]. *)
Definition batches_before (a : Args) (e i : nat) : list Batch :=
  batches_upto a e ++ take i (train_dataloader a e).

(** *** The checkpoint schedule *)

(** The test of line 187 on the step counter. *)
Definition is_save_step (save_interval : Z) (k : nat) : bool :=
  (Z.of_nat k mod save_interval =? 0)%Z.

(** The step checkpoints written while the counter goes from [from] to
    [from + cnt]. *)
Definition step_saves_between (a : Args) (from cnt : nat) : list string :=
  step_path (output_dir a)
    <$> filter (fun k => is_save_step (save_interval a) k = true) (seq (S from) cnt).

(** The checkpoints of pass [e], of the passes before [n], and of a
    completed run of the primary process. *)
Definition pass_paths (a : Args) (e : nat) : list string :=
  step_saves_between a (length (batches_upto a e)) (length (train_dataloader a e))
  ++ [epoch_path (output_dir a) (S e)].
Definition paths_upto (a : Args) (n : nat) : list string :=
  concat (pass_paths a <$> seq 0 n).
Definition expected_paths (a : Args) : list string :=
  paths_upto a (Z.to_nat (num_epochs a)) ++ [final_path (output_dir a)].

(** *** What a checkpoint file holds *)

(** [pc] is a checkpoint of the run started in state [s]: its contents are
    the parameters of the EMA module after the distillation steps of a
    prefix [done] of the batches of the run, and its name is the step name
    for the length of [done], the epoch name when [done] is a number of whole
    passes, or the final name when [done] is all the batches. *)
Definition checkpoint_of_run (env : Env) (a : Args) (config : Config) (s : State env)
    (pc : string * list Tensor) : Prop :=
  exists (done : list Batch) (n : NumState env),
    done `prefix_of` all_batches a
    /\ num_run env a config (heap (num s)) done (setup_num env a (num s)) = (Ok tt, n)
    /\ lookup_all (heap n) (ema_locs env a (heap (num s))) = Some pc.2
    /\ (pc.1 = step_path (output_dir a) (length done)
        \/ (exists e, pc.1 = epoch_path (output_dir a) (S e) /\ done = batches_upto a (S e))
        \/ (pc.1 = final_path (output_dir a) /\ done = all_batches a)).

(** The checkpoints of the trace [o] are those written before the call in
    state [s], followed by checkpoints of the run. *)
Definition saved_by_run (env : Env) (a : Args) (config : Config) (s : State env)
    (o : list Event) : Prop :=
  exists new, saves o = saves (out s) ++ new /\ Forall (checkpoint_of_run env a config s) new.

(** *** The iterations without their reports *)
Section CoreVocabulary.
Context (env : Env) (a : Args) (config : Config).

(** What an iteration does to the numerical state and to the step counter:
    the distillation step, the increment of line 170 and the division of
    line 187. *)
Definition core_batch (h0 : list Tensor) (b : Batch) : M (NumState env * nat) unit :=
  fun nk =>
    match distill_step env a config (teacher_of a) (student_of env a h0) (ema_of env a h0)
            (or_empty (sample_neg_prompt config)) b nk.1 with
    | (Raise e, n') => (Raise e, (n', nk.2))
    | (Ok _, n') =>
        if decide (save_interval a = 0)%Z then (Raise ZeroDivisionError, (n', S nk.2))
        else (Ok tt, (n', S nk.2))
    end.

Definition core_run (h0 : list Tensor) (bs : list Batch) : M (NumState env * nat) unit :=
  for_each (core_batch h0) bs.

(** The losses of the distillation steps over a sequence of batches, up to
    the first step that raises. *)
Fixpoint step_losses (h0 : list Tensor) (bs : list Batch) (n : NumState env) : list Qc :=
  match bs with
  | [] => []
  | b :: bs' =>
      match distill_step env a config (teacher_of a) (student_of env a h0) (ema_of env a h0)
              (or_empty (sample_neg_prompt config)) b n with
      | (Ok loss, n') => loss :: step_losses h0 bs' n'
      | (Raise _, _) => []
      end
  end.

End CoreVocabulary.



(** An outcome without the value returned. *)
Definition outcome_kind {A} (r : outcome A) : outcome unit :=
  match r with
  | Ok _ => Ok tt
  | Raise e => Raise e
  end.

(** *** The metrics session *)

(** The calls to the metrics service, in order. *)
Definition metrics (tr : list Event) : list Event :=
  filter (fun e => is_metrics e = true) tr.

Definition is_wandb_log (e : Event) : bool :=
  match e with EvWandbLog _ _ _ _ => true | _ => false end.

(** The [config] of [wandb.init] (lines 64-70). *)
Definition wandb_config (a : Args) : WandbConfig :=
  {| wc_learning_rate := learning_rate a;
     wc_num_epochs := num_epochs a;
     wc_cfg_scale := cfg_scale a;
     wc_save_interval := save_interval a;
     wc_method := "consistency_distillation" |}.

(** [e] is a metrics record for the step counter [pt.1] and the pass number
    [pt.2]. *)
Definition logged_at (e : Event) (pt : nat * nat) : Prop :=
  exists loss avg, e = EvWandbLog pt.1 loss avg pt.2.

(** The step counter and the pass number of the records of line 173: for
    the first [i] batches of pass [e], for pass [e], and for the passes
    before [n]. *)
Definition log_points_between (a : Args) (e i : nat) : list (nat * nat) :=
  (fun j => (length (batches_upto a e) + j + 1, e + 1))
    <$> filter (fun j => j mod 5 = 0) (seq 0 i).
Definition log_points (a : Args) (e : nat) : list (nat * nat) :=
  log_points_between a e (length (train_dataloader a e)).
Definition log_points_upto (a : Args) (n : nat) : list (nat * nat) :=
  concat (log_points a <$> seq 0 n).

(** [total_loss / (batch_idx + 1)] when the losses of the steps of the run
    are [L] and the pass started after [offset] steps; the sum is taken in
    the order of the additions of line 169. *)
Definition running_mean (L : list Qc) (offset batch_idx : nat) : Qc :=
  (foldl Qcplus (Q2Qc 0) (take (S batch_idx) (drop offset L)) / Qc_of_nat (batch_idx + 1))%Qc.

(** What a metrics record and a progress message report, when the losses of
    the steps of the run are [L]. *)
Definition reports_loss (a : Args) (L : list Qc) (ev : Event) : Prop :=
  match ev with
  | EvWandbLog st loss avg ep =>
      exists e i, ep = e + 1 /\ st = length (batches_upto a e) + i + 1
                  /\ L !! (length (batches_upto a e) + i) = Some loss
                  /\ avg = running_mean L (length (batches_upto a e)) i
  | EvPrint (MsgProgress ep i avg) =>
      exists e, ep = e + 1 /\ avg = running_mean L (length (batches_upto a e)) i
  | _ => True
  end.

(** *** The recurrence computed by the loop *)
Section Recurrence.
Context (env : Env) (a : Args) (config : Config).

(** What the loop carries from one iteration to the next. *)
Record Weights : Type := {
  w_student : list Tensor;
  w_ema : list Tensor;
  w_opt : OptState env;
  w_draws : nat;
}.

(** One iteration (lines 118-166) as a function of these values, when the
    teacher's parameters hold [pt]: the teacher runs in evaluation mode and
    the student in training mode (lines 85-86).  The guided target is
    the expression of line 147, and the EMA mix is the result of the [mul_]
    and [add_] of line 108. *)
Definition recurrence_step (pt : list Tensor) (w : Weights) (b : Batch) : Weights :=
  let context := text_encoder env (text_prompts b) in
  let context_null :=
    text_encoder env (replicate (length (text_prompts b))
                        (or_empty (sample_neg_prompt config))) in
  let noise := map (randn env (w_draws w)) (seq 0 (length (samples b))) in
  let timestep := replicate (batch_size b) (Q2Qc (inject_Z (num_train_timesteps config))) in
  let v_uncond := forward env false pt noise timestep context_null (seq_len config) in
  let v_cond := forward env false pt noise timestep context (seq_len config) in
  let v_teacher := zip_with (cfg_formula (cfg_scale a)) v_uncond v_cond in
  let grads := backward env true (w_student w) noise timestep context (seq_len config)
                 v_teacher in
  let r := optimizer_step env (w_opt w) (w_student w) grads in
  {| w_student := r.2;
     w_ema := zip_with (ema_tensor ema_decay) (w_ema w) r.2;
     w_opt := r.1;
     w_draws := S (w_draws w) |}.

Definition recurrence (pt : list Tensor) (w0 : Weights) (bs : list Batch) : Weights :=
  foldl (recurrence_step pt) w0 bs.

(** Both modules start from the stored weights (lines 74 and 101). *)
Definition initial_weights (n : NumState env) : Weights :=
  {| w_student := stored_weights env a;
     w_ema := stored_weights env a;
     w_opt := opt_init env (learning_rate a);
     w_draws := draws n |}.

(** The numerical state [n] holds the values [w], for the modules of a run
    started with the heap [h0]. *)
Definition holds_weights (h0 : list Tensor) (n : NumState env) (w : Weights) : Prop :=
  lookup_all (heap n) (student_locs env a h0) = Some (w_student w)
  /\ lookup_all (heap n) (ema_locs env a h0) = Some (w_ema w)
  /\ opt n = w_opt w
  /\ draws n = w_draws w.

End Recurrence.

Arguments w_student {env}.
Arguments w_ema {env}.
Arguments w_opt {env}.
Arguments w_draws {env}.

(** ** Configuration resolution (lines 219-241) *)
Module ConfigMerge.

(** The values an option can hold after parsing; Python's [None] is the
    [None] of [option pyval]. *)
Inductive pyval : Type :=
| VStr (s : string)
| VInt (z : Z)
| VFloat (q : Qc)
| VBool (b : bool).

(** [vars(args)]: a dictionary from option names to values. *)
Abbreviation namespace := (gmap string (option pyval)).

(** The options declared with a default (lines 221-231);
    [checkpoint_dir] is declared [required=True]. *)
Definition arg_defaults : list (string * option pyval) :=
  [("output_dir", Some (VStr "./output"));
   ("device_id", Some (VInt 0));
   ("num_epochs", Some (VInt 10));
   ("learning_rate", Some (VFloat (Q2Qc (5 # 1000000))));
   ("cfg_scale", Some (VFloat (Q2Qc (75 # 10))));
   ("batch_size", Some (VInt 8));
   ("use_wandb", Some (VBool false));
   ("wandb_project", Some (VStr "seaweed-apt-distillation"));
   ("wandb_run_name", None);
   ("config_file", Some (VStr "./config.yaml"));
   ("save_interval", Some (VInt 350))].

Definition declared : list string := "checkpoint_dir" :: arg_defaults.*1.

(** The namespace built by the parser: every declared option holds the value
    given on the command line, or else its default. *)
Definition parsed_namespace (cli : gmap string pyval) : namespace :=
  list_to_map
    ((fun kd : string * option pyval =>
        (kd.1, match cli !! kd.1 with Some v => Some v | None => kd.2 end))
     <$> (("checkpoint_dir", None) :: arg_defaults)).

(** [parser.parse_args()] on the options given on the command line, already
    converted by their [type]; [None] is the parser's error exit (an unknown
    option, or [checkpoint_dir] missing). *)
Definition parse_args (cli : gmap string pyval) : option namespace :=
  if decide (map_Forall (fun k _ => k ∈ declared) cli /\ is_Some (cli !! "checkpoint_dir"))
  then Some (parsed_namespace cli)
  else None.

(** One iteration of the loop of lines 238-240. *)
Definition merge_entry (args_dict : namespace) (kv : string * option pyval) : namespace :=
  match args_dict !! kv.1 with
  | None | Some None => <[kv.1 := kv.2]> args_dict
  | Some (Some _) => args_dict
  end.

(** Lines 237-240, for the entries of the loaded file in order. *)
Definition merge_config (args_dict : namespace) (config : list (string * option pyval))
  : namespace :=
  foldl merge_entry args_dict config.

(** Lines 232-241.  [load p] is the content of the file at path [p], [None]
    when no file exists there. *)
Definition resolve (load : string -> option (list (string * option pyval)))
    (cli : gmap string pyval) : option namespace :=
  match parse_args cli with
  | None => None
  | Some args =>
      match args !! "config_file" with
      | Some (Some (VStr p)) =>
          if decide (p = "") then Some args
          else match load p with
               | Some config => Some (merge_config args config)
               | None => Some args
               end
      | _ => Some args
      end
  end.

(** A command line, and a configuration file at the default path. *)
Definition example_cli : gmap string pyval := {[ "checkpoint_dir" := VStr "ckpt" ]}.
Definition example_config : list (string * option pyval) :=
  [("num_epochs", Some (VInt 20)); ("wandb_run_name", Some (VStr "run-1"));
   ("seed", Some (VInt 7))].
Definition example_file (p : string) : option (list (string * option pyval)) :=
  if decide (p = "./config.yaml") then Some example_config else None.

End ConfigMerge.

(** ** The call of the training function (lines 16-31 and 269-284) *)
Module CallSite.

(** The parameters of [train_consistency_distillation], in order, with
    whether they have a default. *)
Definition train_signature : list (string * bool) :=
  [("original_model", false); ("model_config", false); ("train_dataloader", false);
   ("checkpoint_dir", false); ("output_dir", false); ("device", false);
   ("accelerator", false); ("num_epochs", true); ("learning_rate", true);
   ("cfg_scale", true); ("save_interval", true); ("use_wandb", true);
   ("project_name", true); ("run_name", true)].

(** The keywords of the call of lines 269-284. *)
Definition main_call_keywords : list string :=
  ["original_model"; "config"; "train_dataloader"; "checkpoint_dir"; "output_dir";
   "device"; "accelerator"; "num_epochs"; "learning_rate"; "cfg_scale"; "save_interval";
   "use_wandb"; "project_name"; "run_name"].

(** The two ways in which the binding of keyword arguments raises
    [TypeError]. *)
Inductive TypeError : Type :=
| UnexpectedKeyword (k : string)
| MissingArgument (k : string).

(** Python's binding of a call that passes keyword arguments only to a
    signature without [**kwargs]: the keywords are matched first, then the
    parameters without a default are checked.  [None] is a successful
    binding. *)
Definition bind_keywords (sig : list (string * bool)) (kws : list string) : option TypeError :=
  match list_find (fun k => k ∉ sig.*1) kws with
  | Some (_, k) => Some (UnexpectedKeyword k)
  | None =>
      match list_find (fun p : string * bool => p.2 = false /\ p.1 ∉ kws) sig with
      | Some (_, p) => Some (MissingArgument p.1)
      | None => None
      end
  end.

End CallSite.

(** ** A small concrete environment

    Used to run the definitions on concrete inputs.  The network adds the
    first element of its first parameter to every input element, the
    gradient of a parameter is the parameter itself, and the optimiser
    halves every parameter.  The stored weights [w] are a parameter. *)
Module Toy.

Definition toy_forward (tr : bool) (ps : list Tensor) (x t : Tensor) (c : list string) (n : nat)
  : Tensor :=
  map (fun v => v + default (Q2Qc 0) (head (default [] (head ps))))%Qc x.

Definition toy_env (w : list Tensor) : Env :=
  {| Ctx := list string;
     text_encoder := fun ps => ps;
     forward := toy_forward;
     backward := fun tr ps x t c n tgt => ps;
     OptState := nat;
     opt_init := fun lr => 0;
     optimizer_step := fun o ps gs => (S o, map (map (fun v => v * Q2Qc (1 # 2))%Qc) ps);
     randn := fun n k => Q2Qc 0;
     pretrained := fun dir => w |}.

Definition toy_weights : list Tensor := [[Q2Qc 1; Q2Qc 2]; [Q2Qc 4]].
Definition zero_weights : list Tensor := [[Q2Qc 0]].

Definition toy_batch : Batch :=
  {| samples := [Q2Qc 0; Q2Qc 0; Q2Qc 0]; batch_size := 1; text_prompts := ["a cat"] |}.

Definition toy_config : Config :=
  {| sample_neg_prompt := None; num_train_timesteps := 1000; seq_len := 8 |}.

Definition toy_args (main : bool) (epochs : Z) (batches : nat) (interval : Z) (wandb : bool)
  : Args :=
  {| original_model := Bare {| params := [0]; training := true |};
     train_dataloader := fun _ => replicate batches toy_batch;
     checkpoint_dir := "ckpt";
     output_dir := "out";
     accelerator := {| is_main_process := main; distributed := true |};
     num_epochs := epochs;
     learning_rate := Q2Qc (5 # 1000000);
     cfg_scale := Q2Qc (75 # 10);
     save_interval := interval;
     use_wandb := wandb;
     project_name := "wan-consistency-distillation";
     run_name := None |}.

(** Before the call the heap holds the teacher's single parameter. *)
Definition toy_state (w : list Tensor) : State (toy_env w) :=
  {| num := Build_NumState (toy_env w) [[Q2Qc 3]] 0%nat 0 true [];
     step := 0; total_loss := Q2Qc 0; out := [] |}.

Abbreviation toy_run w main epochs batches interval wandb :=
  (train_consistency_distillation (toy_env w) (toy_args main epochs batches interval wandb)
     toy_config (toy_state w)).

End Toy.

(** * Properties *)

Section NumericFacts.
Context {env : Env}.
Implicit Types (s : NumState env) (h : list Tensor) (l : loc).

Lemma set_heap_set_heap h h' s : set_heap h (set_heap h' s) = set_heap h s.
Proof. reflexivity. Qed.

Lemma no_grad_restore h s :
  set_grad_mode (grad_mode s) (set_heap h (set_grad_mode false s)) = set_heap h s.
Proof. reflexivity. Qed.

Lemma read_all_eq ls s :
  read_all env ls s =
  match lookup_all (heap s) ls with
  | Some ts => (Ok ts, s)
  | None => (Raise InvalidReference, s)
  end.
Proof.
  induction ls as [|l ls IH]; [done|].
  unfold lookup_all in *. cbn [read_all mapM]. unfold bind at 1, read.
  destruct (heap s !! l) as [t|]; [|done]. cbn.
  unfold bind at 1. rewrite IH.
  by destruct (mapM _ ls).
Qed.

Lemma alloc_all_eq ts s :
  alloc_all env ts s =
  (Ok (seq (length (heap s)) (length ts)), set_heap (heap s ++ ts) s).
Proof.
  revert s. induction ts as [|t ts IH]; intros s.
  - cbn. unfold ret. rewrite app_nil_r. by destruct s.
  - cbn [alloc_all]. unfold bind at 1, alloc. unfold bind at 1.
    rewrite IH. cbn. rewrite length_app, <- app_assoc. cbn.
    by replace (length (heap s) + 1) with (S (length (heap s))) by lia.
Qed.

Lemma ema_tensor_code d (e x : Tensor) :
  zip_with (fun a b => a + (1 - d) * b)%Qc (map (fun a => a * d)%Qc e) x = ema_tensor d e x.
Proof.
  unfold ema_tensor. revert x. induction e as [|a e IH]; intros [|b x]; [done..|].
  cbn. f_equal; [|apply IH]. unfold ema_mix. ring.
Qed.

Lemma ema_param_update_ok d lt ls s (e x : Tensor) :
  heap s !! lt = Some e -> heap s !! ls = Some x -> lt <> ls -> length e = length x ->
  ema_param_update env d (lt, ls) s
  = (Ok tt, set_heap (<[lt := ema_tensor d e x]> (heap s)) s).
Proof.
  intros He Hx Hne Hlen.
  pose proof (lookup_lt_Some _ _ _ He) as Hlt.
  unfold ema_param_update, mul_, add_, bind, read, write, try, tensor_map2, ret. cbn.
  rewrite He. rewrite decide_True by done. cbn.
  rewrite list_lookup_insert_eq by done. cbn.
  rewrite list_lookup_insert_ne by done. rewrite Hx.
  rewrite decide_True by (by rewrite length_map). cbn.
  rewrite decide_True by (by rewrite length_insert).
  rewrite list_insert_insert_eq, ema_tensor_code. done.
Qed.

Lemma ema_loop_ok d (pairs : list (loc * loc)) s :
  NoDup pairs.*1 ->
  (forall p q, p ∈ pairs -> q ∈ pairs -> p.1 <> q.2) ->
  Forall (fun p => exists e x : Tensor,
            heap s !! p.1 = Some e /\ heap s !! p.2 = Some x /\ length e = length x) pairs ->
  exists h',
    for_each (ema_param_update env d) pairs s = (Ok tt, set_heap h' s)
    /\ length h' = length (heap s)
    /\ (forall l, l ∉ pairs.*1 -> h' !! l = heap s !! l)
    /\ (forall p (e x : Tensor), p ∈ pairs ->
          heap s !! p.1 = Some e -> heap s !! p.2 = Some x ->
          h' !! p.1 = Some (ema_tensor d e x)).
Proof.
  revert s. induction pairs as [|[lt ls] pairs IH]; intros s Hnd Hdisj Hok.
  - exists (heap s). split_and!; [by destruct s|done|done|].
    intros p e x Hp. by apply elem_of_nil in Hp.
  - cbn in Hnd. apply NoDup_cons in Hnd as [Hnot Hnd].
    apply Forall_cons in Hok as [(e & x & He & Hx & Hlen) Hok].
    assert (lt <> ls) as Hne by (apply (Hdisj (lt, ls) (lt, ls)); left).
    set (s1 := set_heap (<[lt := ema_tensor d e x]> (heap s)) s).
    destruct (IH s1) as (h' & Hrun & Hlen' & Hframe & Hval).
    + done.
    + intros p q Hp Hq. apply Hdisj; by right.
    + apply Forall_forall. intros p Hp.
      rewrite Forall_forall in Hok. destruct (Hok p Hp) as (e' & x' & He' & Hx' & Hl').
      exists e', x'. cbn. split_and!; [| |done].
      * rewrite list_lookup_insert_ne; [done|]. intros ->. apply Hnot.
        apply list_elem_of_fmap. by exists p.
      * rewrite list_lookup_insert_ne; [done|].
        apply (Hdisj (lt, ls) p); [left|by right].
    + exists h'. split_and!.
      * cbn [for_each]. unfold bind at 1.
        rewrite (ema_param_update_ok d lt ls s e x) by done. apply Hrun.
      * rewrite Hlen'. cbn. by rewrite length_insert.
      * intros l Hl. rewrite Hframe.
        -- cbn. rewrite list_lookup_insert_ne; [done|]. intros ->. apply Hl. left.
        -- intros Hin. apply Hl. by right.
      * intros p e' x' Hp He' Hx'. apply elem_of_cons in Hp as [->|Hp].
        -- cbn in *. rewrite Hframe by done. cbn.
           rewrite list_lookup_insert_eq by (by eapply lookup_lt_Some).
           congruence.
        -- apply Hval; [done| |]; cbn.
           ++ rewrite list_lookup_insert_ne; [done|]. intros ->. apply Hnot.
              apply list_elem_of_fmap. by exists p.
           ++ rewrite list_lookup_insert_ne; [done|].
              apply (Hdisj (lt, ls) p); [left|by right].
Qed.

Lemma lookup_all_Some h (ls : list loc) (ts : list Tensor) :
  lookup_all h ls = Some ts <-> Forall2 (fun l t => h !! l = Some t) ls ts.
Proof. apply mapM_Some. Qed.

Lemma lookup_all_length h (ls : list loc) (ts : list Tensor) :
  lookup_all h ls = Some ts -> length ls = length ts.
Proof. intros H%lookup_all_Some. by eapply Forall2_length. Qed.

Lemma lookup_all_frame h h' (ls : list loc) :
  (forall l, l ∈ ls -> h' !! l = h !! l) -> lookup_all h' ls = lookup_all h ls.
Proof.
  intros Heq. unfold lookup_all. induction ls as [|l ls IH]; [done|].
  cbn. rewrite Heq by left. rewrite IH; [done|].
  intros l' Hl'. apply Heq. by right.
Qed.

Lemma zip_elem_lookup {A B} (l : list A) (k : list B) (p : A * B) :
  p ∈ zip l k -> exists i, l !! i = Some p.1 /\ k !! i = Some p.2.
Proof.
  intros [i Hi]%list_elem_of_lookup. exists i.
  apply lookup_zip_with_Some in Hi as (x & y & -> & Hx & Hy). done.
Qed.

(** The loop of [update_ema] on two modules whose parameters are distinct
    tensors of pairwise equal shapes. *)
Lemma update_ema_ok d (target source : Model) s (es xs : list Tensor) :
  NoDup (parameters target) ->
  (forall l, l ∈ parameters target -> l ∉ parameters source) ->
  lookup_all (heap s) (parameters target) = Some es ->
  lookup_all (heap s) (parameters source) = Some xs ->
  Forall2 (fun e x : Tensor => length e = length x) es xs ->
  exists h',
    update_ema env target source d s = (Ok tt, set_heap h' s)
    /\ length h' = length (heap s)
    /\ lookup_all h' (parameters target) = Some (zip_with (ema_tensor d) es xs)
    /\ (forall l, l ∉ parameters target -> h' !! l = heap s !! l).
Proof.
  intros Hnd Hdisj Hes Hxs Hshape.
  pose proof (lookup_all_length _ _ _ Hes) as Hl1.
  pose proof (lookup_all_length _ _ _ Hxs) as Hl2.
  pose proof (Forall2_length _ _ _ Hshape) as Hl3.
  apply lookup_all_Some in Hes, Hxs.
  set (pairs := zip (parameters target) (parameters source)).
  assert (pairs.*1 = parameters target) as Hfst by (apply fst_zip; lia).
  destruct (ema_loop_ok d pairs (set_grad_mode false s)) as (h' & Hrun & Hlen & Hframe & Hval).
  - by rewrite Hfst.
  - intros [p1 p2] [q1 q2] Hp Hq. cbn. intros ->.
    apply (Hdisj q2); [by eapply elem_of_zip_l|by eapply elem_of_zip_r].
  - apply Forall_forall. intros p Hp.
    destruct (zip_elem_lookup _ _ _ Hp) as (i & Hi1 & Hi2).
    destruct (Forall2_lookup_l _ _ _ _ _ Hes Hi1) as (e & He & Hhe).
    destruct (Forall2_lookup_l _ _ _ _ _ Hxs Hi2) as (x & Hx & Hhx).
    exists e, x. cbn. split_and!; [done..|].
    exact (Forall2_lookup_lr _ es xs i e x Hshape He Hx).
  - exists h'. split_and!.
    + unfold update_ema, with_no_grad. fold pairs. rewrite Hrun. done.
    + done.
    + apply lookup_all_Some, Forall2_same_length_lookup. split.
      { rewrite length_zip_with. lia. }
      intros i l t Hl Ht.
      apply lookup_zip_with_Some in Ht as (e & x & -> & He & Hx).
      destruct (Forall2_lookup_r _ _ _ _ _ Hxs Hx) as (l2 & Hl2' & Hhx).
      apply (Hval (l, l2)); cbn.
      * apply list_elem_of_lookup. exists i. apply lookup_zip_with_Some. eauto.
      * by eapply (Forall2_lookup_lr _ _ _ _ _ _ Hes).
      * done.
    + intros l Hl. rewrite Hframe; [done|]. by rewrite Hfst.
Qed.

Lemma lookup_all_valid h (ls : list loc) :
  Forall (fun l => l < length h) ls -> exists ts, lookup_all h ls = Some ts.
Proof.
  induction ls as [|l ls IH]; intros Hv; [by exists []|].
  apply Forall_cons in Hv as [Hl Hv]. destruct (IH Hv) as (ts & Hts).
  destruct (lookup_lt_is_Some_2 h l Hl) as [t Ht].
  exists (t :: ts). unfold lookup_all in *. cbn. rewrite Ht. cbn. by rewrite Hts.
Qed.

Lemma lookup_all_lt h (ls : list loc) (ts : list Tensor) :
  lookup_all h ls = Some ts -> Forall (fun l => l < length h) ls.
Proof.
  intros H%lookup_all_Some. induction H; constructor; [|done].
  by eapply lookup_lt_Some.
Qed.

Lemma tensor_map2_ok f (u v : Tensor) :
  length u = length v -> tensor_map2 f u v = Some (zip_with f u v).
Proof. intros H. unfold tensor_map2. by rewrite decide_True. Qed.

Lemma cfg_combine_ok k (u c : Tensor) :
  length u = length c -> cfg_combine k u c = Some (zip_with (cfg_formula k) u c).
Proof.
  intros Hlen. unfold cfg_combine, tensor_sub, tensor_add, tensor_scale.
  rewrite tensor_map2_ok by done.
  rewrite tensor_map2_ok by (rewrite length_map, length_zip_with; lia).
  f_equal. clear Hlen. revert c. induction u as [|x u IH]; intros [|y c]; [done..|].
  cbn. f_equal. apply IH.
Qed.

Lemma mse_loss_ok (u v : Tensor) : length u = length v -> is_Some (mse_loss u v).
Proof. intros H. unfold mse_loss, tensor_sub. by rewrite tensor_map2_ok. Qed.

End NumericFacts.

(** ** Invariants of monadic code *)

Section MonadFacts.
Context {S : Type}.
Implicit Types (P : S -> Prop).

Lemma preserves_ret {A} P (a : A) : preserves P (ret a).
Proof. by intros s. Qed.

Lemma preserves_raise {A} P e : preserves P (raise (A := A) e).
Proof. by intros s. Qed.

Lemma preserves_gets {A} P (f : S -> A) : preserves P (gets f).
Proof. by intros s. Qed.

Lemma preserves_try {A} P e (o : option A) : preserves P (try e o).
Proof. destruct o; [apply preserves_ret|apply preserves_raise]. Qed.

Lemma preserves_py_mod P (x y : Z) : preserves P (py_mod x y).
Proof. unfold py_mod. case_decide; [apply preserves_raise|apply preserves_ret]. Qed.

Lemma preserves_modify P (f : S -> S) : (forall s, P s -> P (f s)) -> preserves P (modify f).
Proof. intros Hf s. apply Hf. Qed.

Lemma preserves_bind {A B} P (m : M S A) (k : A -> M S B) :
  preserves P m -> (forall a, preserves P (k a)) -> preserves P (bind m k).
Proof.
  intros Hm Hk s HP. unfold bind. specialize (Hm s HP).
  destruct (m s) as [[a|e] s']; cbn in *; [by apply Hk|done].
Qed.

Lemma preserves_when P (b : bool) (m : M S unit) :
  (b = true -> preserves P m) -> preserves P (when b m).
Proof. destruct b; cbn; [auto|intros _; apply preserves_ret]. Qed.

Lemma preserves_for_each {A} P (f : A -> M S unit) (l : list A) :
  (forall x, x ∈ l -> preserves P (f x)) -> preserves P (for_each f l).
Proof.
  induction l as [|x l IH]; intros Hf; cbn; [apply preserves_ret|].
  apply preserves_bind; [apply Hf; left|].
  intros _. apply IH. intros y Hy. apply Hf. by right.
Qed.

(** A loop invariant indexed by the position in the list; [R] is what is
    known when the body raises. *)
Lemma for_each_invariant {A} (I : nat -> S -> Prop) (R : S -> Prop)
    (f : A -> M S unit) (l : list A) :
  (forall i x s, l !! i = Some x -> I i s ->
     match f x s with
     | (Ok _, s') => I (Datatypes.S i) s'
     | (Raise _, s') => R s'
     end) ->
  forall s, I 0 s ->
    match for_each f l s with
    | (Ok _, s') => I (length l) s'
    | (Raise _, s') => R s'
    end.
Proof.
  revert I. induction l as [|x l IH]; intros I Hbody s HI; [done|].
  cbn [for_each]. unfold bind.
  pose proof (Hbody 0 x s eq_refl HI) as Hx.
  destruct (f x s) as [[[]|e] s1]; [|done].
  apply (IH (fun i => I (Datatypes.S i))); [|done].
  intros i y s2 Hy. apply (Hbody (Datatypes.S i)). done.
Qed.

Lemma for_each_app {A} (f : A -> M S unit) (l1 l2 : list A) s s1 :
  for_each f l1 s = (Ok tt, s1) ->
  for_each f (l1 ++ l2) s = for_each f l2 s1.
Proof.
  revert s. induction l1 as [|x l1 IH]; intros s; cbn.
  - unfold ret. congruence.
  - unfold bind. destruct (f x s) as [[[]|e] s']; [apply IH|done].
Qed.

Lemma bind_ok {A B} (m : M S A) (k : A -> M S B) s a s' :
  m s = (Ok a, s') -> bind m k s = k a s'.
Proof. unfold bind. by intros ->. Qed.

Lemma bind_raise {A B} (m : M S A) (k : A -> M S B) s e s' :
  m s = (Raise e, s') -> bind m k s = (Raise e, s').
Proof. unfold bind. by intros ->. Qed.

End MonadFacts.

(** ** The footprint of the numerical code *)

Section Footprint.
Context {env : Env}.
Implicit Types (s : NumState env) (W : loc -> Prop).

Lemma touched_refl W s : touched W s s.
Proof. repeat split. exists []. by rewrite app_nil_r. Qed.

Lemma touched_trans W s0 s1 s2 : touched W s0 s1 -> touched W s1 s2 -> touched W s0 s2.
Proof.
  intros (H1 & H2 & H3 & n1 & H4 & H5) (G1 & G2 & G3 & n2 & G4 & G5).
  split_and!; try congruence.
  - intros l Hl. rewrite G2, H2; done.
  - exists (n1 ++ n2). rewrite G4, H4, app_assoc. split; [done|]. by apply Forall_app.
Qed.

Lemma touched_mono W W' s0 s : (forall l, W l -> W' l) -> touched W s0 s -> touched W' s0 s.
Proof. intros HW (H1 & H2 & H3 & H4). split_and!; try done. intros l Hl. apply H2. auto. Qed.

(** Composition with a single change of the state. *)
Lemma touched_then W s0 s s' : touched W s0 s -> touched W s s' -> touched W s0 s'.
Proof. apply touched_trans. Qed.

Lemma preserves_read (P : NumState env -> Prop) l : preserves P (read env l).
Proof. intros s HP. unfold read. by destruct (heap s !! l). Qed.

Lemma preserves_read_all (P : NumState env -> Prop) ls : preserves P (read_all env ls).
Proof. intros s HP. rewrite read_all_eq. by destruct (lookup_all _ _). Qed.

Lemma touched_write W s0 l (t : Tensor) : W l -> preserves (touched W s0) (write env l t).
Proof.
  intros HW s Hs. unfold write. case_decide; [|done]. cbn.
  eapply touched_then; [done|].
  split_and!; cbn; [by rewrite length_insert| |done|exists []; by rewrite app_nil_r].
  intros l' Hl'. rewrite list_lookup_insert_ne; [done|]. by intros ->.
Qed.

Lemma touched_set_opt W s0 o : preserves (touched W s0) (modify (set_opt o)).
Proof.
  apply preserves_modify. intros s Hs. eapply touched_then; [done|].
  split_and!; try done. exists []. by rewrite app_nil_r.
Qed.

Lemma touched_randn_like W s0 (x : Tensor) : preserves (touched W s0) (randn_like env x).
Proof.
  intros s Hs. cbn. eapply touched_then; [done|].
  split_and!; try done. exists []. by rewrite app_nil_r.
Qed.

Lemma touched_call_model W s0 r (m : Model) (x t : Tensor) c n :
  (r = Teacher -> grad_mode s0 = false) ->
  preserves (touched W s0) (call_model env r m x t c n).
Proof.
  intros Hr s Hs. unfold call_model. unfold bind at 1. rewrite read_all_eq.
  destruct (lookup_all _ _); [|done]. cbn.
  eapply touched_then; [done|].
  split_and!; try done. eexists. split; [done|].
  apply Forall_singleton. intros ?. cbn in *.
  destruct Hs as (_ & _ & -> & _). auto.
Qed.

Lemma touched_with_no_grad {A} W (body : M (NumState env) A) :
  (forall s0, grad_mode s0 = false -> preserves (touched W s0) body) ->
  forall s0, preserves (touched W s0) (with_no_grad env body).
Proof.
  intros Hbody s0 s Hs. unfold with_no_grad.
  pose proof (Hbody (set_grad_mode false s) eq_refl _ (touched_refl W _)) as Hb.
  destruct (body (set_grad_mode false s)) as [r s']. cbn in *.
  eapply touched_then; [done|].
  destruct Hb as (H1 & H2 & H3 & H4). by split_and!.
Qed.

Lemma touched_update_ema W (target source : Model) d s0 :
  (forall l, l ∈ parameters target -> W l) ->
  preserves (touched W s0) (update_ema env target source d).
Proof.
  intros HW. unfold update_ema. apply touched_with_no_grad. clear s0. intros s0 _.
  apply preserves_for_each. intros [lt ls] Hp.
  assert (W lt) by (eapply HW, elem_of_zip_l, Hp).
  unfold ema_param_update, mul_, add_. cbn.
  repeat (first [apply preserves_bind; [|intros ?] | apply preserves_read
                | by apply touched_write | apply preserves_try ]).
Qed.

End Footprint.

(** ** One distillation step *)

Section StepFacts.
Context {env : Env} (a : Args) (config : Config).
Context (teacher distilled_model ema_model : Model) (negative_prompt : string).
Implicit Types (s : NumState env).

Lemma call_model_eq r (m : Model) (x t : Tensor) c n s :
  call_model env r m x t c n s =
  match lookup_all (heap s) (parameters m) with
  | Some ps => (Ok (forward env (is_training m) ps x t c n),
                set_calls (calls s ++ [(r, grad_mode s, c)]) s)
  | None => (Raise InvalidReference, s)
  end.
Proof.
  unfold call_model. unfold bind at 1. rewrite read_all_eq.
  by destruct (lookup_all _ _).
Qed.

Lemma teacher_target_eq (noise timestep : Tensor) context context_null s :
  teacher_target env a config teacher noise timestep context context_null s =
  match lookup_all (heap s) (parameters teacher) with
  | Some ps =>
      let v_uncond := forward env (is_training teacher) ps noise timestep context_null
                        (seq_len config) in
      let v_cond := forward env (is_training teacher) ps noise timestep context
                      (seq_len config) in
      let s1 := set_calls (calls s ++ [(Teacher, false, context_null);
                                       (Teacher, false, context)]) s in
      match cfg_combine (cfg_scale a) v_uncond v_cond with
      | Some v => (Ok v, s1)
      | None => (Raise RuntimeError, s1)
      end
  | None => (Raise InvalidReference, s)
  end.
Proof.
  unfold teacher_target, with_no_grad. unfold bind at 1. rewrite call_model_eq. cbn.
  destruct (lookup_all (heap s) (parameters teacher)) as [ps|] eqn:HT; [|by destruct s].
  unfold bind at 1. rewrite call_model_eq. cbn. rewrite HT. cbn.
  rewrite <- app_assoc. cbn.
  destruct (cfg_combine _ _ _); by destruct s.
Qed.

Lemma write_all_ok (ls : list loc) (ts : list Tensor) s :
  NoDup ls -> length ls = length ts -> Forall (fun l => l < length (heap s)) ls ->
  exists h',
    for_each (fun p => write env p.1 p.2) (zip ls ts) s = (Ok tt, set_heap h' s)
    /\ length h' = length (heap s)
    /\ lookup_all h' ls = Some ts
    /\ (forall l, l ∉ ls -> h' !! l = heap s !! l).
Proof.
  revert ts s. induction ls as [|l ls IH]; intros [|t ts] s Hnd Hlen Hval; try done.
  - exists (heap s). split_and!; try done. by destruct s.
  - apply NoDup_cons in Hnd as [Hl Hnd]. apply Forall_cons in Hval as [Hlt Hval].
    destruct (IH ts (set_heap (<[l := t]> (heap s)) s)) as (h' & Hrun & Hlen' & Hall & Hframe).
    + done.
    + cbn in Hlen. lia.
    + cbn. by rewrite length_insert.
    + exists h'. split_and!.
      * cbn [zip zip_with for_each]. unfold bind, write. cbn.
        rewrite decide_True by done. apply Hrun.
      * rewrite Hlen'. cbn. by rewrite length_insert.
      * unfold lookup_all in *. cbn. rewrite Hframe by done. cbn.
        rewrite list_lookup_insert_eq by done. cbn. by rewrite Hall.
      * intros l' Hl'. rewrite Hframe.
        -- cbn. rewrite list_lookup_insert_ne; [done|]. intros ->. apply Hl'. left.
        -- intros Hin. apply Hl'. by right.
Qed.

Lemma touched_optimizer_update W (noise timestep : Tensor) context (v_teacher : Tensor) s0 :
  (forall l, l ∈ parameters distilled_model -> W l) ->
  preserves (touched W s0)
    (optimizer_update env config distilled_model noise timestep context v_teacher).
Proof.
  intros HW. unfold optimizer_update.
  apply preserves_bind; [apply preserves_read_all|]. intros ps.
  apply preserves_bind; [apply preserves_gets|]. intros o.
  apply preserves_bind; [|intros _; apply touched_set_opt].
  apply preserves_for_each. intros [l t] Hp.
  apply touched_write. eapply HW, elem_of_zip_l, Hp.
Qed.

(** Whatever its outcome, a distillation step writes no tensor other than
    the parameters of the student and of the EMA module, and its teacher
    passes run without gradient tracking. *)
Lemma touched_distill_step W b s0 :
  (forall l, l ∈ parameters distilled_model -> W l) ->
  (forall l, l ∈ parameters ema_model -> W l) ->
  preserves (touched W s0)
    (distill_step env a config teacher distilled_model ema_model negative_prompt b).
Proof.
  intros HD HE. unfold distill_step.
  apply preserves_bind; [apply touched_randn_like|]. intros noise.
  apply preserves_bind.
  { unfold teacher_target. apply touched_with_no_grad. intros s1 Hg.
    apply preserves_bind; [by apply touched_call_model|]. intros v_uncond.
    apply preserves_bind; [by apply touched_call_model|]. intros v_cond.
    apply preserves_try. }
  intros v_teacher.
  apply preserves_bind; [by apply touched_call_model|]. intros v_student.
  apply preserves_bind; [apply preserves_try|]. intros loss.
  apply preserves_bind; [by apply touched_optimizer_update|]. intros _.
  apply preserves_bind; [by apply touched_update_ema|]. intros _.
  apply preserves_ret.
Qed.

(** A distillation step in a well-formed state succeeds.  The loss is the
    mean squared error between the student's prediction and the guided
    target, the gradients are taken for that target, the student holds the
    parameters computed by the optimiser and the EMA module the mix of its
    previous parameters with those. *)
Lemma distill_step_ok b s (pt ps es : list Tensor) :
  shape_preserving env ->
  lookup_all (heap s) (parameters teacher) = Some pt ->
  NoDup (parameters distilled_model) -> NoDup (parameters ema_model) ->
  (forall l, l ∈ parameters ema_model -> l ∉ parameters distilled_model) ->
  lookup_all (heap s) (parameters distilled_model) = Some ps ->
  lookup_all (heap s) (parameters ema_model) = Some es ->
  Forall2 (fun e p : Tensor => length e = length p) es ps ->
  let noise := step_noise env b s in
  let timestep := step_timestep config b in
  let context := text_encoder env (text_prompts b) in
  let target := guided_target env a config teacher negative_prompt b s pt in
  let grads := backward env (is_training distilled_model) ps noise timestep context
                 (seq_len config) target in
  let r := optimizer_step env (opt s) ps grads in
  exists loss h',
    distill_step env a config teacher distilled_model ema_model negative_prompt b s
    = (Ok loss,
       {| heap := h'; opt := r.1; draws := S (draws s); grad_mode := grad_mode s;
          calls := calls s ++ step_calls env negative_prompt (grad_mode s) b |})
    /\ mse_loss (forward env (is_training distilled_model) ps noise timestep context
                   (seq_len config)) target = Some loss
    /\ length h' = length (heap s)
    /\ lookup_all h' (parameters distilled_model) = Some r.2
    /\ lookup_all h' (parameters ema_model) = Some (zip_with (ema_tensor ema_decay) es r.2)
    /\ (forall l, l ∉ parameters distilled_model -> l ∉ parameters ema_model ->
                  h' !! l = heap s !! l).
Proof.
  intros [Hfw Hopt] Hpt HndD HndE Hdisj HD HE Hshape. cbv zeta.
  unfold distill_step, guided_target, uncond_pred, cond_pred, step_noise, step_timestep,
    step_calls.
  set (context := text_encoder env (text_prompts b)).
  set (context_null := text_encoder env _).
  set (timestep := replicate _ _).
  set (noise := map (randn env (draws s)) (seq 0 (length (samples b)))).
  set (s0 := set_draws (S (draws s)) s).
  rewrite (bind_ok _ _ s noise s0) by done.
  (* teacher *)
  set (v_teacher := zip_with (cfg_formula (cfg_scale a))
         (forward env (is_training teacher) pt noise timestep context_null (seq_len config))
         (forward env (is_training teacher) pt noise timestep context (seq_len config))).
  set (s1 := set_calls (calls s ++ [(Teacher, false, context_null);
                                    (Teacher, false, context)]) s0).
  rewrite (bind_ok _ _ s0 v_teacher s1).
  2:{ rewrite teacher_target_eq. cbn. rewrite Hpt. cbn.
      rewrite cfg_combine_ok by (by rewrite !Hfw). done. }
  (* student *)
  set (v_student := forward env (is_training distilled_model) ps noise timestep context
                      (seq_len config)).
  set (s2 := set_calls (calls s1 ++ [(Student, grad_mode s, context)]) s1).
  rewrite (bind_ok _ _ s1 v_student s2).
  2:{ rewrite call_model_eq. cbn. by rewrite HD. }
  destruct (mse_loss_ok v_student v_teacher) as [loss Hloss].
  { unfold v_student, v_teacher. rewrite Hfw, length_zip_with, !Hfw. lia. }
  rewrite (bind_ok _ _ s2 loss s2) by (by rewrite Hloss).
  (* optimiser *)
  set (grads := backward env (is_training distilled_model) ps noise timestep context
                  (seq_len config) v_teacher).
  set (r := optimizer_step env (opt s) ps grads).
  pose proof (Hopt (opt s) ps grads) as Hr. fold r in Hr.
  pose proof (lookup_all_length _ _ _ HD) as HlenD.
  pose proof (Forall2_length _ _ _ Hr) as Hlenr.
  destruct (write_all_ok (parameters distilled_model) r.2 s2) as (h1 & Hw & Hlen1 & HD1 & Hframe1).
  { done. } { lia. } { cbn. by eapply lookup_all_lt. }
  set (s3 := set_opt r.1 (set_heap h1 s2)).
  rewrite (bind_ok _ _ s2 tt s3).
  2:{ unfold optimizer_update.
      rewrite (bind_ok _ _ s2 ps s2) by (rewrite read_all_eq; cbn; by rewrite HD).
      rewrite (bind_ok _ _ s2 (opt s) s2) by done.
      fold grads. fold r. cbn zeta.
      rewrite (bind_ok _ _ s2 tt (set_heap h1 s2)) by done. done. }
  (* EMA *)
  assert (lookup_all h1 (parameters ema_model) = Some es) as HE1.
  { rewrite <- HE. apply lookup_all_frame. intros l Hl. apply Hframe1. by apply Hdisj. }
  destruct (update_ema_ok ema_decay ema_model distilled_model s3 es r.2)
    as (h2 & Hema & Hlen2 & HE2 & Hframe2); try done.
  { eapply Forall2_trans; [|exact Hshape|exact Hr]. cbn. congruence. }
  rewrite (bind_ok _ _ s3 tt (set_heap h2 s3)) by done.
  exists loss, h2. split_and!.
  - unfold ret. f_equal. unfold s3, s2, s1, s0. cbn. by rewrite <- app_assoc.
  - done.
  - rewrite Hlen2. cbn. by rewrite Hlen1.
  - rewrite <- HD1. apply lookup_all_frame. intros l Hl. apply Hframe2.
    intros HlE. by apply (Hdisj l).
  - done.
  - intros l HlD HlE. rewrite Hframe2 by done. cbn. by rewrite Hframe1.
Qed.

End StepFacts.

(** ** The driver: canonical forms *)

Section DriverFacts.
Context {env : Env} (a : Args) (config : Config).
Context (teacher distilled_model ema_model : Model) (negative_prompt : string).
Implicit Types (s : State env).

Lemma parameters_unwrap (m : Model) : parameters (unwrap_model m) = parameters m.
Proof. by induction m. Qed.

Lemma set_num_id s : set_num (num s) s = s.
Proof. by destruct s. Qed.

(** A checkpoint write followed by its message. *)
Lemma save_ema_eq path msg s :
  (save_ema env ema_model path ;; emit env (EvPrint msg)) s =
  match lookup_all (heap (num s)) (parameters (unwrap_model ema_model)) with
  | Some sd => (Ok tt, set_out (out s ++ [EvSave path sd; EvPrint msg]) s)
  | None => (Raise InvalidReference, s)
  end.
Proof.
  unfold save_ema, numeric, zoom, bind, emit, modify. rewrite read_all_eq.
  destruct (lookup_all _ _); rewrite set_num_id; [|done].
  cbn. by rewrite <- app_assoc.
Qed.

Lemma bind_modify {S B} (f : S -> S) (k : unit -> M S B) (s : S) :
  bind (modify f) k s = k tt (f s).
Proof. done. Qed.

Lemma bind_gets {S A B} (f : S -> A) (k : A -> M S B) (s : S) :
  bind (gets f) k s = k (f s) s.
Proof. done. Qed.

Lemma bind_py_mod {S B} (x y : Z) (k : Z -> M S B) (s : S) :
  bind (py_mod x y) k s =
  if decide (y = 0)%Z then (Raise ZeroDivisionError, s) else k (x mod y)%Z s.
Proof. unfold bind, py_mod. by case_decide. Qed.

Lemma when_emit_eq (b : bool) e s :
  when b (emit env e) s = (Ok tt, set_out (out s ++ if b then [e] else []) s).
Proof. destruct b; [done|]. cbn. unfold ret. rewrite app_nil_r. by destruct s. Qed.

Lemma when_save_eq (b : bool) path msg s :
  when b (save_ema env ema_model path ;; emit env (EvPrint msg)) s =
  if b then
    match lookup_all (heap (num s)) (parameters (unwrap_model ema_model)) with
    | Some sd => (Ok tt, set_out (out s ++ [EvSave path sd; EvPrint msg]) s)
    | None => (Raise InvalidReference, s)
    end
  else (Ok tt, s).
Proof. destruct b; [apply save_ema_eq|done]. Qed.

Lemma train_batch_eq epoch i b s :
  train_batch env a config teacher distilled_model ema_model negative_prompt epoch (i, b) s =
  match distill_step env a config teacher distilled_model ema_model negative_prompt b (num s) with
  | (Raise e, n') => (Raise e, set_num n' s)
  | (Ok loss, n') =>
      let st := S (step s) in
      let tl := (total_loss s + loss)%Qc in
      let s1 := {| num := n'; step := st; total_loss := tl;
                   out := out s ++ progress_events a epoch i st loss tl |} in
      if decide (save_interval a = 0)%Z then (Raise ZeroDivisionError, s1)
      else if (Z.of_nat st mod save_interval a =? 0)%Z && is_main a then
        match lookup_all (heap n') (parameters (unwrap_model ema_model)) with
        | Some sd =>
            (Ok tt,
             set_out (out s1 ++ [EvSave (step_path (output_dir a) st) sd;
                                 EvPrint (MsgSavedStep (step_path (output_dir a) st))]) s1)
        | None => (Raise InvalidReference, s1)
        end
      else (Ok tt, s1)
  end.
Proof.
  unfold train_batch. cbn [fst snd]. unfold bind at 1. unfold numeric, zoom.
  destruct (distill_step _ _ _ _ _ _ _ _ _) as [[loss|e] n']; [|done].
  rewrite !bind_modify, !bind_gets.
  rewrite (bind_ok _ _ _ _ _ (when_emit_eq _ _ _)).
  rewrite (bind_ok _ _ _ _ _ (when_emit_eq _ _ _)).
  rewrite bind_py_mod. case_decide.
  { unfold progress_events, is_main. cbn [out set_out set_step set_total_loss set_num
      num step total_loss]. by rewrite <- app_assoc. }
  rewrite when_save_eq.
  unfold progress_events, is_main.
  cbn [out set_out set_step set_total_loss set_num num step total_loss].
  rewrite <- !app_assoc.
  destruct (_ && is_main_process (accelerator a)); [|done].
  by destruct (lookup_all _ _).
Qed.

Lemma bind_emit {B} e (k : unit -> M (State env) B) s :
  bind (emit env e) k s = k tt (set_out (out s ++ [e]) s).
Proof. done. Qed.

Lemma train_epoch_eq epoch s :
  train_epoch env a config teacher distilled_model ema_model negative_prompt epoch s =
  match for_each
          (train_batch env a config teacher distilled_model ema_model negative_prompt epoch)
          (enumerate (train_dataloader a epoch))
          (set_out (out s ++ [EvPrint (MsgEpoch (epoch + 1) (num_epochs a))]) s) with
  | (Raise e, s1) => (Raise e, s1)
  | (Ok _, s1) =>
      if is_main a then
        match lookup_all (heap (num s1)) (parameters (unwrap_model ema_model)) with
        | Some sd =>
            (Ok tt,
             set_total_loss (Q2Qc 0)
               (set_out
                  (out s1
                   ++ [EvSave (epoch_path (output_dir a) (epoch + 1)) sd;
                       EvPrint (MsgSavedEpoch (epoch_path (output_dir a) (epoch + 1)))])
                  s1))
        | None => (Raise InvalidReference, s1)
        end
      else (Ok tt, set_total_loss (Q2Qc 0) s1)
  end.
Proof.
  unfold train_epoch. rewrite bind_emit. unfold bind at 1.
  destruct (for_each _ _ _) as [[[]|e] s1]; [|done].
  unfold bind at 1. rewrite when_save_eq.
  destruct (is_main a); [|done].
  by destruct (lookup_all _ _).
Qed.

(** The invariant principle of the two nested loops: [J e] holds between
    passes, [I e i] inside pass [e] before batch [i], and [R] is what is
    known of the state when an exception stops the run. *)
Lemma training_loop_invariant
    (J : nat -> State env -> Prop) (I : nat -> nat -> State env -> Prop)
    (R : State env -> Prop) (n : nat) :
  (forall e s, e < n -> J e s ->
     I e 0 (set_out (out s ++ [EvPrint (MsgEpoch (e + 1) (num_epochs a))]) s)) ->
  (forall e i b s, e < n -> train_dataloader a e !! i = Some b -> I e i s ->
     match train_batch env a config teacher distilled_model ema_model negative_prompt
             e (i, b) s with
     | (Ok _, s') => I e (S i) s'
     | (Raise _, s') => R s'
     end) ->
  (forall e s, e < n -> I e (length (train_dataloader a e)) s ->
     if is_main a then
       match lookup_all (heap (num s)) (parameters (unwrap_model ema_model)) with
       | Some sd =>
           J (S e)
             (set_total_loss (Q2Qc 0)
                (set_out (out s ++ [EvSave (epoch_path (output_dir a) (e + 1)) sd;
                                    EvPrint (MsgSavedEpoch (epoch_path (output_dir a) (e + 1)))])
                   s))
       | None => R s
       end
     else J (S e) (set_total_loss (Q2Qc 0) s)) ->
  forall s, J 0 s ->
    match for_each
            (train_epoch env a config teacher distilled_model ema_model negative_prompt)
            (seq 0 n) s with
    | (Ok _, s') => J n s'
    | (Raise _, s') => R s'
    end.
Proof.
  intros Hstart Hbatch Hend s HJ.
  pose proof (for_each_invariant J R
    (train_epoch env a config teacher distilled_model ema_model negative_prompt)
    (seq 0 n)) as Houter.
  rewrite length_seq in Houter. apply Houter; [|done].
  clear s HJ Houter. intros k e s Hk HJ.
  apply lookup_seq in Hk as [-> Hlt]. cbn [Nat.add] in *.
  rewrite train_epoch_eq.
  pose proof (for_each_invariant (I k) R
    (train_batch env a config teacher distilled_model ema_model negative_prompt k)
    (enumerate (train_dataloader a k))) as Hinner.
  unfold enumerate in *. rewrite length_imap in Hinner.
  specialize (Hinner ltac:(
    intros i [j b] s1 Hi HI; rewrite list_lookup_imap in Hi;
    destruct (train_dataloader a k !! i) as [b'|] eqn:Hb; [|done];
    cbn in Hi; injection Hi as <- <-; by apply Hbatch)).
  specialize (Hinner _ (Hstart k s Hlt HJ)).
  destruct (for_each _ (imap _ _) _) as [[[]|ex] s1]; [|done].
  specialize (Hend k s1 Hlt Hinner).
  destruct (is_main a); [|done].
  by destruct (lookup_all _ _).
Qed.

End DriverFacts.

Section RunFacts.
Context {env : Env} (a : Args) (config : Config).
Implicit Types (s : State env).

Lemma from_pretrained_eq dir (n : NumState env) :
  from_pretrained env dir n =
  (Ok (Bare {| params := seq (length (heap n)) (length (pretrained env dir)); training := true |}),
   set_heap (heap n ++ pretrained env dir) n).
Proof. unfold from_pretrained. unfold bind. by rewrite alloc_all_eq. Qed.

Lemma train_eq s :
  train_consistency_distillation env a config s =
  let h0 := heap (num s) in
  match for_each
          (train_epoch env a config (teacher_of a) (student_of env a h0) (ema_of env a h0)
             (or_empty (sample_neg_prompt config)))
          (seq 0 (Z.to_nat (num_epochs a))) (loop_start env a s) with
  | (Raise e, s2) => (Raise e, s2)
  | (Ok _, s2) =>
      if is_main_process (accelerator a) then
        match lookup_all (heap (num s2)) (ema_locs env a h0) with
        | Some sd =>
            (Ok (ema_of env a h0),
             set_out (out s2 ++ [EvSave (final_path (output_dir a)) sd;
                                 EvPrint (MsgSavedFinal (final_path (output_dir a)))]
                             ++ (if use_wandb a then [EvWandbFinish] else [])) s2)
        | None => (Raise InvalidReference, s2)
        end
      else (Ok (ema_of env a h0), s2)
  end.
Proof.
  unfold train_consistency_distillation. cbn zeta.
  rewrite !bind_emit.
  rewrite (bind_ok _ _ _ _ _ (when_emit_eq _ _ _)).
  unfold numeric at 1, zoom. unfold bind at 1. rewrite from_pretrained_eq.
  unfold numeric at 1, zoom. unfold bind at 1. unfold modify at 1.
  unfold numeric at 1, zoom. unfold bind at 1. rewrite from_pretrained_eq.
  rewrite !bind_modify.
  match goal with |- bind (for_each ?f ?l) _ ?s0 = _ =>
    replace s0 with (loop_start env a s) end.
  2:{ unfold loop_start, setup_num, prologue_events. destruct s as [[h o d g c] st tl ou].
      cbn. by rewrite <- !app_assoc. }
  cbn [heap set_heap num set_num set_opt]. rewrite length_app.
  change (pretrained env (checkpoint_dir a)) with (stored_weights env a).
  fold (student_locs env a (heap (num s))). fold (ema_locs env a (heap (num s))).
  fold (student_of env a (heap (num s))). fold (ema_of env a (heap (num s))). fold (teacher_of a).
  unfold bind at 1.
  destruct (for_each _ _ _) as [[[]|e] s2]; [|done].
  unfold bind at 1. rewrite when_save_eq.
  destruct (is_main_process (accelerator a)) eqn:Hmain.
  - cbn [unwrap_model ema_of eval_mode set_training parameters params].
    destruct (lookup_all _ _); [|done].
    unfold bind at 1. rewrite when_emit_eq. rewrite andb_true_r.
    unfold ret. cbn. by rewrite <- app_assoc.
  - unfold bind at 1. rewrite when_emit_eq. rewrite andb_false_r.
    unfold ret. cbn. rewrite app_nil_r. by destruct s2.
Qed.

End RunFacts.

(** ** Invariants of the driver *)

Section DriverInvariants.
Context {env : Env} (a : Args) (config : Config).
Context (teacher distilled_model ema_model : Model) (negative_prompt : string).
Implicit Types (s : State env).

Lemma preserves_numeric {A} (P : NumState env -> Prop) (m : M (NumState env) A) :
  preserves P m -> preserves (fun s => P (num s)) (numeric env m).
Proof.
  intros Hm s HP. unfold numeric, zoom. specialize (Hm _ HP).
  by destruct (m (num s)).
Qed.

Lemma preserves_numeric_out {A} (Q : list Event -> Prop) (m : M (NumState env) A) :
  preserves (fun s => Q (out s)) (numeric env m).
Proof. intros s HQ. unfold numeric, zoom. by destruct (m (num s)). Qed.

Lemma preserves_emit_num (P : NumState env -> Prop) e :
  preserves (fun s => P (num s)) (emit env e).
Proof. by intros s. Qed.

(** The driver adds nothing to the footprint of the distillation steps. *)
Lemma touched_train_epoch W n0 epoch :
  (forall l, l ∈ parameters distilled_model -> W l) ->
  (forall l, l ∈ parameters ema_model -> W l) ->
  preserves (fun s => touched W n0 (num s))
    (train_epoch env a config teacher distilled_model ema_model negative_prompt epoch).
Proof.
  intros HD HE.
  assert (forall path msg,
    preserves (fun s => touched W n0 (num s))
      (save_ema env ema_model path ;; emit env (EvPrint msg))) as Hsave.
  { intros path msg. unfold save_ema.
    repeat first [apply preserves_bind; [|intros ?] | apply preserves_emit_num].
    apply preserves_numeric, preserves_read_all. }
  unfold train_epoch.
  apply preserves_bind; [apply preserves_emit_num|]. intros _.
  apply preserves_bind; [|intros _; apply preserves_bind;
    [apply preserves_when; intros _; apply Hsave|intros _; by apply preserves_modify]].
  apply preserves_for_each. intros [i b] _. unfold train_batch.
  apply preserves_bind.
  { apply (preserves_numeric (touched W n0)). by apply touched_distill_step. }
  intros loss.
  repeat first [ apply Hsave
               | apply preserves_bind; [|intros ?] | apply preserves_gets
               | apply preserves_py_mod
               | apply preserves_modify; by intros
               | apply preserves_when; intros _
               | apply preserves_emit_num ].
Qed.

(** Events that are not side effects, and events emitted by an iteration of
    a secondary process, leave the side effects of the trace as they are. *)
Lemma side_effects_emit_print o0 X msg :
  preserves (side_effects_are o0 X) (emit env (EvPrint msg)).
Proof.
  intros s (new & Hout & Hse). exists (new ++ [EvPrint msg]). cbn.
  rewrite Hout, <- app_assoc. split; [done|].
  unfold side_effects in *. by rewrite filter_app, Hse, app_nil_r.
Qed.

Lemma side_effects_numeric {A} o0 X (m : M (NumState env) A) :
  preserves (side_effects_are o0 X) (numeric env m).
Proof. apply (preserves_numeric_out (fun o => exists new, o = o0 ++ new /\ _)). Qed.

Lemma secondary_train_epoch o0 X epoch :
  is_main a = false ->
  preserves (side_effects_are o0 X)
    (train_epoch env a config teacher distilled_model ema_model negative_prompt epoch).
Proof.
  intros Hmain. unfold train_epoch. rewrite Hmain.
  apply preserves_bind; [apply side_effects_emit_print|]. intros _.
  apply preserves_bind;
    [|intros _; apply preserves_bind; [apply preserves_ret|intros _]].
  2:{ apply preserves_modify. by intros s. }
  apply preserves_for_each. intros [i b] _. unfold train_batch. rewrite Hmain.
  rewrite andb_false_r, andb_false_l.
  apply preserves_bind; [apply side_effects_numeric|]. intros loss.
  repeat first [ apply preserves_bind; [|intros ?] | apply preserves_gets
               | apply preserves_py_mod
               | apply preserves_modify; by intros
               | apply preserves_ret ].
  rewrite andb_false_r. apply preserves_ret.
Qed.

End DriverInvariants.

(** ** A secondary process *)

(** The side effects of a run of a secondary process: the creation of the
    output directory, and nothing else. *)
Lemma secondary_io {env : Env} (a : Args) (config : Config) (s : State env) :
  is_main_process (accelerator a) = false ->
  exists new,
    out (train_consistency_distillation env a config s).2 = out s ++ new
    /\ side_effects new = [EvMakedirs (output_dir a)].
Proof.
  intros Hmain. rewrite train_eq. cbn zeta.
  pose proof (preserves_for_each (side_effects_are (out s) [EvMakedirs (output_dir a)])
    (train_epoch env a config (teacher_of a) (student_of env a (heap (num s)))
       (ema_of env a (heap (num s))) (or_empty (sample_neg_prompt config)))
    (seq 0 (Z.to_nat (num_epochs a)))) as Hloop.
  specialize (Hloop ltac:(intros e _; by apply secondary_train_epoch) (loop_start env a s)).
  rewrite Hmain.
  destruct (for_each _ _ _) as [[[]|e] s2]; cbn [snd] in *; apply Hloop;
    (exists (prologue_events a); split; [done|];
     unfold prologue_events; by rewrite Hmain, andb_false_r).
Qed.

(** ** The modules built by the prologue *)

Section SetupFacts.
Context {env : Env} (a : Args).

Lemma parameters_set_training t (m : Model) : parameters (set_training t m) = parameters m.
Proof. by induction m. Qed.

Lemma parameters_prepare acc (m : Model) : parameters (prepare acc m) = parameters m.
Proof. unfold prepare. by destruct (distributed acc). Qed.

Lemma parameters_teacher_of : parameters (teacher_of a) = parameters (original_model a).
Proof. apply parameters_set_training. Qed.

Lemma parameters_student_of h : parameters (student_of env a h) = student_locs env a h.
Proof.
  unfold student_of, train_mode. by rewrite parameters_set_training, parameters_prepare.
Qed.

Lemma parameters_ema_of h : parameters (ema_of env a h) = ema_locs env a h.
Proof. done. Qed.

Lemma student_locs_fresh h l : l ∈ student_locs env a h -> length h <= l.
Proof. unfold student_locs. rewrite elem_of_seq. lia. Qed.

Lemma ema_locs_fresh h l : l ∈ ema_locs env a h -> length h <= l.
Proof. unfold ema_locs. rewrite elem_of_seq. lia. Qed.

Lemma ema_student_disjoint h l : l ∈ ema_locs env a h -> l ∉ student_locs env a h.
Proof. unfold ema_locs, student_locs. rewrite !elem_of_seq. lia. Qed.

Lemma lookup_all_seq (h ts k : list Tensor) :
  lookup_all (h ++ ts ++ k) (seq (length h) (length ts)) = Some ts.
Proof.
  apply lookup_all_Some, Forall2_same_length_lookup. split; [by rewrite length_seq|].
  intros i l t Hl Ht. apply lookup_seq in Hl as [-> Hlt].
  rewrite lookup_app_r by lia. rewrite lookup_app_l by lia.
  by replace (length h + i - length h) with i by lia.
Qed.

Lemma setup_student h (n : NumState env) :
  heap n = h ->
  lookup_all (heap (setup_num env a n)) (student_locs env a h) = Some (stored_weights env a).
Proof. intros <-. apply lookup_all_seq. Qed.

Lemma setup_ema h (n : NumState env) :
  heap n = h ->
  lookup_all (heap (setup_num env a n)) (ema_locs env a h) = Some (stored_weights env a).
Proof.
  intros <-. unfold ema_locs. cbn. rewrite app_assoc, <- length_app.
  pose proof (lookup_all_seq (heap n ++ stored_weights env a) (stored_weights env a) []) as H.
  by rewrite app_nil_r in H.
Qed.

(** What is unchanged below the locations allocated by the prologue. *)
Lemma touched_above_prefix (h0 rest : list Tensor) (n1 n2 : NumState env) :
  heap n1 = h0 ++ rest ->
  touched (fun l => length h0 <= l) n1 n2 ->
  take (length h0) (heap n2) = h0.
Proof.
  intros Hh (Hlen & Hframe & _). apply list_eq. intros i.
  rewrite lookup_take. case_decide as Hi.
  - rewrite Hframe by lia. rewrite Hh. by rewrite lookup_app_l.
  - symmetry. apply lookup_ge_None. lia.
Qed.

End SetupFacts.

(** ** Positions in the run *)

Section Positions.
Context (a : Args).

Lemma batches_upto_S e :
  batches_upto a (S e) = batches_upto a e ++ train_dataloader a e.
Proof.
  unfold batches_upto. rewrite seq_S, map_app, concat_app. cbn. by rewrite app_nil_r.
Qed.

Lemma batches_before_0 e : batches_before a e 0 = batches_upto a e.
Proof. unfold batches_before. by rewrite take_0, app_nil_r. Qed.

Lemma batches_before_S e i b :
  train_dataloader a e !! i = Some b ->
  batches_before a e (S i) = batches_before a e i ++ [b].
Proof. intros Hb. unfold batches_before. by rewrite (take_S_r _ _ b), app_assoc. Qed.

Lemma batches_before_end e :
  batches_before a e (length (train_dataloader a e)) = batches_upto a (S e).
Proof. unfold batches_before. by rewrite firstn_all, batches_upto_S. Qed.

Lemma batches_upto_prefix e n : e <= n -> batches_upto a e `prefix_of` batches_upto a n.
Proof.
  induction 1 as [|n Hle IH]; [done|].
  rewrite batches_upto_S. by apply prefix_app_r.
Qed.

Lemma batches_before_prefix e i n :
  e < n -> batches_before a e i `prefix_of` batches_upto a n.
Proof.
  intros Hlt. trans (batches_upto a (S e)); [|apply batches_upto_prefix; lia].
  rewrite batches_upto_S. unfold batches_before. apply prefix_app.
  exists (drop i (train_dataloader a e)). by rewrite take_drop.
Qed.

End Positions.

(** ** Shapes *)

Lemma ema_tensor_length d (e x : Tensor) :
  length e = length x -> length (ema_tensor d e x) = length x.
Proof. intros H. unfold ema_tensor. rewrite length_zip_with. lia. Qed.

(** ** Checkpoint names *)

Lemma string_app_cons c (x y : string) : String c x +:+ y = String c (x +:+ y).
Proof. done. Qed.

Lemma string_app_nil (y : string) : "" +:+ y = y.
Proof. done. Qed.

Lemma string_length_app (x y : string) :
  String.length (x +:+ y) = String.length x + String.length y.
Proof. induction x as [|c x IH]; [done|]. rewrite string_app_cons. cbn. by rewrite IH. Qed.

Lemma string_app_inv_tail (x y z : string) : x +:+ z = y +:+ z -> x = y.
Proof.
  revert y. induction x as [|c x IH]; intros [|c' y] H;
    rewrite ?string_app_cons, ?string_app_nil in H.
  - done.
  - apply (f_equal String.length) in H. cbn in H. rewrite string_length_app in H. lia.
  - apply (f_equal String.length) in H. cbn in H. rewrite string_length_app in H. lia.
  - injection H as -> H. f_equal. by apply IH.
Qed.

Lemma step_path_inj d : Inj (=) (=) (step_path d).
Proof.
  intros k k'. unfold step_path. intros H%String.app_inj.
  rewrite !string_app_cons, !string_app_nil in H. simplify_eq.
  apply string_app_inv_tail in H. by apply pretty_nat_inj in H.
Qed.

Lemma epoch_path_inj d : Inj (=) (=) (epoch_path d).
Proof.
  intros k k'. unfold epoch_path. intros H%String.app_inj.
  rewrite !string_app_cons, !string_app_nil in H. simplify_eq.
  apply string_app_inv_tail in H. by apply pretty_nat_inj in H.
Qed.

Lemma step_path_not_epoch d k e : step_path d k <> epoch_path d e.
Proof.
  unfold step_path, epoch_path. intros H%String.app_inj.
  rewrite !string_app_cons, !string_app_nil in H. congruence.
Qed.

Lemma step_path_not_final d k : step_path d k <> final_path d.
Proof.
  unfold step_path, final_path. intros H%String.app_inj.
  rewrite !string_app_cons, !string_app_nil in H. congruence.
Qed.

Lemma epoch_path_not_final d e : epoch_path d e <> final_path d.
Proof.
  unfold epoch_path, final_path. intros H%String.app_inj.
  rewrite !string_app_cons, !string_app_nil in H. congruence.
Qed.

(** ** The checkpoint schedule *)

Lemma saves_app (l1 l2 : list Event) : saves (l1 ++ l2) = saves l1 ++ saves l2.
Proof. induction l1 as [|[] l1 IH]; cbn; by rewrite ?IH. Qed.

Lemma save_paths_app (l1 l2 : list Event) :
  save_paths (l1 ++ l2) = save_paths l1 ++ save_paths l2.
Proof. unfold save_paths. by rewrite saves_app, fmap_app. Qed.

Lemma saves_progress_events a e i st loss tl : saves (progress_events a e i st loss tl) = [].
Proof. unfold progress_events. by repeat case_match. Qed.

Lemma save_paths_progress_events a e i st loss tl :
  save_paths (progress_events a e i st loss tl) = [].
Proof. unfold save_paths. by rewrite saves_progress_events. Qed.

Section Schedule.
Context (a : Args).

Lemma step_saves_between_0 from : step_saves_between a from 0 = [].
Proof. done. Qed.

Lemma step_saves_between_S from i :
  step_saves_between a from (S i)
  = step_saves_between a from i
    ++ (if is_save_step (save_interval a) (S (from + i))
        then [step_path (output_dir a) (S (from + i))] else []).
Proof.
  unfold step_saves_between. rewrite seq_S, filter_app, fmap_app. f_equal.
  rewrite filter_cons, filter_nil. cbn [Nat.add].
  case_decide as H; rewrite ?H; [done|]. by destruct (is_save_step _ _).
Qed.

Lemma step_saves_between_app from i j :
  step_saves_between a from (i + j)
  = step_saves_between a from i ++ step_saves_between a (from + i) j.
Proof.
  unfold step_saves_between. rewrite seq_app, filter_app, fmap_app.
  by replace (S from + i) with (S (from + i)) by lia.
Qed.

Lemma paths_upto_S n : paths_upto a (S n) = paths_upto a n ++ pass_paths a n.
Proof. unfold paths_upto. rewrite seq_S, fmap_app, concat_app. cbn. by rewrite app_nil_r. Qed.

(** Up to the order of the writes, the checkpoints of [n] passes are the
    step checkpoints of the whole range and one checkpoint per pass. *)
Lemma paths_upto_perm n :
  paths_upto a n
  ≡ₚ step_saves_between a 0 (length (batches_upto a n))
     ++ (epoch_path (output_dir a) <$> seq 1 n).
Proof.
  induction n as [|n IH]; [done|].
  rewrite paths_upto_S, IH. unfold pass_paths.
  rewrite batches_upto_S, length_app, step_saves_between_app, seq_S, fmap_app. cbn.
  rewrite <- !app_assoc. apply Permutation_app_head.
  rewrite !app_assoc. apply Permutation_app_tail. apply Permutation_app_comm.
Qed.

Lemma expected_paths_NoDup : NoDup (expected_paths a).
Proof.
  unfold expected_paths. rewrite paths_upto_perm.
  apply NoDup_app. split_and!.
  - apply NoDup_app. split_and!.
    + apply NoDup_fmap_2; [apply step_path_inj|]. apply NoDup_filter, NoDup_seq.
    + intros p (k & -> & _)%list_elem_of_fmap (e & H & _)%list_elem_of_fmap.
      by apply step_path_not_epoch in H.
    + apply NoDup_fmap_2; [apply epoch_path_inj|]. apply NoDup_seq.
  - intros p Hp ->%list_elem_of_singleton.
    apply elem_of_app in Hp as [(k & H & _)%list_elem_of_fmap|(e & H & _)%list_elem_of_fmap].
    + symmetry in H. by apply step_path_not_final in H.
    + symmetry in H. by apply epoch_path_not_final in H.
  - apply NoDup_singleton.
Qed.

End Schedule.

(** ** The checkpoints of a completed run of the primary process *)

Section Cadence.
Context {env : Env} (a : Args) (config : Config).

Lemma save_paths_prologue : save_paths (prologue_events a) = [].
Proof. unfold prologue_events. by case_match. Qed.

Lemma save_paths_of_run (s : State env) :
  is_main_process (accelerator a) = true ->
  match train_consistency_distillation env a config s with
  | (Ok _, s') =>
      step s' = length (all_batches a)
      /\ save_paths (out s') = save_paths (out s) ++ expected_paths a
  | (Raise _, _) => True
  end.
Proof.
  intros Hmain. rewrite train_eq. cbv zeta.
  set (h0 := heap (num s)). set (neg := or_empty (sample_neg_prompt config)).
  set (Tm := teacher_of a). set (Dm := student_of env a h0). set (Em := ema_of env a h0).
  set (base := save_paths (out s)).
  pose proof (training_loop_invariant a config Tm Dm Em neg
    (fun e (s1 : State env) => step s1 = length (batches_upto a e)
                 /\ save_paths (out s1) = base ++ paths_upto a e)
    (fun e i (s1 : State env) => step s1 = length (batches_upto a e) + i
                   /\ save_paths (out s1)
                      = base ++ paths_upto a e
                        ++ step_saves_between a (length (batches_upto a e)) i)
    (fun _ => True) (Z.to_nat (num_epochs a))) as Hloop.
  cbv beta in Hloop.
  assert (match for_each (train_epoch env a config Tm Dm Em neg)
                  (seq 0 (Z.to_nat (num_epochs a))) (loop_start env a s) with
          | (Ok _, s') =>
              step s' = length (batches_upto a (Z.to_nat (num_epochs a)))
              /\ save_paths (out s') = base ++ paths_upto a (Z.to_nat (num_epochs a))
          | (Raise _, _) => True
          end) as Hres.
  { apply Hloop; clear Hloop.
    - intros e s1 _ [Hstep Hp]. cbn [out step set_out]. split; [lia|].
      by rewrite save_paths_app, Hp, step_saves_between_0, !app_nil_r.
    - intros e i b s1 _ Hb [Hstep Hp]. rewrite train_batch_eq.
      destruct (distill_step _ _ _ _ _ _ _ _ _) as [[loss|ex] n']; [|done].
      cbv zeta. case_decide; [done|].
      unfold is_main. rewrite Hmain, andb_true_r.
      cbn [out step num set_out].
      pose proof (step_saves_between_S a (length (batches_upto a e)) i) as HS.
      replace (S (length (batches_upto a e) + i)) with (S (step s1)) in HS by lia.
      change (Z.of_nat (S (step s1)) mod save_interval a =? 0)%Z
        with (is_save_step (save_interval a) (S (step s1))).
      destruct (is_save_step (save_interval a) (S (step s1))).
      + destruct (lookup_all _ _); [|done]. cbn [out step set_out]. split; [lia|].
        rewrite !save_paths_app, Hp, HS, save_paths_progress_events, app_nil_r.
        by rewrite <- !app_assoc.
      + cbn [out step]. split; [lia|].
        by rewrite save_paths_app, Hp, HS, save_paths_progress_events, !app_nil_r.
    - intros e s1 _ [Hstep Hp]. unfold is_main. rewrite Hmain.
      destruct (lookup_all _ _); [|done]. cbn [out step set_out set_total_loss].
      split.
      + rewrite batches_upto_S, length_app. lia.
      + rewrite save_paths_app, Hp, paths_upto_S. unfold pass_paths.
        rewrite Nat.add_1_r. by rewrite <- !app_assoc.
    - split; [done|]. cbn [out loop_start]. unfold paths_upto. cbn [seq fmap list_fmap concat].
      by rewrite save_paths_app, save_paths_prologue. }
  destruct (for_each _ _ _) as [[[]|ex] s2]; [|done].
  destruct Hres as [Hstep Hp]. rewrite Hmain.
  destruct (lookup_all _ _); [|done]. cbn [out step set_out].
  split; [done|].
  rewrite save_paths_app, Hp. unfold expected_paths.
  rewrite <- app_assoc. do 2 f_equal. by destruct (use_wandb a).
Qed.

End Cadence.

(** ** What the checkpoints hold *)

Section Contents.
Context {env : Env} (a : Args) (config : Config) (s : State env).

Lemma saved_by_run_same (o o' : list Event) :
  saved_by_run env a config s o -> saves o' = saves o -> saved_by_run env a config s o'.
Proof. intros (new & Ho & Hok) Heq. exists new. by rewrite Heq. Qed.

Lemma saved_by_run_add (o o' : list Event) pc :
  saved_by_run env a config s o -> saves o' = saves o ++ [pc] ->
  checkpoint_of_run env a config s pc -> saved_by_run env a config s o'.
Proof.
  intros (new & Ho & Hok) Heq Hpc. exists (new ++ [pc]).
  rewrite Heq, Ho, <- app_assoc. split; [done|]. apply Forall_app. by split; [|constructor].
Qed.

Lemma saves_prologue : saves (prologue_events a) = [].
Proof. unfold prologue_events. by case_match. Qed.

Lemma num_run_snoc h0 (bs : list Batch) b (n0 n n' : NumState env) loss :
  num_run env a config h0 bs n0 = (Ok tt, n) ->
  distill_step env a config (teacher_of a) (student_of env a h0) (ema_of env a h0)
    (or_empty (sample_neg_prompt config)) b n = (Ok loss, n') ->
  num_run env a config h0 (bs ++ [b]) n0 = (Ok tt, n').
Proof.
  intros Hbs Hb. unfold num_run in *. rewrite (for_each_app _ _ _ _ _ Hbs).
  cbn [for_each]. unfold bind. by rewrite Hb.
Qed.

(** Whatever the outcome of the run, every checkpoint written holds the EMA
    parameters reached after a prefix of the batches, under the name that
    corresponds to the length of this prefix. *)
Lemma saves_of_run :
  saved_by_run env a config s (out (train_consistency_distillation env a config s).2).
Proof.
  rewrite train_eq. cbv zeta.
  set (h0 := heap (num s)). set (neg := or_empty (sample_neg_prompt config)).
  set (Tm := teacher_of a). set (Dm := student_of env a h0). set (Em := ema_of env a h0).
  set (n1 := setup_num env a (num s)). set (N := Z.to_nat (num_epochs a)).
  set (Inv := fun (bs : list Batch) (s1 : State env) =>
    num_run env a config h0 bs n1 = (Ok tt, num s1)
    /\ step s1 = length bs
    /\ saved_by_run env a config s (out s1)).
  pose proof (training_loop_invariant a config Tm Dm Em neg
    (fun e => Inv (batches_upto a e)) (fun e i => Inv (batches_before a e i))
    (fun s1 => saved_by_run env a config s (out s1)) N) as Hloop.
  cbv beta in Hloop.
  assert (match for_each (train_epoch env a config Tm Dm Em neg) (seq 0 N)
                  (loop_start env a s) with
          | (Ok _, s') => Inv (batches_upto a N) s'
          | (Raise _, s') => saved_by_run env a config s (out s')
          end) as Hres.
  { apply Hloop; clear Hloop.
    - intros e s1 _ (Hnum & Hstep & Hsaved). rewrite batches_before_0.
      split_and!; [done..|]. eapply saved_by_run_same; [exact Hsaved|].
      cbn [out set_out]. by rewrite saves_app, app_nil_r.
    - intros e i b s1 He Hb (Hnum & Hstep & Hsaved). rewrite train_batch_eq.
      destruct (distill_step _ _ _ _ _ _ _ _ _) as [[loss|ex] n'] eqn:Hd; [|done].
      cbv zeta.
      pose proof (num_run_snoc h0 _ b n1 _ n' loss Hnum Hd) as Hnum'.
      rewrite <- (batches_before_S a e i b Hb) in Hnum'.
      assert (S (step s1) = length (batches_before a e (S i))) as Hstep'.
      { rewrite (batches_before_S a e i b Hb), length_app. cbn. lia. }
      assert (saved_by_run env a config s
                (out s1 ++ progress_events a e i (S (step s1)) loss (total_loss s1 + loss)))
        as Hsaved'.
      { eapply saved_by_run_same; [exact Hsaved|].
        by rewrite saves_app, saves_progress_events, app_nil_r. }
      case_decide; [done|].
      destruct (_ && is_main a); [|done].
      destruct (lookup_all _ _) as [sd|] eqn:Hsd; [|done].
      split_and!; [done..|]. cbn [out set_out].
      eapply saved_by_run_add; [exact Hsaved'| |].
      + rewrite saves_app. done.
      + exists (batches_before a e (S i)), n'. split_and!.
        * by apply batches_before_prefix.
        * done.
        * done.
        * left. cbn. by rewrite Hstep'.
    - intros e s1 He (Hnum & Hstep & Hsaved). rewrite batches_before_end in Hnum, Hstep.
      destruct (is_main a); [|done].
      destruct (lookup_all _ _) as [sd|] eqn:Hsd; [|done].
      split_and!; [done..|]. cbn [out set_out set_total_loss].
      eapply saved_by_run_add; [exact Hsaved| |].
      + rewrite saves_app. done.
      + exists (batches_upto a (S e)), (num s1). split_and!.
        * apply batches_upto_prefix. lia.
        * done.
        * done.
        * right. left. exists e. by rewrite Nat.add_1_r.
    - split_and!; [done..|]. exists []. cbn [out loop_start].
      by rewrite saves_app, saves_prologue. }
  destruct (for_each _ _ _) as [[[]|ex] s2]; [|done].
  destruct Hres as (Hnum & Hstep & Hsaved).
  destruct (is_main_process (accelerator a)); [|done].
  destruct (lookup_all _ _) as [sd|] eqn:Hsd; [|done]. cbn [snd out set_out].
  eapply saved_by_run_add; [exact Hsaved| |].
  - rewrite saves_app. cbn. by destruct (use_wandb a).
  - exists (all_batches a), (num s2). split_and!; [done..|]. right. by right.
Qed.

End Contents.

(** ** Configuration resolution *)

Section ConfigMergeFacts.
Import ConfigMerge.
Implicit Types (d : namespace) (cfg : list (string * option pyval)).

Lemma merge_entry_keep d kv k v :
  d !! k = Some (Some v) -> merge_entry d kv !! k = Some (Some v).
Proof.
  intros Hk. unfold merge_entry.
  destruct (d !! kv.1) as [[w|]|] eqn:Hkv; [done| |];
    (rewrite lookup_insert_ne; [done|]; intros Heq; rewrite Heq in Hkv; congruence).
Qed.

Lemma merge_config_keep cfg d k v :
  d !! k = Some (Some v) -> merge_config d cfg !! k = Some (Some v).
Proof.
  revert d. induction cfg as [|kv cfg IH]; intros d Hk; [done|].
  cbn. apply IH. by apply merge_entry_keep.
Qed.

Lemma merge_entry_other d kv k : kv.1 <> k -> merge_entry d kv !! k = d !! k.
Proof.
  intros Hne. unfold merge_entry.
  destruct (d !! kv.1) as [[w|]|]; [done| |]; by rewrite lookup_insert_ne.
Qed.

Lemma merge_config_other cfg d k : k ∉ cfg.*1 -> merge_config d cfg !! k = d !! k.
Proof.
  revert d. induction cfg as [|kv cfg IH]; intros d Hk; [done|].
  cbn in *. apply not_elem_of_cons in Hk as [Hne Hk].
  rewrite IH by done. by apply merge_entry_other.
Qed.

Lemma merge_config_fill cfg d k v :
  NoDup cfg.*1 -> (k, v) ∈ cfg -> d !! k = None \/ d !! k = Some None ->
  merge_config d cfg !! k = Some v.
Proof.
  revert d. induction cfg as [|[k' v'] cfg IH]; intros d Hnd Hin Hd.
  - by apply elem_of_nil in Hin.
  - cbn in Hnd. apply NoDup_cons in Hnd as [Hnot Hnd].
    apply elem_of_cons in Hin as [Heq|Hin].
    + injection Heq as <- <-. cbn. rewrite merge_config_other by done.
      unfold merge_entry. cbn. destruct Hd as [-> | ->]; by rewrite lookup_insert_eq.
    + cbn. apply IH; [done..|].
      rewrite merge_entry_other; [done|]. cbn. intros ->. apply Hnot.
      apply list_elem_of_fmap. by exists (k, v).
Qed.

Lemma parse_args_lookup cli args k (dflt : option pyval) :
  parse_args cli = Some args ->
  (k, dflt) ∈ ("checkpoint_dir", None) :: arg_defaults ->
  args !! k = Some (match cli !! k with Some v => Some v | None => dflt end).
Proof.
  unfold parse_args. case_decide; [|done]. intros [= <-] Hin.
  unfold parsed_namespace. apply elem_of_list_to_map_1.
  - rewrite <- list_fmap_compose.
    assert (NoDup (("checkpoint_dir", None : option pyval) :: arg_defaults).*1) as Hnd
      by compute_done.
    exact Hnd.
  - apply list_elem_of_fmap. by exists (k, dflt).
Qed.

Lemma parse_args_undeclared cli args k :
  parse_args cli = Some args -> k ∉ declared -> args !! k = None.
Proof.
  unfold parse_args. case_decide; [|done]. intros [= <-] Hk.
  unfold parsed_namespace. apply not_elem_of_list_to_map_1. by rewrite <- list_fmap_compose.
Qed.

Lemma parse_args_explicit cli args k v :
  parse_args cli = Some args -> cli !! k = Some v -> args !! k = Some (Some v).
Proof.
  intros Hp Hk. pose proof Hp as Hp'. unfold parse_args in Hp'.
  case_decide as Hd; [|done]. destruct Hd as [Hall _].
  assert (k ∈ (("checkpoint_dir", None : option pyval) :: arg_defaults).*1) as Hdecl
    by exact (Hall k v Hk).
  apply list_elem_of_fmap in Hdecl as ([k' dflt] & Hkeq & Hin). cbn in Hkeq. subst k.
  rewrite (parse_args_lookup cli args _ dflt Hp Hin). by rewrite Hk.
Qed.

End ConfigMergeFacts.

Lemma example_parse :
  ConfigMerge.parse_args ConfigMerge.example_cli
  = Some (ConfigMerge.parsed_namespace ConfigMerge.example_cli).
Proof.
  unfold ConfigMerge.parse_args. case_decide as H; [reflexivity|].
  exfalso. apply H. split; [|by eexists].
  apply map_Forall_singleton. left.
Qed.

(** ** The concrete environment keeps shapes *)

Lemma outcome_of_run {A B} (p : A * B) (x : A) : p.1 = x -> p = (x, p.2).
Proof. destruct p. cbn. by intros ->. Qed.

Lemma toy_shape_preserving w : shape_preserving (Toy.toy_env w).
Proof.
  split.
  - intros tr ps x t c n. cbn. unfold Toy.toy_forward. by rewrite length_map.
  - intros o ps gs. cbn. induction ps as [|p ps IH]; constructor; [|done].
    by rewrite length_map.
Qed.

(** ** Loops that may raise *)

Lemma for_each_outcome {S A} (I : nat -> S -> Prop) (R : exn -> S -> Prop)
    (f : A -> M S unit) (l : list A) :
  (forall i x s, l !! i = Some x -> I i s ->
     match f x s with
     | (Ok _, s') => I (Datatypes.S i) s'
     | (Raise e, s') => R e s'
     end) ->
  forall s, I 0 s ->
    match for_each f l s with
    | (Ok _, s') => I (length l) s'
    | (Raise e, s') => R e s'
    end.
Proof.
  revert I. induction l as [|x l IH]; intros I Hbody s HI; [done|].
  cbn [for_each]. unfold bind.
  pose proof (Hbody 0 x s eq_refl HI) as Hx.
  destruct (f x s) as [[[]|e] s1]; [|done].
  apply (IH (fun i => I (Datatypes.S i))); [|done].
  intros i y s2 Hy. apply (Hbody (Datatypes.S i)). done.
Qed.

Lemma for_each_app_raise {S A} (f : A -> M S unit) (l1 l2 : list A) s e s1 :
  for_each f l1 s = (Raise e, s1) -> for_each f (l1 ++ l2) s = (Raise e, s1).
Proof.
  revert s. induction l1 as [|x l1 IH]; intros s; cbn; [done|].
  unfold bind. destruct (f x s) as [[[]|e'] s']; [apply IH|done].
Qed.

Section LoopOutcome.
Context {env : Env} (a : Args) (config : Config).
Context (teacher distilled_model ema_model : Model) (negative_prompt : string).

(** The invariant principle of the two nested loops, with the exception
    that stops the run. *)
Lemma training_loop_outcome
    (J : nat -> State env -> Prop) (I : nat -> nat -> State env -> Prop)
    (R : exn -> State env -> Prop) (n : nat) :
  (forall e s, e < n -> J e s ->
     I e 0 (set_out (out s ++ [EvPrint (MsgEpoch (e + 1) (num_epochs a))]) s)) ->
  (forall e i b s, e < n -> train_dataloader a e !! i = Some b -> I e i s ->
     match train_batch env a config teacher distilled_model ema_model negative_prompt
             e (i, b) s with
     | (Ok _, s') => I e (S i) s'
     | (Raise ex, s') => R ex s'
     end) ->
  (forall e s, e < n -> I e (length (train_dataloader a e)) s ->
     if is_main a then
       match lookup_all (heap (num s)) (parameters (unwrap_model ema_model)) with
       | Some sd =>
           J (S e)
             (set_total_loss (Q2Qc 0)
                (set_out (out s ++ [EvSave (epoch_path (output_dir a) (e + 1)) sd;
                                    EvPrint (MsgSavedEpoch (epoch_path (output_dir a) (e + 1)))])
                   s))
       | None => R InvalidReference s
       end
     else J (S e) (set_total_loss (Q2Qc 0) s)) ->
  forall s, J 0 s ->
    match for_each
            (train_epoch env a config teacher distilled_model ema_model negative_prompt)
            (seq 0 n) s with
    | (Ok _, s') => J n s'
    | (Raise ex, s') => R ex s'
    end.
Proof.
  intros Hstart Hbatch Hend s HJ.
  pose proof (for_each_outcome J R
    (train_epoch env a config teacher distilled_model ema_model negative_prompt)
    (seq 0 n)) as Houter.
  rewrite length_seq in Houter. apply Houter; [|done].
  clear s HJ Houter. intros k e s Hk HJ.
  apply lookup_seq in Hk as [-> Hlt]. cbn [Nat.add] in *.
  rewrite train_epoch_eq.
  pose proof (for_each_outcome (I k) R
    (train_batch env a config teacher distilled_model ema_model negative_prompt k)
    (enumerate (train_dataloader a k))) as Hinner.
  unfold enumerate in *. rewrite length_imap in Hinner.
  assert (forall i x s1, imap pair (train_dataloader a k) !! i = Some x -> I k i s1 ->
            match train_batch env a config teacher distilled_model ema_model negative_prompt
                    k x s1 with
            | (Ok _, s') => I k (S i) s'
            | (Raise ex, s') => R ex s'
            end) as Hb.
  { intros i [j b] s1 Hi HI. rewrite list_lookup_imap in Hi.
    destruct (train_dataloader a k !! i) as [b'|] eqn:Hb; [|done].
    cbn in Hi. injection Hi as <- <-. by apply Hbatch. }
  specialize (Hinner Hb _ (Hstart k s Hlt HJ)).
  destruct (for_each _ (imap _ _) _) as [[[]|ex] s1]; [|done].
  specialize (Hend k s1 Hlt Hinner).
  destruct (is_main a); [|done].
  by destruct (lookup_all _ _).
Qed.

End LoopOutcome.

(** ** Positions in the run, continued *)

Lemma elem_of_batches_upto (a : Args) e n i b :
  e < n -> train_dataloader a e !! i = Some b -> b ∈ batches_upto a n.
Proof.
  intros Hlt Hb.
  destruct (batches_upto_prefix a (S e) n ltac:(lia)) as [k ->].
  rewrite batches_upto_S. apply elem_of_app. left. apply elem_of_app. right.
  by eapply list_elem_of_lookup_2.
Qed.

Lemma batches_split (a : Args) e n i b :
  e < n -> train_dataloader a e !! i = Some b ->
  exists rest, batches_upto a n = batches_before a e i ++ b :: rest.
Proof.
  intros Hlt Hb.
  destruct (batches_upto_prefix a (S e) n ltac:(lia)) as [k ->].
  rewrite batches_upto_S. unfold batches_before.
  exists (drop (S i) (train_dataloader a e) ++ k).
  rewrite <- (take_drop_middle _ _ _ Hb) at 1. by rewrite <- !app_assoc.
Qed.

Lemma saves_epoch_seq (d : string) (W : list Tensor) e :
  (fun k => (epoch_path d k, W)) <$> seq 1 (S e)
  = ((fun k => (epoch_path d k, W)) <$> seq 1 e) ++ [(epoch_path d (e + 1), W)].
Proof. rewrite seq_S, fmap_app. cbn. by rewrite Nat.add_1_r. Qed.

(** ** The iterations without their reports *)

Section CoreFacts.
Context {env : Env} (a : Args) (config : Config).

Lemma distill_step_length teacher student ema_model neg b (n : NumState env) :
  length (heap (distill_step env a config teacher student ema_model neg b n).2)
  = length (heap n).
Proof.
  pose proof (touched_distill_step a config teacher student ema_model neg
                (fun _ => True) b n ltac:(done) ltac:(done) n (touched_refl _ _)) as Ht.
  by destruct Ht as [Hlen _].
Qed.

Lemma ema_locs_allocated (n : NumState env) (h : list Tensor) :
  length h = length (heap (setup_num env a n)) ->
  is_Some (lookup_all h (ema_locs env a (heap n))).
Proof.
  intros Hlen. destruct (lookup_all_valid h (ema_locs env a (heap n))) as [ts Hts]; [|by exists ts].
  apply Forall_forall. intros l Hl. unfold ema_locs in Hl. apply elem_of_seq in Hl.
  rewrite Hlen. cbn. rewrite !length_app. unfold stored_weights in *. lia.
Qed.

(** The outcome of a run, the numerical state and the step counter it
    reaches are those of the iterations alone. *)
Lemma train_core (s : State env) :
  let r := train_consistency_distillation env a config s in
  core_run env a config (heap (num s)) (all_batches a) (setup_num env a (num s), 0)
  = (outcome_kind r.1, (num r.2, step r.2))
  /\ forall m, r.1 = Ok m -> m = ema_of env a (heap (num s)).
Proof.
  cbv zeta. rewrite train_eq. cbv zeta.
  set (h0 := heap (num s)). set (neg := or_empty (sample_neg_prompt config)).
  set (Tm := teacher_of a). set (Dm := student_of env a h0). set (Em := ema_of env a h0).
  set (n1 := setup_num env a (num s)). set (N := Z.to_nat (num_epochs a)).
  set (Inv := fun (bs : list Batch) (s1 : State env) =>
    core_run env a config h0 bs (n1, 0) = (Ok tt, (num s1, step s1))
    /\ length (heap (num s1)) = length (heap n1)).
  set (R := fun (ex : exn) (s1 : State env) =>
    core_run env a config h0 (all_batches a) (n1, 0) = (Raise ex, (num s1, step s1))).
  pose proof (training_loop_outcome a config Tm Dm Em neg
    (fun e => Inv (batches_upto a e)) (fun e i => Inv (batches_before a e i)) R N) as Hloop.
  cbv beta in Hloop.
  assert (match for_each (train_epoch env a config Tm Dm Em neg) (seq 0 N)
                  (loop_start env a s) with
          | (Ok _, s') => Inv (batches_upto a N) s'
          | (Raise ex, s') => R ex s'
          end) as Hres.
  { apply Hloop; clear Hloop.
    - intros e s1 _ HJ. by rewrite batches_before_0.
    - intros e i b s1 He Hb [Hcore Hlen]. rewrite train_batch_eq.
      destruct (batches_split a e N i b He Hb) as [rest Hsplit].
      pose proof (distill_step_length Tm Dm Em neg b (num s1)) as Hlen'.
      assert (core_batch env a config h0 b (num s1, step s1)
              = match distill_step env a config Tm Dm Em neg b (num s1) with
                | (Raise e, n') => (Raise e, (n', step s1))
                | (Ok _, n') =>
                    if decide (save_interval a = 0)%Z
                    then (Raise ZeroDivisionError, (n', S (step s1)))
                    else (Ok tt, (n', S (step s1)))
                end) as Hcb by done.
      destruct (distill_step _ _ _ _ _ _ _ _ _) as [[loss|ex] n'] eqn:Hd; cbn [snd] in Hlen'.
      + cbv zeta. case_decide as Hsi.
        * unfold R, all_batches. fold N. rewrite Hsplit.
          unfold core_run in *. rewrite (for_each_app _ _ _ _ _ Hcore).
          cbn [for_each]. unfold bind. by rewrite Hcb.
        * assert (Inv (batches_before a e (S i))
                    {| num := n'; step := S (step s1); total_loss := total_loss s1 + loss;
                       out := out s1 ++ progress_events a e i (S (step s1)) loss
                                          (total_loss s1 + loss) |}) as HI.
          { split; [|cbn; by rewrite Hlen', Hlen]. rewrite (batches_before_S a e i b Hb).
            unfold core_run in *. rewrite (for_each_app _ _ _ _ _ Hcore).
            cbn [for_each]. unfold bind. by rewrite Hcb. }
          destruct (_ && is_main a); [|done].
          destruct (ema_locs_allocated (num s) (heap n')) as [sd Hsd]; [by rewrite Hlen', Hlen|].
          rewrite parameters_unwrap. change (parameters Em) with (ema_locs env a h0).
          fold h0 in Hsd. rewrite Hsd. done.
      + unfold R, all_batches. fold N. rewrite Hsplit.
        unfold core_run in *. rewrite (for_each_app _ _ _ _ _ Hcore).
        cbn [for_each]. unfold bind. rewrite Hcb. by destruct s1.
    - intros e s1 _ [Hcore Hlen]. rewrite batches_before_end in Hcore.
      destruct (is_main a); [|done].
      destruct (ema_locs_allocated (num s) (heap (num s1))) as [sd Hsd]; [done|].
      rewrite parameters_unwrap. change (parameters Em) with (ema_locs env a h0).
      fold h0 in Hsd. rewrite Hsd. done.
    - done. }
  destruct (for_each _ _ _) as [[[]|ex] s2].
  - destruct Hres as [Hcore Hlen].
    destruct (is_main_process (accelerator a)).
    + destruct (ema_locs_allocated (num s) (heap (num s2))) as [sd Hsd]; [done|].
      fold h0 in Hsd. rewrite Hsd. cbn. split; [done|]. by intros m [= <-].
    + cbn. split; [done|]. by intros m [= <-].
  - cbn. split; [done|]. by intros m [=].
Qed.

End CoreFacts.

(** ** The recurrence computed by the loop *)

Lemma is_training_set_training t (m : Model) : is_training (set_training t m) = t.
Proof. by induction m. Qed.

Lemma ema_tensor_shapes d (es ps ps' : list Tensor) :
  Forall2 (fun e p : Tensor => length e = length p) es ps ->
  Forall2 (fun p p' : Tensor => length p = length p') ps ps' ->
  Forall2 (fun e p : Tensor => length e = length p) (zip_with (ema_tensor d) es ps') ps'.
Proof.
  intros Hshape Hr.
  assert (Forall2 (fun e p' : Tensor => length e = length p') es ps') as Hep.
  { eapply Forall2_trans; [|exact Hshape|exact Hr]. cbn. congruence. }
  clear -Hep. induction Hep; constructor; [by apply ema_tensor_length|done].
Qed.

Section RecurrenceFacts.
Context {env : Env} (a : Args) (config : Config).

Lemma core_run_num h0 (bs : list Batch) (n n' : NumState env) k k' :
  core_run env a config h0 bs (n, k) = (Ok tt, (n', k')) ->
  num_run env a config h0 bs n = (Ok tt, n').
Proof.
  revert n k. induction bs as [|b bs IH]; intros n k.
  - unfold core_run, num_run. cbn. unfold ret. by intros [= <- <-].
  - unfold core_run, num_run in *. cbn [for_each].
    unfold bind at 1. unfold core_batch at 1. cbn [fst snd].
    unfold bind at 1. unfold bind at 1.
    destruct (distill_step _ _ _ _ _ _ _ _ _) as [[loss|ex] n1]; [|done].
    case_decide; [done|]. intros Hrest. unfold ret. by apply (IH n1 (S k)).
Qed.

(** The distillation steps over a sequence of batches compute the
    recurrence. *)
Lemma num_run_recurrence h0 (pt : list Tensor) (bs : list Batch) (n : NumState env)
    (w : Weights env) :
  shape_preserving env ->
  length h0 <= length (heap n) ->
  Forall (fun l => l < length h0) (parameters (original_model a)) ->
  lookup_all (heap n) (parameters (original_model a)) = Some pt ->
  holds_weights env a h0 n w ->
  Forall2 (fun e p : Tensor => length e = length p) (w_ema w) (w_student w) ->
  exists n',
    num_run env a config h0 bs n = (Ok tt, n')
    /\ holds_weights env a h0 n' (recurrence env a config pt w bs).
Proof.
  intros Hsh. revert n w. induction bs as [|b bs IH]; intros n w Hlen HT Hpt Hw Hshape.
  { exists n. by split. }
  destruct Hw as (HD & HE & Hopt & Hdraws).
  destruct (distill_step_ok a config (teacher_of a) (student_of env a h0) (ema_of env a h0)
              (or_empty (sample_neg_prompt config)) b n pt (w_student w) (w_ema w))
    as (loss & h' & Hrun & _ & Hlen' & HD' & HE' & Hframe).
  { done. }
  { by rewrite parameters_teacher_of. }
  { rewrite parameters_student_of. apply NoDup_seq. }
  { rewrite parameters_ema_of. apply NoDup_seq. }
  { intros l. rewrite parameters_student_of, parameters_ema_of. apply ema_student_disjoint. }
  { by rewrite parameters_student_of. }
  { by rewrite parameters_ema_of. }
  { done. }
  cbv zeta in Hrun, HD', HE'.
  unfold guided_target, uncond_pred, cond_pred, step_noise, step_timestep in Hrun, HD', HE'.
  unfold teacher_of, student_of, eval_mode, train_mode in Hrun, HD', HE'.
  rewrite !is_training_set_training in Hrun, HD', HE'.
  fold (eval_mode (original_model a)) in Hrun, HD', HE'. fold (teacher_of a) in Hrun, HD', HE'.
  fold (train_mode (prepare (accelerator a)
          (Bare {| params := student_locs env a h0; training := true |}))) in Hrun, HD', HE'.
  fold (student_of env a h0) in Hrun, HD', HE'.
  rewrite Hopt, Hdraws in Hrun, HD', HE'.
  rewrite parameters_student_of in HD'. rewrite parameters_ema_of in HE'.
  match type of Hrun with _ = (_, ?s1) => set (n1 := s1) in * end.
  destruct (IH n1 (recurrence_step env a config pt w b)) as (n' & Hrest & Hw').
  - cbn. lia.
  - done.
  - rewrite <- Hpt. apply lookup_all_frame. intros l Hl. cbn.
    rewrite Forall_forall in HT. specialize (HT l Hl).
    apply Hframe.
    + rewrite parameters_student_of. intros Hin%student_locs_fresh. lia.
    + rewrite parameters_ema_of. intros Hin%ema_locs_fresh. lia.
  - split_and!; cbn; [exact HD'|exact HE'|done|done].
  - cbn [w_ema w_student recurrence_step].
    destruct Hsh as [_ Hstep].
    eapply ema_tensor_shapes; [exact Hshape|apply Hstep].
  - exists n'. split; [|exact Hw'].
    unfold num_run in *. cbn [for_each]. unfold bind at 1. unfold bind at 1.
    rewrite Hrun. cbn. exact Hrest.
Qed.

End RecurrenceFacts.

Section RecurrenceRun.
Context {env : Env} (a : Args) (config : Config).

Lemma recurrence_start (s : State env) (pt : list Tensor) (bs : list Batch) :
  shape_preserving env ->
  lookup_all (heap (num s)) (parameters (original_model a)) = Some pt ->
  exists n',
    num_run env a config (heap (num s)) bs (setup_num env a (num s)) = (Ok tt, n')
    /\ holds_weights env a (heap (num s)) n'
         (recurrence env a config pt (initial_weights env a (num s)) bs).
Proof.
  intros Hsh Hpt.
  apply (num_run_recurrence a config (heap (num s)) pt bs); try done.
  - cbn. rewrite length_app. lia.
  - by eapply lookup_all_lt.
  - rewrite <- Hpt. apply lookup_all_frame. intros l Hl. cbn.
    apply lookup_app_l. apply lookup_all_lt in Hpt. rewrite Forall_forall in Hpt. auto.
  - split_and!; [by apply setup_student|by apply setup_ema|done|done].
  - cbn. induction (stored_weights env a); by constructor.
Qed.

End RecurrenceRun.

(** ** The call log *)

Section CallLog.
Context {env : Env}.
Implicit Types (s : NumState env) (c : list (Role * bool * Ctx env)).





End CallLog.

Section StepCalls.
Context {env : Env} (a : Args) (config : Config).
Context (teacher distilled_model ema_model : Model) (negative_prompt : string).


End StepCalls.

Section RunCalls.
Context {env : Env} (a : Args) (config : Config).


End RunCalls.

(** * The claims *)

(** C1.  The teacher's training target (lines 129-147) is the
    classifier-free-guidance combination of its two predictions: when the
    teacher's parameters are allocated and its unconditional and conditional
    predictions [u], [c] have the same shape, [teacher_target] returns the
    tensor whose [i]-th element is [u_i + cfg_scale * (c_i - u_i)], having
    run exactly the two teacher passes.  For the scalars uncond = 1.0,
    cond = 3.0, cfg_scale = 7.5 the combination is 16.0, over the rationals
    and over binary64 floats. *)
Theorem teacher_target_is_cfg {env : Env} (a : Args) (config : Config) (teacher : Model)
    (noise timestep : Tensor) (context context_null : Ctx env) (s : NumState env)
    (pt : list Tensor) :
  lookup_all (heap s) (parameters teacher) = Some pt ->
  length (forward env (is_training teacher) pt noise timestep context_null (seq_len config))
  = length (forward env (is_training teacher) pt noise timestep context (seq_len config)) ->
  (exists target,
     teacher_target env a config teacher noise timestep context context_null s
     = (Ok target,
        set_calls (calls s ++ [(Teacher, false, context_null); (Teacher, false, context)]) s)
     /\ length target
        = length (forward env (is_training teacher) pt noise timestep context_null
                    (seq_len config))
     /\ forall i (ui ci : Qc),
          forward env (is_training teacher) pt noise timestep context_null (seq_len config)
            !! i = Some ui ->
          forward env (is_training teacher) pt noise timestep context (seq_len config)
            !! i = Some ci ->
          target !! i = Some (ui + cfg_scale a * (ci - ui))%Qc)
  /\ cfg_combine (Q2Qc (75 # 10)) [Q2Qc 1] [Q2Qc 3] = Some [Q2Qc 16]
  /\ cfg_combine_float 7.5%float 1%float 3%float = 16%float.
Proof.
  intros Hpt Hlen. split; [|split; [by vm_compute|reflexivity]].
  eexists. split_and!.
  - rewrite teacher_target_eq, Hpt. cbn zeta. by rewrite cfg_combine_ok.
  - rewrite length_zip_with. lia.
  - intros i ui ci Hu Hc. apply lookup_zip_with_Some. by exists ui, ci.
Qed.

Lemma teacher_target_is_cfg_witness :
  (exists target,
     teacher_target (Toy.toy_env Toy.toy_weights) (Toy.toy_args true 1 1 350 false)
       Toy.toy_config (Bare {| params := [0]; training := false |})
       [Q2Qc 1; Q2Qc 2] [Q2Qc 1000] ["a cat"] [""] (num (Toy.toy_state Toy.toy_weights))
     = (Ok target,
        set_calls (calls (num (Toy.toy_state Toy.toy_weights))
                     ++ [(Teacher, false, [""]); (Teacher, false, ["a cat"])])
          (num (Toy.toy_state Toy.toy_weights)))
     /\ length target = 2
     /\ forall i (ui ci : Qc),
          [Q2Qc 4; Q2Qc 5] !! i = Some ui -> [Q2Qc 4; Q2Qc 5] !! i = Some ci ->
          target !! i = Some (ui + Q2Qc (75 # 10) * (ci - ui))%Qc)
  /\ cfg_combine (Q2Qc (75 # 10)) [Q2Qc 1] [Q2Qc 3] = Some [Q2Qc 16]
  /\ cfg_combine_float 7.5%float 1%float 3%float = 16%float.
Proof.
  apply (teacher_target_is_cfg (env := Toy.toy_env Toy.toy_weights)
           (Toy.toy_args true 1 1 350 false) Toy.toy_config
           (Bare {| params := [0]; training := false |})
           [Q2Qc 1; Q2Qc 2] [Q2Qc 1000] ["a cat"] [""]
           (num (Toy.toy_state Toy.toy_weights)) [[Q2Qc 3]]);
    reflexivity.
Defined.

(** C2.  One EMA update (lines 105-108) on two modules whose parameters are
    distinct tensors of pairwise equal shapes succeeds, sets every EMA
    parameter elementwise to [d*ema_old + (1-d)*student], and leaves every
    other tensor, in particular every student parameter, as it was.  This
    holds for every decay [d], hence for every [d] in (0,1). *)
Theorem update_ema_elementwise {env : Env} (d : Qc) (ema_model student : Model)
    (s : NumState env) (es xs : list Tensor) :
  NoDup (parameters ema_model) ->
  (forall l, l ∈ parameters ema_model -> l ∉ parameters student) ->
  lookup_all (heap s) (parameters ema_model) = Some es ->
  lookup_all (heap s) (parameters student) = Some xs ->
  Forall2 (fun e x : Tensor => length e = length x) es xs ->
  exists s',
    update_ema env ema_model student d s = (Ok tt, s')
    /\ lookup_all (heap s') (parameters ema_model)
       = Some (zip_with (zip_with (fun ema_old x => d * ema_old + (1 - d) * x)%Qc) es xs)
    /\ lookup_all (heap s') (parameters student) = Some xs
    /\ (forall l, l ∉ parameters ema_model -> heap s' !! l = heap s !! l)
    /\ length (heap s') = length (heap s)
    /\ opt s' = opt s /\ draws s' = draws s /\ grad_mode s' = grad_mode s
    /\ calls s' = calls s.
Proof.
  intros Hnd Hdisj Hes Hxs Hshape.
  destruct (update_ema_ok d ema_model student s es xs) as (h' & Hrun & Hlen & Hval & Hframe);
    try done.
  exists (set_heap h' s). split_and!; try done.
  rewrite <- Hxs. apply lookup_all_frame. intros l Hl. apply Hframe.
  intros Hl'. by apply (Hdisj l).
Qed.

Lemma update_ema_elementwise_witness :
  exists s',
    update_ema (Toy.toy_env Toy.toy_weights)
      (Bare {| params := [2]; training := false |})
      (Bare {| params := [1]; training := true |}) (Q2Qc (1 # 4))
      (Build_NumState (Toy.toy_env Toy.toy_weights)
         [[Q2Qc 3]; [Q2Qc 8; Q2Qc 12]; [Q2Qc 4; Q2Qc 0]] 0 0 true [])
    = (Ok tt, s')
    /\ lookup_all (heap s') [2]
       = Some (zip_with (zip_with (fun ema_old x => Q2Qc (1 # 4) * ema_old
                                                    + (1 - Q2Qc (1 # 4)) * x)%Qc)
                 [[Q2Qc 4; Q2Qc 0]] [[Q2Qc 8; Q2Qc 12]])
    /\ lookup_all (heap s') [1] = Some [[Q2Qc 8; Q2Qc 12]]
    /\ (forall l, l ∉ [2] -> heap s' !! l
                             = [[Q2Qc 3]; [Q2Qc 8; Q2Qc 12]; [Q2Qc 4; Q2Qc 0]] !! l)
    /\ length (heap s') = 3
    /\ opt s' = 0 /\ draws s' = 0 /\ grad_mode s' = true /\ calls s' = [].
Proof.
  apply (update_ema_elementwise (env := Toy.toy_env Toy.toy_weights) (Q2Qc (1 # 4))
           (Bare {| params := [2]; training := false |})
           (Bare {| params := [1]; training := true |})
           (Build_NumState (Toy.toy_env Toy.toy_weights)
              [[Q2Qc 3]; [Q2Qc 8; Q2Qc 12]; [Q2Qc 4; Q2Qc 0]] 0 0 true [])
           [[Q2Qc 4; Q2Qc 0]] [[Q2Qc 8; Q2Qc 12]]).
  - apply NoDup_singleton.
  - intros l Hl Hl'. cbn in Hl, Hl'.
    apply list_elem_of_singleton in Hl. apply list_elem_of_singleton in Hl'. lia.
  - reflexivity.
  - reflexivity.
  - repeat constructor.
Defined.

(** C3, as stated, fails: a secondary process does create the output
    directory.  Line 57 calls [os.makedirs] before any test of
    [is_main_process]. *)
Lemma secondary_creates_directory :
  is_main_process (accelerator (Toy.toy_args false 1 1 350 true)) = false
  /\ side_effects (out (Toy.toy_run Toy.toy_weights false 1 1 350 true).2)
     = [EvMakedirs "out"]
  /\ side_effects (out (Toy.toy_run Toy.toy_weights false 1 1 350 true).2) <> [].
Proof. split; [reflexivity|]. split; [by vm_compute|by vm_compute]. Qed.

(** C3, amended.  In every run of a secondary process, whatever its outcome,
    no metrics event is emitted and no checkpoint file is written; apart
    from the creation of the output directory the run has no effect on the
    file system or the network. *)
Theorem secondary_no_metrics_no_checkpoints {env : Env} (a : Args) (config : Config)
    (s : State env) :
  is_main_process (accelerator a) = false ->
  exists new,
    out (train_consistency_distillation env a config s).2 = out s ++ new
    /\ Forall (fun e => is_metrics e = false /\ is_save e = false
                        /\ (is_side_effect e = true -> e = EvMakedirs (output_dir a)))
         new.
Proof.
  intros Hmain. destruct (secondary_io a config s Hmain) as (new & Hout & Hse).
  exists new. split; [done|]. apply Forall_forall. intros e He.
  destruct (is_side_effect e) eqn:Hio.
  - assert (e ∈ side_effects new) as Hin by (by apply list_elem_of_filter).
    rewrite Hse in Hin. apply list_elem_of_singleton in Hin as ->. done.
  - by destruct e.
Qed.

Lemma secondary_no_metrics_no_checkpoints_witness :
  exists new,
    out (Toy.toy_run Toy.toy_weights false 2 3 2 true).2
    = out (Toy.toy_state Toy.toy_weights) ++ new
    /\ Forall (fun e => is_metrics e = false /\ is_save e = false
                        /\ (is_side_effect e = true -> e = EvMakedirs "out"))
         new.
Proof.
  apply (secondary_no_metrics_no_checkpoints (env := Toy.toy_env Toy.toy_weights)
           (Toy.toy_args false 2 3 2 true) Toy.toy_config (Toy.toy_state Toy.toy_weights)).
  reflexivity.
Defined.

(** C4.  On the process that writes checkpoints (the primary one), with
    [save_interval = 350], a completed run whose step counter reaches 1000
    writes exactly: the two step checkpoints of steps 350 and 700, one epoch
    checkpoint for each pass [1 .. num_epochs], and one final checkpoint;
    all these files are distinct. *)
Theorem checkpoint_cadence_1000 {env : Env} (a : Args) (config : Config) (s : State env)
    (m : Model) (s' : State env) :
  is_main_process (accelerator a) = true ->
  save_interval a = 350%Z ->
  train_consistency_distillation env a config s = (Ok m, s') ->
  step s' = 1000 ->
  exists new,
    save_paths (out s') = save_paths (out s) ++ new
    /\ new ≡ₚ [step_path (output_dir a) 350; step_path (output_dir a) 700]
              ++ (epoch_path (output_dir a) <$> seq 1 (Z.to_nat (num_epochs a)))
              ++ [final_path (output_dir a)]
    /\ NoDup new.
Proof.
  intros Hmain Hsi Hrun Hsteps.
  pose proof (save_paths_of_run a config s Hmain) as H. rewrite Hrun in H.
  destruct H as [Hstep Hp]. exists (expected_paths a).
  split; [done|]. split; [|apply expected_paths_NoDup].
  unfold expected_paths. rewrite paths_upto_perm.
  fold (all_batches a). rewrite <- Hstep, Hsteps.
  unfold step_saves_between. rewrite Hsi.
  assert (filter (fun k => is_save_step 350 k = true) (seq 1 1000) = [350; 700]) as ->
    by (vm_compute; reflexivity).
  by rewrite <- app_assoc.
Qed.

Lemma checkpoint_cadence_1000_witness :
  exists new,
    save_paths (out (Toy.toy_run Toy.zero_weights true 4 250 350 false).2)
    = save_paths (out (Toy.toy_state Toy.zero_weights)) ++ new
    /\ new ≡ₚ [step_path "out" 350; step_path "out" 700]
              ++ (epoch_path "out" <$> seq 1 4) ++ [final_path "out"]
    /\ NoDup new.
Proof.
  apply (checkpoint_cadence_1000 (env := Toy.toy_env Toy.zero_weights)
           (Toy.toy_args true 4 250 350 false) Toy.toy_config
           (Toy.toy_state Toy.zero_weights)
           (Bare {| params := [2]; training := false |})
           (Toy.toy_run Toy.zero_weights true 4 250 350 false).2).
  - reflexivity.
  - reflexivity.
  - apply outcome_of_run. vm_compute. reflexivity.
  - vm_compute. reflexivity.
Defined.

(** C5, as stated, fails in its second half: an option omitted on the
    command line whose declared default is not [None] keeps that default,
    although the configuration file provides a value for it.  Here
    [num_epochs] is omitted, the file gives 20, and the result is the
    default 10. *)
Lemma omitted_argument_keeps_default :
  ConfigMerge.example_cli !! "num_epochs" = None
  /\ ConfigMerge.example_file "./config.yaml" = Some ConfigMerge.example_config
  /\ ("num_epochs", Some (ConfigMerge.VInt 20)) ∈ ConfigMerge.example_config
  /\ (ConfigMerge.resolve ConfigMerge.example_file ConfigMerge.example_cli
        ≫= (fun ns => ns !! "num_epochs")) = Some (Some (ConfigMerge.VInt 10))
  /\ (ConfigMerge.resolve ConfigMerge.example_file ConfigMerge.example_cli
        ≫= (fun ns => ns !! "num_epochs")) <> Some (Some (ConfigMerge.VInt 20)).
Proof.
  split; [by vm_compute|]. split; [reflexivity|]. split; [left|].
  split; [by vm_compute|]. by vm_compute.
Qed.

(** C5, amended.  In configuration resolution a value passed on the command
    line is never overwritten by the configuration file; an omitted option
    whose declared default is not [None] keeps that default, whatever the
    file says; and the file's value is used for every key that the parsed
    arguments lack or hold as [None], which for an omitted option is the
    case of [wandb_run_name] and of the keys that are not options. *)
Theorem config_file_fills_only_unset
    (load : string -> option (list (string * option ConfigMerge.pyval)))
    (cli : gmap string ConfigMerge.pyval) (args ns : ConfigMerge.namespace) :
  ConfigMerge.parse_args cli = Some args ->
  ConfigMerge.resolve load cli = Some ns ->
  (forall k v, cli !! k = Some v -> ns !! k = Some (Some v))
  /\ (forall k dflt, cli !! k = None -> (k, Some dflt) ∈ ConfigMerge.arg_defaults ->
        ns !! k = Some (Some dflt))
  /\ (forall p cfg k v,
        args !! "config_file" = Some (Some (ConfigMerge.VStr p)) -> p <> "" ->
        load p = Some cfg -> NoDup cfg.*1 -> (k, v) ∈ cfg ->
        args !! k = None \/ args !! k = Some None ->
        ns !! k = Some v)
  /\ (cli !! "wandb_run_name" = None -> args !! "wandb_run_name" = Some None)
  /\ (forall k, k ∉ ConfigMerge.declared -> args !! k = None).
Proof.
  intros Hparse Hres. unfold ConfigMerge.resolve in Hres. rewrite Hparse in Hres.
  assert (forall k v, args !! k = Some (Some v) -> ns !! k = Some (Some v)) as Hkeep.
  { intros k v Hk.
    destruct (args !! "config_file") as [[[p| | |]|]|]; try congruence.
    case_decide; [congruence|].
    destruct (load p) as [cfg|]; [|congruence].
    injection Hres as <-. by apply merge_config_keep. }
  split_and!.
  - intros k v Hk. apply Hkeep. by eapply parse_args_explicit.
  - intros k dflt Hk Hin. apply Hkeep.
    rewrite (parse_args_lookup cli args k (Some dflt) Hparse) by (by right).
    by rewrite Hk.
  - intros p cfg k v Hcf Hp Hload Hnd Hin Hunset.
    rewrite Hcf in Hres. rewrite decide_False in Hres by done. rewrite Hload in Hres.
    injection Hres as <-. by apply merge_config_fill.
  - intros Hk.
    rewrite (parse_args_lookup cli args "wandb_run_name" None Hparse) by set_solver.
    by rewrite Hk.
  - intros k Hk. by eapply parse_args_undeclared.
Qed.

Lemma config_file_fills_only_unset_witness :
  ConfigMerge.merge_config (ConfigMerge.parsed_namespace ConfigMerge.example_cli)
    ConfigMerge.example_config !! "checkpoint_dir"
  = Some (Some (ConfigMerge.VStr "ckpt"))
  /\ ConfigMerge.merge_config (ConfigMerge.parsed_namespace ConfigMerge.example_cli)
       ConfigMerge.example_config !! "num_epochs"
     = Some (Some (ConfigMerge.VInt 10))
  /\ ConfigMerge.merge_config (ConfigMerge.parsed_namespace ConfigMerge.example_cli)
       ConfigMerge.example_config !! "wandb_run_name"
     = Some (Some (ConfigMerge.VStr "run-1"))
  /\ ConfigMerge.merge_config (ConfigMerge.parsed_namespace ConfigMerge.example_cli)
       ConfigMerge.example_config !! "seed"
     = Some (Some (ConfigMerge.VInt 7)).
Proof.
  destruct (config_file_fills_only_unset ConfigMerge.example_file ConfigMerge.example_cli
              (ConfigMerge.parsed_namespace ConfigMerge.example_cli)
              (ConfigMerge.merge_config (ConfigMerge.parsed_namespace ConfigMerge.example_cli)
                 ConfigMerge.example_config))
    as (Hcli & Hdefault & Hfile & Hrun_name & Hother).
  - apply example_parse.
  - unfold ConfigMerge.resolve. rewrite example_parse.
    replace (ConfigMerge.parsed_namespace ConfigMerge.example_cli !! "config_file")
      with (Some (Some (ConfigMerge.VStr "./config.yaml"))) by (vm_compute; reflexivity).
    reflexivity.
  - split; [apply Hcli; vm_compute; reflexivity|].
    split; [apply Hdefault; [vm_compute; reflexivity|]|].
    { do 2 right. left. }
    split.
    + apply (Hfile "./config.yaml" ConfigMerge.example_config "wandb_run_name").
      * vm_compute. reflexivity.
      * discriminate.
      * vm_compute. reflexivity.
      * compute_done.
      * right. left.
      * right. apply Hrun_name. vm_compute. reflexivity.
    + apply (Hfile "./config.yaml" ConfigMerge.example_config "seed").
      * vm_compute. reflexivity.
      * discriminate.
      * vm_compute. reflexivity.
      * compute_done.
      * do 2 right. left.
      * left. apply Hother. compute_done.
Defined.

(** C6.  The run never writes the teacher's parameters: whatever the
    outcome, every tensor that existed before the call (the teacher's
    parameters among them) holds the same value at the end, and every
    teacher forward pass that the run added to the call log ran with
    gradient tracking disabled. *)
Theorem teacher_never_mutated {env : Env} (a : Args) (config : Config) (s : State env) :
  let s' := (train_consistency_distillation env a config s).2 in
  take (length (heap (num s))) (heap (num s')) = heap (num s)
  /\ (exists new, calls (num s') = calls (num s) ++ new /\ Forall teacher_no_grad new)
  /\ (Forall (fun l => l < length (heap (num s))) (parameters (original_model a)) ->
      lookup_all (heap (num s')) (parameters (original_model a))
      = lookup_all (heap (num s)) (parameters (original_model a))).
Proof.
  set (h0 := heap (num s)). set (W := fun l => length h0 <= l).
  assert (touched W (setup_num env a (num s))
            (num (train_consistency_distillation env a config s).2)) as Ht.
  { rewrite train_eq. cbn zeta. fold h0.
    pose proof (preserves_for_each
      (fun s2 : State env => touched W (setup_num env a (num s)) (num s2))
      (train_epoch env a config (teacher_of a) (student_of env a h0) (ema_of env a h0)
         (or_empty (sample_neg_prompt config)))
      (seq 0 (Z.to_nat (num_epochs a)))) as Hloop.
    specialize (Hloop ltac:(
      intros e _; apply touched_train_epoch; intros l;
      [rewrite parameters_student_of; apply student_locs_fresh
      |rewrite parameters_ema_of; apply ema_locs_fresh]) (loop_start env a s)
      (touched_refl _ _)).
    destruct (for_each _ _ _) as [[[]|e] s2]; cbn [snd] in *; [|done].
    destruct (is_main_process (accelerator a)); [|done].
    by destruct (lookup_all _ _). }
  cbn zeta. split_and!.
  - apply (touched_above_prefix h0 (stored_weights env a ++ stored_weights env a)
             (setup_num env a (num s))); [done|exact Ht].
  - by destruct Ht as (_ & _ & _ & Hc).
  - intros Hval. apply lookup_all_frame. intros l Hl.
    rewrite Forall_forall in Hval. specialize (Hval l Hl).
    destruct Ht as (_ & Hframe & _). rewrite Hframe by (unfold W; fold h0 in Hval; lia).
    cbn. by rewrite lookup_app_l.
Qed.

Lemma teacher_never_mutated_witness :
  take 1 (heap (num (Toy.toy_run Toy.toy_weights true 2 3 2 true).2)) = [[Q2Qc 3]]
  /\ (exists new,
        calls (num (Toy.toy_run Toy.toy_weights true 2 3 2 true).2) = [] ++ new
        /\ Forall teacher_no_grad new)
  /\ lookup_all (heap (num (Toy.toy_run Toy.toy_weights true 2 3 2 true).2)) [0]
     = Some [[Q2Qc 3]].
Proof.
  destruct (teacher_never_mutated (env := Toy.toy_env Toy.toy_weights)
              (Toy.toy_args true 2 3 2 true) Toy.toy_config (Toy.toy_state Toy.toy_weights))
    as (H1 & H2 & H3).
  split; [exact H1|]. split; [exact H2|].
  apply H3. repeat constructor.
Defined.

(** C7.  Whatever the outcome of the run, every checkpoint file written is
    named [consistency_model_step_N.pt], [consistency_model_epoch_E.pt] or
    [consistency_model_final.pt] under the output directory, and holds
    exactly the parameters of the EMA module as they are after the
    distillation steps performed so far (a prefix of the batches of the
    run).  These are the tensors allocated for the EMA module, none of which
    is a student parameter; the optimiser state is no tensor of the heap. *)
Theorem checkpoints_hold_ema_parameters {env : Env} (a : Args) (config : Config)
    (s : State env) :
  (exists new,
     saves (out (train_consistency_distillation env a config s).2) = saves (out s) ++ new
     /\ Forall (fun pc =>
                  ((exists N, pc.1 = step_path (output_dir a) N)
                   \/ (exists E, pc.1 = epoch_path (output_dir a) E)
                   \/ pc.1 = final_path (output_dir a))
                  /\ checkpoint_of_run env a config s pc) new)
  /\ (forall l, l ∈ ema_locs env a (heap (num s)) ->
                l ∉ student_locs env a (heap (num s))).
Proof.
  split; [|apply ema_student_disjoint].
  destruct (saves_of_run a config s) as (new & Hnew & Hok).
  exists new. split; [done|].
  eapply Forall_impl; [exact Hok|]. intros pc Hpc. split; [|done].
  destruct Hpc as (bs & n & _ & _ & _ & [H|[(e & H & _)|[H _]]]); eauto.
Qed.

Lemma checkpoints_hold_ema_parameters_witness :
  (exists new,
     saves (out (Toy.toy_run Toy.toy_weights true 1 2 2 false).2)
     = saves (out (Toy.toy_state Toy.toy_weights)) ++ new
     /\ Forall (fun pc =>
                  ((exists N, pc.1 = step_path "out" N)
                   \/ (exists E, pc.1 = epoch_path "out" E)
                   \/ pc.1 = final_path "out")
                  /\ checkpoint_of_run (Toy.toy_env Toy.toy_weights)
                       (Toy.toy_args true 1 2 2 false) Toy.toy_config
                       (Toy.toy_state Toy.toy_weights) pc) new)
  /\ 3 ∉ student_locs (Toy.toy_env Toy.toy_weights) (Toy.toy_args true 1 2 2 false)
          [[Q2Qc 3]].
Proof.
  destruct (checkpoints_hold_ema_parameters (env := Toy.toy_env Toy.toy_weights)
              (Toy.toy_args true 1 2 2 false) Toy.toy_config (Toy.toy_state Toy.toy_weights))
    as [Hsaves Hdisj].
  split; [exact Hsaves|]. apply Hdisj. vm_compute. left.
Defined.

(** The checkpoints of a run of the primary process over one pass of two
    batches with [save_interval = 2]: each file holds the parameters of the
    EMA module at the time of the write (here the last step), and these
    differ from the student's. *)
Example toy_checkpoints :
  let s' := (Toy.toy_run Toy.toy_weights true 1 2 2 false).2 in
  save_paths (out s')
  = ["out/consistency_model_step_2.pt"; "out/consistency_model_epoch_1.pt";
     "out/consistency_model_final.pt"]
  /\ Forall (fun pc => Some pc.2 = lookup_all (heap (num s')) [3; 4]
                       /\ Some pc.2 <> lookup_all (heap (num s')) [1; 2])
       (saves (out s')).
Proof.
  split; [vm_compute; reflexivity|].
  vm_compute. repeat constructor; by intros [=].
Qed.



(** The forward passes of a run over two batches with no negative prompt
    configured. *)
Example toy_calls :
  (Toy.toy_run Toy.toy_weights true 1 2 350 false).1
  = Ok (Bare {| params := [3; 4]; training := false |})
  /\ calls (num (Toy.toy_run Toy.toy_weights true 1 2 350 false).2)
     = [(Teacher, false, [""]); (Teacher, false, ["a cat"]); (Student, true, ["a cat"]);
        (Teacher, false, [""]); (Teacher, false, ["a cat"]); (Student, true, ["a cat"])].
Proof. split; vm_compute; reflexivity. Qed.

(** C9.  In a training iteration the EMA update (line 166) runs after the
    optimiser update (lines 161-163) of the same iteration: when the
    distillation step starts in a state where the student holds [ps] and the
    EMA module [es], it ends in a state where the student holds the
    parameters [ps'] returned by the optimiser step and the EMA module holds
    [ema_decay*es + (1-ema_decay)*ps'], the mix with the post-step student
    parameters [ps'], not with [ps]. *)
Theorem ema_mixes_post_step_student {env : Env} (a : Args) (config : Config)
    (teacher student ema_model : Model) (negative_prompt : string) (b : Batch)
    (s : NumState env) (pt ps es : list Tensor) :
  shape_preserving env ->
  lookup_all (heap s) (parameters teacher) = Some pt ->
  NoDup (parameters student) -> NoDup (parameters ema_model) ->
  (forall l, l ∈ parameters ema_model -> l ∉ parameters student) ->
  lookup_all (heap s) (parameters student) = Some ps ->
  lookup_all (heap s) (parameters ema_model) = Some es ->
  Forall2 (fun e p : Tensor => length e = length p) es ps ->
  let grads :=
    backward env (is_training student) ps (step_noise env b s) (step_timestep config b)
      (text_encoder env (text_prompts b)) (seq_len config)
      (guided_target env a config teacher negative_prompt b s pt) in
  let ps' := (optimizer_step env (opt s) ps grads).2 in
  exists loss s',
    distill_step env a config teacher student ema_model negative_prompt b s = (Ok loss, s')
    /\ lookup_all (heap s') (parameters student) = Some ps'
    /\ lookup_all (heap s') (parameters ema_model)
       = Some (zip_with
                 (zip_with (fun ema_old x => ema_decay * ema_old + (1 - ema_decay) * x)%Qc)
                 es ps').
Proof.
  intros Hsh Hpt HndD HndE Hdisj HD HE Hshape grads ps'.
  destruct (distill_step_ok a config teacher student ema_model negative_prompt b s pt ps es)
    as (loss & h' & Hrun & _ & _ & HD' & HE' & _); try done.
  eexists loss, _. split; [exact Hrun|]. by split.
Qed.

Lemma ema_mixes_post_step_student_witness :
  exists loss s',
    distill_step (Toy.toy_env Toy.toy_weights) (Toy.toy_args true 1 1 350 false)
      Toy.toy_config (Bare {| params := [0]; training := false |})
      (Bare {| params := [1]; training := true |})
      (Bare {| params := [2]; training := false |}) "" Toy.toy_batch
      (Build_NumState (Toy.toy_env Toy.toy_weights)
         [[Q2Qc 3]; [Q2Qc 8; Q2Qc 12]; [Q2Qc 4; Q2Qc 0]] 0 0 true [])
    = (Ok loss, s')
    /\ lookup_all (heap s') [1] = Some [[Q2Qc 8 * Q2Qc (1 # 2); Q2Qc 12 * Q2Qc (1 # 2)]%Qc]
    /\ lookup_all (heap s') [2]
       = Some (zip_with
                 (zip_with (fun ema_old x => ema_decay * ema_old + (1 - ema_decay) * x)%Qc)
                 [[Q2Qc 4; Q2Qc 0]] [[Q2Qc 8 * Q2Qc (1 # 2); Q2Qc 12 * Q2Qc (1 # 2)]%Qc]).
Proof.
  apply (ema_mixes_post_step_student (env := Toy.toy_env Toy.toy_weights)
           (Toy.toy_args true 1 1 350 false) Toy.toy_config
           (Bare {| params := [0]; training := false |})
           (Bare {| params := [1]; training := true |})
           (Bare {| params := [2]; training := false |}) "" Toy.toy_batch
           (Build_NumState (Toy.toy_env Toy.toy_weights)
              [[Q2Qc 3]; [Q2Qc 8; Q2Qc 12]; [Q2Qc 4; Q2Qc 0]] 0 0 true [])
           [[Q2Qc 3]] [[Q2Qc 8; Q2Qc 12]] [[Q2Qc 4; Q2Qc 0]]).
  - apply toy_shape_preserving.
  - reflexivity.
  - apply NoDup_singleton.
  - apply NoDup_singleton.
  - intros l Hl Hl'. cbn in Hl, Hl'.
    apply list_elem_of_singleton in Hl. apply list_elem_of_singleton in Hl'. lia.
  - reflexivity.
  - reflexivity.
  - repeat constructor.
Defined.

(** C10.  Every completed run returns the unwrapped EMA module: the module
    built by the second [WanModel.from_pretrained] of the prologue, put in
    evaluation mode.  Its parameters are the tensors that the EMA update of
    every distillation step writes: the state reached on return is the
    state after the distillation steps of all batches, each of which applies
    [update_ema] to this module; and when the collaborators keep shapes,
    gradient tracking is enabled at the call and the teacher is allocated,
    the parameters of the returned module hold the EMA values of the
    recurrence of the loop, while those of the student hold its last
    iterate.  None of the parameters of the returned module is a parameter
    of the trained student, so the value returned is not the student that
    the docstring announces. *)
Theorem returns_ema_model {env : Env} (a : Args) (config : Config) (s : State env)
    (m : Model) (s' : State env) :
  train_consistency_distillation env a config s = (Ok m, s') ->
  m = unwrap_model (ema_of env a (heap (num s)))
  /\ parameters m = ema_locs env a (heap (num s))
  /\ (forall l, l ∈ parameters m -> l ∉ parameters (student_of env a (heap (num s))))
  /\ (stored_weights env a <> [] -> m <> unwrap_model (student_of env a (heap (num s))))
  /\ num_run env a config (heap (num s)) (all_batches a) (setup_num env a (num s))
     = (Ok tt, num s')
  /\ (forall pt,
        shape_preserving env -> grad_mode (num s) = true ->
        lookup_all (heap (num s)) (parameters (original_model a)) = Some pt ->
        lookup_all (heap (num s')) (parameters m)
        = Some (w_ema (recurrence env a config pt (initial_weights env a (num s))
                         (all_batches a)))
        /\ lookup_all (heap (num s')) (parameters (student_of env a (heap (num s))))
           = Some (w_student (recurrence env a config pt (initial_weights env a (num s))
                                (all_batches a)))).
Proof.
  intros Hrun.
  assert (m = ema_of env a (heap (num s))) as ->.
  { destruct (train_core a config s) as [_ Hm]. cbv zeta in Hm.
    apply Hm. by rewrite Hrun. }
  assert (num_run env a config (heap (num s)) (all_batches a) (setup_num env a (num s))
          = (Ok tt, num s')) as Hnum.
  { destruct (train_core a config s) as [Hcore _]. cbv zeta in Hcore.
    rewrite Hrun in Hcore. cbn [fst snd outcome_kind] in Hcore.
    by apply core_run_num in Hcore. }
  split; [done|]. split; [done|]. split_and!.
  - intros l Hl. rewrite parameters_student_of. by apply ema_student_disjoint.
  - intros Hne Heq. apply (f_equal parameters) in Heq.
    rewrite parameters_unwrap, parameters_student_of, parameters_ema_of in Heq.
    unfold ema_locs, student_locs in Heq.
    destruct (stored_weights env a) as [|w ws]; [done|]. cbn in Heq. injection Heq. lia.
  - done.
  - intros pt Hsh _ Hpt.
    destruct (recurrence_start a config s pt (all_batches a) Hsh Hpt)
      as (n' & Hnum' & (HD & HE & _)).
    rewrite Hnum in Hnum'. injection Hnum' as <-.
    rewrite parameters_student_of, parameters_ema_of. by split.
Qed.

Lemma returns_ema_model_witness :
  Bare {| params := [3; 4]; training := false |}
  = unwrap_model (ema_of (Toy.toy_env Toy.toy_weights) (Toy.toy_args true 2 3 2 true)
                    [[Q2Qc 3]])
  /\ parameters (Bare {| params := [3; 4]; training := false |}) = [3; 4]
  /\ (forall l, l ∈ [3; 4] ->
        l ∉ parameters (student_of (Toy.toy_env Toy.toy_weights)
                          (Toy.toy_args true 2 3 2 true) [[Q2Qc 3]]))
  /\ (Toy.toy_weights <> [] ->
      Bare {| params := [3; 4]; training := false |}
      <> unwrap_model (student_of (Toy.toy_env Toy.toy_weights)
                         (Toy.toy_args true 2 3 2 true) [[Q2Qc 3]]))
  /\ num_run (Toy.toy_env Toy.toy_weights) (Toy.toy_args true 2 3 2 true) Toy.toy_config
       [[Q2Qc 3]] (all_batches (Toy.toy_args true 2 3 2 true))
       (setup_num (Toy.toy_env Toy.toy_weights) (Toy.toy_args true 2 3 2 true)
          (num (Toy.toy_state Toy.toy_weights)))
     = (Ok tt, num (Toy.toy_run Toy.toy_weights true 2 3 2 true).2)
  /\ lookup_all (heap (num (Toy.toy_run Toy.toy_weights true 2 3 2 true).2)) [3; 4]
     = Some (w_ema (recurrence (Toy.toy_env Toy.toy_weights) (Toy.toy_args true 2 3 2 true)
                      Toy.toy_config [[Q2Qc 3]]
                      (initial_weights (Toy.toy_env Toy.toy_weights)
                         (Toy.toy_args true 2 3 2 true)
                         (num (Toy.toy_state Toy.toy_weights)))
                      (all_batches (Toy.toy_args true 2 3 2 true))))
  /\ lookup_all (heap (num (Toy.toy_run Toy.toy_weights true 2 3 2 true).2)) [1; 2]
     = Some (w_student (recurrence (Toy.toy_env Toy.toy_weights)
                          (Toy.toy_args true 2 3 2 true) Toy.toy_config [[Q2Qc 3]]
                          (initial_weights (Toy.toy_env Toy.toy_weights)
                             (Toy.toy_args true 2 3 2 true)
                             (num (Toy.toy_state Toy.toy_weights)))
                          (all_batches (Toy.toy_args true 2 3 2 true)))).
Proof.
  destruct (returns_ema_model (env := Toy.toy_env Toy.toy_weights)
              (Toy.toy_args true 2 3 2 true) Toy.toy_config (Toy.toy_state Toy.toy_weights)
              (Bare {| params := [3; 4]; training := false |})
              (Toy.toy_run Toy.toy_weights true 2 3 2 true).2)
    as (H1 & H2 & H3 & H4 & H5 & H6).
  - apply outcome_of_run. vm_compute. reflexivity.
  - split; [exact H1|]. split; [exact H2|]. split; [exact H3|]. split; [exact H4|].
    split; [exact H5|].
    apply (H6 [[Q2Qc 3]]); [apply toy_shape_preserving|reflexivity|reflexivity].
Defined.

(** The tensors of the returned module are those that the EMA updates of a
    run over two passes of three batches have changed: they did not exist
    before the call, and on return they hold neither the stored weights nor
    the student's parameters. *)
Example toy_returned_model :
  let s' := (Toy.toy_run Toy.toy_weights true 2 3 2 true).2 in
  lookup_all (heap (num s')) [3; 4] <> Some Toy.toy_weights
  /\ lookup_all (heap (num s')) [3; 4] <> lookup_all (heap (num s')) [1; 2]
  /\ lookup_all (heap (num (Toy.toy_state Toy.toy_weights))) [3; 4] = None.
Proof.
  cbv zeta. split_and!; [vm_compute; by intros [=]|vm_compute; by intros [=]|reflexivity].
Qed.

(** * Further properties

    Properties of the code that the claims above do not state.  A property
    of the result of a run is stated for the runs that complete, or for
    every outcome, so that it does not depend on the failures that the
    embedding leaves out. *)

(** ** Runs that stop early, and runs without batches *)

Section EarlyStop.
Context {env : Env} (a : Args) (config : Config).

(** X1.  With [save_interval = 0] no run that has a batch completes, on
    any process: a run completes only if it has no batch.  When an
    exception stops the run after the step counter has been incremented, it
    is the [ZeroDivisionError] of line 187 in the first iteration (the
    division is evaluated before the test of [is_main_process]): the step
    counter is 1 and the first distillation step has been carried out in
    full, student and EMA module updated.  Whatever the outcome, no step
    checkpoint is written. *)
Theorem zero_save_interval_raises (s : State env) :
  save_interval a = 0%Z ->
  let r := train_consistency_distillation env a config s in
  (forall m, r.1 = Ok m -> all_batches a = [])
  /\ (forall ex, r.1 = Raise ex -> step r.2 <> 0 ->
        ex = ZeroDivisionError /\ step r.2 = 1
        /\ exists b bs,
             all_batches a = b :: bs
             /\ num_run env a config (heap (num s)) [b] (setup_num env a (num s))
                = (Ok tt, num r.2))
  /\ exists new,
       save_paths (out r.2) = save_paths (out s) ++ new
       /\ forall k, step_path (output_dir a) k ∉ new.
Proof.
  intros Hsi. cbv zeta. rewrite train_eq. cbv zeta.
  set (h0 := heap (num s)). set (neg := or_empty (sample_neg_prompt config)).
  set (Tm := teacher_of a). set (Dm := student_of env a h0). set (Em := ema_of env a h0).
  set (n1 := setup_num env a (num s)). set (N := Z.to_nat (num_epochs a)).
  set (P := fun (s1 : State env) =>
    exists new, save_paths (out s1) = save_paths (out s) ++ new
                /\ forall k, step_path (output_dir a) k ∉ new).
  set (Inv := fun (e : nat) (s1 : State env) =>
    batches_upto a e = [] /\ num s1 = n1 /\ step s1 = 0 /\ P s1).
  set (R := fun (ex : exn) (s1 : State env) =>
    P s1
    /\ (step s1 <> 0 ->
        ex = ZeroDivisionError /\ step s1 = 1
        /\ exists b bs, all_batches a = b :: bs
                        /\ num_run env a config h0 [b] n1 = (Ok tt, num s1))).
  assert (forall s1 evs, P s1 -> (forall k, step_path (output_dir a) k ∉ save_paths evs) ->
            P (set_out (out s1 ++ evs) s1)) as Hadd.
  { intros s1 evs (new & Hp & Hnew) Hevs. exists (new ++ save_paths evs). cbn [out set_out].
    rewrite save_paths_app, Hp, <- app_assoc. split; [done|].
    intros k [Hk|Hk]%elem_of_app; [by apply (Hnew k)|by apply (Hevs k)]. }
  assert (lookup_all (heap n1) (ema_locs env a h0) = Some (stored_weights env a)) as HE
    by (by apply setup_ema).
  pose proof (training_loop_outcome a config Tm Dm Em neg
    Inv (fun e i s1 => i = 0 /\ Inv e s1) R N) as Hloop.
  cbv beta in Hloop.
  assert (match for_each (train_epoch env a config Tm Dm Em neg) (seq 0 N)
                  (loop_start env a s) with
          | (Ok _, s') => Inv N s'
          | (Raise ex, s') => R ex s'
          end) as Hres.
  { apply Hloop; clear Hloop.
    - intros e s1 _ (Hb & Hn & Hst & HP). split; [done|]. split_and!; [done..|].
      apply Hadd; [done|]. intros k Hk. by apply elem_of_nil in Hk.
    - intros e i b s1 He Hb (-> & Hup & Hn & Hst & HP).
      rewrite train_batch_eq, Hn.
      destruct (distill_step _ _ _ _ _ _ _ _ _) as [[loss|ex] n'] eqn:Hd.
      + cbv zeta. rewrite decide_True by done. split.
        * destruct HP as (new & Hp & Hnew). exists new. cbn [out].
          by rewrite save_paths_app, save_paths_progress_events, app_nil_r.
        * intros _. split; [done|]. split; [cbn; lia|].
          destruct (batches_upto_prefix a (S e) N ltac:(lia)) as [k Hk].
          rewrite batches_upto_S, Hup in Hk. cbn in Hk.
          destruct (train_dataloader a e) as [|b0 tl] eqn:Hdl; [done|].
          cbn in Hb. injection Hb as ->.
          exists b, (tl ++ k). split; [exact Hk|].
          unfold num_run. cbn [for_each]. unfold bind at 1. unfold bind at 1.
          fold Tm Dm Em neg. by rewrite Hd.
      + split; [|cbn; lia]. destruct HP as (new & Hp & Hnew). by exists new.
    - intros e s1 He (Hlen & Hup & Hn & Hst & HP).
      assert (batches_upto a (S e) = []) as Hup'.
      { rewrite batches_upto_S, Hup. cbn. by apply nil_length_inv. }
      unfold is_main. destruct (is_main_process (accelerator a)).
      2:{ split_and!; [done..|]. destruct HP as (new & Hp & Hnew). by exists new. }
      rewrite parameters_unwrap, Hn. change (parameters Em) with (ema_locs env a h0).
      rewrite HE. split_and!; [done..|].
      destruct (Hadd s1 [EvSave (epoch_path (output_dir a) (e + 1)) (stored_weights env a);
                         EvPrint (MsgSavedEpoch (epoch_path (output_dir a) (e + 1)))] HP)
        as (new & Hp & Hnew).
      { intros k Hk. cbn in Hk. apply list_elem_of_singleton in Hk.
        by apply step_path_not_epoch in Hk. }
      by exists new.
    - split_and!; [done..|]. exists []. cbn [out loop_start].
      rewrite save_paths_app, save_paths_prologue. split; [done|].
      intros k Hk. by apply elem_of_nil in Hk. }
  destruct (for_each _ _ _) as [[[]|ex] s2].
  - destruct Hres as (Hall & Hn & Hst & HP).
    destruct (is_main_process (accelerator a)).
    + rewrite Hn, HE. cbn [fst snd step set_out]. split_and!; [done|done|].
      destruct (Hadd s2 ([EvSave (final_path (output_dir a)) (stored_weights env a);
                          EvPrint (MsgSavedFinal (final_path (output_dir a)))]
                         ++ (if use_wandb a then [EvWandbFinish] else [])) HP)
        as (new & Hp & Hnew).
      { intros k Hk. destruct (use_wandb a); cbn in Hk;
          apply list_elem_of_singleton in Hk; by apply step_path_not_final in Hk. }
      by exists new.
    + cbn [fst snd]. split_and!; [done|done|].
      destruct HP as (new & Hp & Hnew). by exists new.
  - destruct Hres as (HP & Hstep). cbn [fst snd]. split_and!; [done| |].
    + intros ex' [= <-] Hne. by apply Hstep.
    + destruct HP as (new & Hp & Hnew). by exists new.
Qed.

End EarlyStop.

Lemma zero_save_interval_raises_witness :
  (forall m, (Toy.toy_run Toy.toy_weights false 2 3 0 false).1 = Ok m ->
             all_batches (Toy.toy_args false 2 3 0 false) = [])
  /\ (forall ex, (Toy.toy_run Toy.toy_weights false 2 3 0 false).1 = Raise ex ->
        step (Toy.toy_run Toy.toy_weights false 2 3 0 false).2 <> 0 ->
        ex = ZeroDivisionError
        /\ step (Toy.toy_run Toy.toy_weights false 2 3 0 false).2 = 1
        /\ exists b bs,
             all_batches (Toy.toy_args false 2 3 0 false) = b :: bs
             /\ num_run (Toy.toy_env Toy.toy_weights) (Toy.toy_args false 2 3 0 false)
                  Toy.toy_config (heap (num (Toy.toy_state Toy.toy_weights))) [b]
                  (setup_num (Toy.toy_env Toy.toy_weights) (Toy.toy_args false 2 3 0 false)
                     (num (Toy.toy_state Toy.toy_weights)))
                = (Ok tt, num (Toy.toy_run Toy.toy_weights false 2 3 0 false).2))
  /\ exists new,
       save_paths (out (Toy.toy_run Toy.toy_weights false 2 3 0 false).2)
       = save_paths (out (Toy.toy_state Toy.toy_weights)) ++ new
       /\ forall k, step_path "out" k ∉ new.
Proof.
  apply (zero_save_interval_raises (env := Toy.toy_env Toy.toy_weights)
           (Toy.toy_args false 2 3 0 false) Toy.toy_config (Toy.toy_state Toy.toy_weights)).
  reflexivity.
Defined.

(** With [save_interval = 0] the run of a secondary process, like that of
    the primary one, stops at the division of its first iteration. *)
Example toy_zero_interval :
  (Toy.toy_run Toy.toy_weights false 2 3 0 false).1 = Raise ZeroDivisionError
  /\ step (Toy.toy_run Toy.toy_weights false 2 3 0 false).2 = 1
  /\ (Toy.toy_run Toy.toy_weights true 2 3 0 false).1 = Raise ZeroDivisionError
  /\ save_paths (out (Toy.toy_run Toy.toy_weights true 2 3 0 false).2) = [].
Proof. split_and!; vm_compute; reflexivity. Qed.

(** Without a batch no iteration runs: the numerical state stays the one
    built by the prologue. *)
Lemma no_batch_run {env : Env} (a : Args) (config : Config) (s : State env) :
  all_batches a = [] ->
  exists s',
    train_consistency_distillation env a config s = (Ok (ema_of env a (heap (num s))), s')
    /\ num s' = setup_num env a (num s)
    /\ step s' = 0
    /\ lookup_all (heap (num s')) (ema_locs env a (heap (num s))) = Some (stored_weights env a)
    /\ saves (out s')
       = saves (out s)
         ++ (if is_main_process (accelerator a)
             then ((fun e => (epoch_path (output_dir a) e, stored_weights env a))
                     <$> seq 1 (Z.to_nat (num_epochs a)))
                  ++ [(final_path (output_dir a), stored_weights env a)]
             else []).
Proof.
  intros Hall. rewrite train_eq. cbv zeta.
  set (h0 := heap (num s)). set (neg := or_empty (sample_neg_prompt config)).
  set (Tm := teacher_of a). set (Dm := student_of env a h0). set (Em := ema_of env a h0).
  set (n1 := setup_num env a (num s)). set (N := Z.to_nat (num_epochs a)).
  set (W := stored_weights env a).
  set (Inv := fun (e : nat) (s1 : State env) =>
    num s1 = n1 /\ step s1 = 0
    /\ saves (out s1)
       = saves (out s)
         ++ (if is_main_process (accelerator a)
             then (fun k => (epoch_path (output_dir a) k, W)) <$> seq 1 e else [])).
  assert (lookup_all (heap n1) (ema_locs env a h0) = Some W) as HE by (by apply setup_ema).
  pose proof (training_loop_invariant a config Tm Dm Em neg
    Inv (fun e _ => Inv e) (fun _ => False) N) as Hloop.
  cbv beta in Hloop.
  assert (match for_each (train_epoch env a config Tm Dm Em neg) (seq 0 N)
                  (loop_start env a s) with
          | (Ok _, s') => Inv N s'
          | (Raise _, _) => False
          end) as Hres.
  { apply Hloop; clear Hloop.
    - intros e s1 _ (Hn & Hst & Hsv). split_and!; [done..|].
      cbn [out set_out]. by rewrite saves_app, app_nil_r.
    - intros e i b s1 He Hb _. exfalso.
      pose proof (elem_of_batches_upto a e N i b He Hb) as Hin.
      change (batches_upto a N) with (all_batches a) in Hin.
      rewrite Hall in Hin. by apply elem_of_nil in Hin.
    - intros e s1 _ (Hn & Hst & Hsv). unfold is_main.
      destruct (is_main_process (accelerator a)); [|done].
      rewrite parameters_unwrap, Hn. change (parameters Em) with (ema_locs env a h0).
      rewrite HE. split_and!; [done..|]. cbn [out set_out set_total_loss].
      rewrite saves_app, Hsv, saves_epoch_seq, <- app_assoc. done.
    - split_and!; [done..|]. cbn [out loop_start].
      rewrite saves_app, saves_prologue. by destruct (is_main_process _). }
  destruct (for_each _ _ _) as [[[]|ex] s2]; [|done].
  destruct Hres as (Hn & Hst & Hsv).
  destruct (is_main_process (accelerator a)).
  - rewrite Hn, HE. eexists. split; [done|]. cbn [num step out set_out].
    split_and!; [done..|by rewrite Hn|].
    rewrite saves_app, Hsv, <- app_assoc. f_equal. f_equal. cbn. by destruct (use_wandb a).
  - eexists. split; [done|]. split_and!; [done..|by rewrite Hn|]. by rewrite Hsv.
Qed.

(** X2.  In a run without a batch ([num_epochs <= 0], or a data loader that
    is empty in every pass) the division of line 187 is never evaluated, so
    that [save_interval = 0] raises nothing; no forward pass is made; and
    every checkpoint written holds the stored weights as they were loaded.
    When the run completes, the step counter is 0, the returned module and
    the student hold the stored weights, and the primary process has written
    one epoch checkpoint for each pass and the final checkpoint, a
    secondary process none. *)
Theorem run_without_batches {env : Env} (a : Args) (config : Config) (s : State env) :
  all_batches a = [] ->
  let r := train_consistency_distillation env a config s in
  r.1 <> Raise ZeroDivisionError
  /\ calls (num r.2) = calls (num s)
  /\ (exists new,
        saves (out r.2) = saves (out s) ++ new
        /\ Forall (fun pc => pc.2 = stored_weights env a) new)
  /\ (forall m s',
        r = (Ok m, s') ->
        step s' = 0
        /\ lookup_all (heap (num s')) (parameters m) = Some (stored_weights env a)
        /\ lookup_all (heap (num s')) (parameters (student_of env a (heap (num s))))
           = Some (stored_weights env a)
        /\ saves (out s')
           = saves (out s)
             ++ (if is_main_process (accelerator a)
                 then ((fun e => (epoch_path (output_dir a) e, stored_weights env a))
                         <$> seq 1 (Z.to_nat (num_epochs a)))
                      ++ [(final_path (output_dir a), stored_weights env a)]
                 else [])).
Proof.
  intros Hall. cbv zeta.
  destruct (no_batch_run a config s Hall) as (s1 & Hrun & Hn & Hst & HE & Hsv).
  rewrite Hrun. cbn [fst snd]. split_and!.
  - done.
  - by rewrite Hn.
  - eexists. split; [exact Hsv|]. destruct (is_main_process (accelerator a)); [|done].
    apply Forall_app. split; [|by constructor].
    apply Forall_fmap, Forall_forall. by intros e _.
  - intros m s' [= <- <-]. split_and!; [done|done| |done].
    rewrite Hn, parameters_student_of. by apply setup_student.
Qed.

Lemma run_without_batches_witness :
  (Toy.toy_run Toy.toy_weights true 3 0 0 true).1 <> Raise ZeroDivisionError
  /\ calls (num (Toy.toy_run Toy.toy_weights true 3 0 0 true).2)
     = calls (num (Toy.toy_state Toy.toy_weights))
  /\ (exists new,
        saves (out (Toy.toy_run Toy.toy_weights true 3 0 0 true).2)
        = saves (out (Toy.toy_state Toy.toy_weights)) ++ new
        /\ Forall (fun pc => pc.2 = Toy.toy_weights) new)
  /\ (forall m s',
        Toy.toy_run Toy.toy_weights true 3 0 0 true = (Ok m, s') ->
        step s' = 0
        /\ lookup_all (heap (num s')) (parameters m) = Some Toy.toy_weights
        /\ lookup_all (heap (num s')) [1; 2] = Some Toy.toy_weights
        /\ saves (out s')
           = [] ++ ((fun e => (epoch_path "out" e, Toy.toy_weights)) <$> [1; 2; 3])
                ++ [(final_path "out", Toy.toy_weights)]).
Proof.
  apply (run_without_batches (env := Toy.toy_env Toy.toy_weights)
           (Toy.toy_args true 3 0 0 true) Toy.toy_config (Toy.toy_state Toy.toy_weights)).
  reflexivity.
Defined.

(** ** The checkpoint schedule for any interval *)

Lemma is_save_step_divide (si : Z) (k : nat) :
  1 <= k -> is_save_step si k = true <-> (si | Z.of_nat k)%Z.
Proof.
  intros Hk. unfold is_save_step. rewrite Z.eqb_eq.
  destruct (decide (si = 0)%Z) as [->|Hsi].
  - rewrite Z.mod_0_r. split; [lia|]. intros H%Z.divide_0_l. lia.
  - by apply Z.mod_divide.
Qed.

Lemma elem_of_step_saves_between (a : Args) from cnt p :
  p ∈ step_saves_between a from cnt
  <-> exists k, p = step_path (output_dir a) k /\ from < k <= from + cnt
                /\ (save_interval a | Z.of_nat k)%Z.
Proof.
  unfold step_saves_between. rewrite list_elem_of_fmap. split.
  - intros (k & -> & Hk). apply list_elem_of_filter in Hk as [Hs Hk].
    apply elem_of_seq in Hk. exists k. split; [done|]. split; [lia|].
    apply is_save_step_divide; [lia|done].
  - intros (k & -> & Hk & Hd). exists k. split; [done|].
    apply list_elem_of_filter. split; [|apply elem_of_seq; lia].
    apply is_save_step_divide; [lia|done].
Qed.

(** X3.  The checkpoints of a completed run of the primary process, for
    every [save_interval]: the files written are pairwise distinct; the
    step checkpoint of step [k] is written exactly when [k] is between 1 and
    the final value of the step counter (the number of batches of the run;
    the counter is not reset between passes) and [save_interval] divides
    [k], so that a negative interval gives the checkpoints of its absolute
    value; there is one epoch checkpoint for each pass; and the final
    checkpoint is the last file written. *)
Theorem checkpoint_schedule {env : Env} (a : Args) (config : Config) (s : State env)
    (m : Model) (s' : State env) :
  is_main_process (accelerator a) = true ->
  train_consistency_distillation env a config s = (Ok m, s') ->
  exists new,
    save_paths (out s') = save_paths (out s) ++ new
    /\ NoDup new
    /\ step s' = length (all_batches a)
    /\ (forall k, step_path (output_dir a) k ∈ new
                  <-> 1 <= k <= step s' /\ (save_interval a | Z.of_nat k)%Z)
    /\ (forall e, epoch_path (output_dir a) e ∈ new <-> 1 <= e <= Z.to_nat (num_epochs a))
    /\ last new = Some (final_path (output_dir a)).
Proof.
  intros Hmain Hrun.
  pose proof (save_paths_of_run a config s Hmain) as H. rewrite Hrun in H.
  destruct H as [Hstep Hp]. exists (expected_paths a).
  split; [done|]. split; [apply expected_paths_NoDup|]. split; [done|].
  assert (expected_paths a
          ≡ₚ step_saves_between a 0 (step s')
             ++ (epoch_path (output_dir a) <$> seq 1 (Z.to_nat (num_epochs a)))
             ++ [final_path (output_dir a)]) as Hperm.
  { unfold expected_paths. rewrite paths_upto_perm, Hstep. by rewrite <- app_assoc. }
  split_and!.
  - intros k. rewrite Hperm, !elem_of_app, elem_of_step_saves_between. split.
    + intros [(k' & Hk & Hr & Hd)|[(e & He & _)%list_elem_of_fmap|Hf%list_elem_of_singleton]].
      * apply step_path_inj in Hk as <-. split; [lia|done].
      * by apply step_path_not_epoch in He.
      * by apply step_path_not_final in Hf.
    + intros [Hr Hd]. left. exists k. split; [done|]. split; [lia|done].
  - intros e. rewrite Hperm, !elem_of_app, elem_of_step_saves_between. split.
    + intros [(k' & Hk & _)|[(e' & He & Hin)%list_elem_of_fmap|Hf%list_elem_of_singleton]].
      * symmetry in Hk. by apply step_path_not_epoch in Hk.
      * apply epoch_path_inj in He as <-. apply elem_of_seq in Hin. lia.
      * by apply epoch_path_not_final in Hf.
    + intros Hr. right. left. apply list_elem_of_fmap. exists e. split; [done|].
      apply elem_of_seq. lia.
  - unfold expected_paths. by rewrite last_snoc.
Qed.

Lemma checkpoint_schedule_witness :
  exists new,
    save_paths (out (Toy.toy_run Toy.zero_weights true 2 3 (-2) false).2)
    = save_paths (out (Toy.toy_state Toy.zero_weights)) ++ new
    /\ NoDup new
    /\ step (Toy.toy_run Toy.zero_weights true 2 3 (-2) false).2
       = length (all_batches (Toy.toy_args true 2 3 (-2) false))
    /\ (forall k, step_path "out" k ∈ new
                  <-> 1 <= k <= step (Toy.toy_run Toy.zero_weights true 2 3 (-2) false).2
                      /\ (-2 | Z.of_nat k)%Z)
    /\ (forall e, epoch_path "out" e ∈ new <-> 1 <= e <= 2)
    /\ last new = Some (final_path "out").
Proof.
  apply (checkpoint_schedule (env := Toy.toy_env Toy.zero_weights)
           (Toy.toy_args true 2 3 (-2) false) Toy.toy_config (Toy.toy_state Toy.zero_weights)
           (Bare {| params := [2]; training := false |})
           (Toy.toy_run Toy.zero_weights true 2 3 (-2) false).2).
  - reflexivity.
  - apply outcome_of_run. vm_compute. reflexivity.
Defined.

(** The order of the writes for two passes of three batches and
    [save_interval = -2]. *)
Example negative_interval_checkpoints :
  save_paths (out (Toy.toy_run Toy.zero_weights true 2 3 (-2) false).2)
  = ["out/consistency_model_step_2.pt"; "out/consistency_model_epoch_1.pt";
     "out/consistency_model_step_4.pt"; "out/consistency_model_step_6.pt";
     "out/consistency_model_epoch_2.pt"; "out/consistency_model_final.pt"].
Proof. vm_compute. reflexivity. Qed.

(** ** The final checkpoint *)

Section FinalCheckpoint.
Context {env : Env} (a : Args) (config : Config).

(** X5.  When a run of the primary process completes, the final
    checkpoint is the last file written and holds exactly the parameters of
    the returned module as they are on return; when there was at least one
    pass, the checkpoint of the last pass holds the same tensors. *)
Theorem final_checkpoint_is_returned_model (s : State env) (m : Model) (s' : State env) :
  is_main_process (accelerator a) = true ->
  train_consistency_distillation env a config s = (Ok m, s') ->
  exists sd,
    last (saves (out s')) = Some (final_path (output_dir a), sd)
    /\ lookup_all (heap (num s')) (parameters m) = Some sd
    /\ (0 < num_epochs a ->
        (epoch_path (output_dir a) (Z.to_nat (num_epochs a)), sd) ∈ saves (out s'))%Z.
Proof.
  intros Hmain Hrun. rewrite train_eq in Hrun. cbv zeta in Hrun.
  set (h0 := heap (num s)) in *. set (neg := or_empty (sample_neg_prompt config)) in *.
  set (Tm := teacher_of a) in *. set (Dm := student_of env a h0) in *.
  set (Em := ema_of env a h0) in *. set (N := Z.to_nat (num_epochs a)) in *.
  set (J := fun (e : nat) (s1 : State env) =>
    0 < e -> exists sd, lookup_all (heap (num s1)) (ema_locs env a h0) = Some sd
                        /\ last (saves (out s1)) = Some (epoch_path (output_dir a) e, sd)).
  pose proof (training_loop_invariant a config Tm Dm Em neg
    J (fun _ _ _ => True) (fun _ => True) N) as Hloop.
  cbv beta in Hloop.
  assert (match for_each (train_epoch env a config Tm Dm Em neg) (seq 0 N)
                  (loop_start env a s) with
          | (Ok _, s2) => J N s2
          | (Raise _, _) => True
          end) as Hres.
  { apply Hloop; clear Hloop; [done| |..].
    - intros e i b s1 _ _ _. by destruct (train_batch _ _ _ _ _ _ _ _ _ _) as [[[]|ex] s2].
    - intros e s1 _ _. unfold is_main. rewrite Hmain. rewrite parameters_unwrap.
      change (parameters Em) with (ema_locs env a h0).
      destruct (lookup_all _ _) as [sd|] eqn:Hsd; [|done].
      intros _. exists sd. cbn [num out set_out set_total_loss]. split; [done|].
      rewrite saves_app. cbn [saves]. by rewrite last_snoc, Nat.add_1_r.
    - intros H. lia. }
  destruct (for_each _ _ _) as [[[]|ex] s2]; [|done].
  rewrite Hmain in Hrun. destruct (lookup_all _ _) as [sd|] eqn:Hsd; [|done].
  injection Hrun as <- <-. exists sd. cbn [num out set_out]. split_and!.
  - destruct (use_wandb a); rewrite saves_app; cbn [saves app];
      apply last_snoc.
  - done.
  - intros Hpos. destruct Hres as (sd' & Hsd' & Hlast); [lia|].
    rewrite Hsd in Hsd'. injection Hsd' as <-.
    rewrite saves_app. apply elem_of_app. left.
    by apply last_Some_elem_of.
Qed.

End FinalCheckpoint.

Lemma final_checkpoint_is_returned_model_witness :
  exists sd,
    last (saves (out (Toy.toy_run Toy.toy_weights true 2 3 2 true).2))
    = Some (final_path "out", sd)
    /\ lookup_all (heap (num (Toy.toy_run Toy.toy_weights true 2 3 2 true).2)) [3; 4] = Some sd
    /\ (epoch_path "out" 2, sd) ∈ saves (out (Toy.toy_run Toy.toy_weights true 2 3 2 true).2).
Proof.
  destruct (final_checkpoint_is_returned_model (env := Toy.toy_env Toy.toy_weights)
              (Toy.toy_args true 2 3 2 true) Toy.toy_config (Toy.toy_state Toy.toy_weights)
              (Bare {| params := [3; 4]; training := false |})
              (Toy.toy_run Toy.toy_weights true 2 3 2 true).2)
    as (sd & Hlast & Hm & Hepoch).
  - reflexivity.
  - apply outcome_of_run. vm_compute. reflexivity.
  - exists sd. split; [exact Hlast|]. split; [exact Hm|]. apply Hepoch. reflexivity.
Defined.

(** ** Reporting does not influence training *)


(** ** What a completed run has computed *)

Section Computed.
Context {env : Env} (a : Args) (config : Config).

(** X7.  What a completed run has computed, when the collaborators keep
    shapes, gradient tracking is enabled at the call and the teacher is
    allocated: the student, the EMA module and the optimiser end with the
    values of the recurrence over all batches of all passes, in order.
    Both modules start from the stored weights; at every batch the
    student's parameters become those returned by the optimiser for the
    gradients of this batch, taken against the guided target of the frozen
    teacher, and the EMA parameters become [0.995 * ema + 0.005 * student]
    for the new student.  Every checkpoint written holds the EMA value of
    this recurrence after the batches done at the time of the write: [k]
    batches for the step checkpoint [k], the batches of the passes done for
    an epoch checkpoint, all batches for the final one. *)
Theorem training_computes_recurrence (s : State env) (pt : list Tensor) (m : Model)
    (s' : State env) :
  shape_preserving env ->
  grad_mode (num s) = true ->
  lookup_all (heap (num s)) (parameters (original_model a)) = Some pt ->
  train_consistency_distillation env a config s = (Ok m, s') ->
  let w0 := initial_weights env a (num s) in
  holds_weights env a (heap (num s)) (num s')
    (recurrence env a config pt w0 (all_batches a))
  /\ exists new,
       saves (out s') = saves (out s) ++ new
       /\ Forall (fun pc =>
            exists k, k <= length (all_batches a)
              /\ pc.2 = w_ema (recurrence env a config pt w0 (take k (all_batches a)))
              /\ (pc.1 = step_path (output_dir a) k
                  \/ (exists e, pc.1 = epoch_path (output_dir a) (S e)
                                /\ k = length (batches_upto a (S e)))
                  \/ (pc.1 = final_path (output_dir a) /\ k = length (all_batches a))))
            new.
Proof.
  intros Hsh _ Hpt Hrun w0. split.
  - destruct (train_core a config s) as [Hcore _]. cbv zeta in Hcore.
    rewrite Hrun in Hcore. cbn [fst snd outcome_kind] in Hcore.
    apply core_run_num in Hcore.
    destruct (recurrence_start a config s pt (all_batches a) Hsh Hpt) as (n' & Hnum & Hw).
    rewrite Hcore in Hnum. by injection Hnum as <-.
  - pose proof (saves_of_run a config s) as (new & Hnew & Hok).
    rewrite Hrun in Hnew. cbn [snd] in Hnew. exists new. split; [done|].
    eapply Forall_impl; [exact Hok|]. intros pc (bs & n & Hpre & Hnum & Hsd & Hname).
    exists (length bs). destruct Hpre as [k Hk].
    assert (take (length bs) (all_batches a) = bs) as Htake
      by (by rewrite Hk, take_app_length).
    split; [rewrite Hk, length_app; lia|]. split.
    + destruct (recurrence_start a config s pt bs Hsh Hpt) as (n' & Hnum' & (_ & HE & _)).
      rewrite Hnum in Hnum'. injection Hnum' as <-. rewrite Htake.
      rewrite Hsd in HE. by injection HE.
    + destruct Hname as [H|[(e & H & ->)|[H ->]]]; eauto.
Qed.

End Computed.

Lemma training_computes_recurrence_witness :
  holds_weights (Toy.toy_env Toy.toy_weights) (Toy.toy_args true 1 2 2 false) [[Q2Qc 3]]
    (num (Toy.toy_run Toy.toy_weights true 1 2 2 false).2)
    (recurrence (Toy.toy_env Toy.toy_weights) (Toy.toy_args true 1 2 2 false)
       Toy.toy_config [[Q2Qc 3]]
       (initial_weights (Toy.toy_env Toy.toy_weights) (Toy.toy_args true 1 2 2 false)
          (num (Toy.toy_state Toy.toy_weights)))
       (all_batches (Toy.toy_args true 1 2 2 false)))
  /\ exists new,
       saves (out (Toy.toy_run Toy.toy_weights true 1 2 2 false).2)
       = saves (out (Toy.toy_state Toy.toy_weights)) ++ new
       /\ Forall (fun pc =>
            exists k, k <= length (all_batches (Toy.toy_args true 1 2 2 false))
              /\ pc.2 = w_ema (recurrence (Toy.toy_env Toy.toy_weights)
                                 (Toy.toy_args true 1 2 2 false) Toy.toy_config [[Q2Qc 3]]
                                 (initial_weights (Toy.toy_env Toy.toy_weights)
                                    (Toy.toy_args true 1 2 2 false)
                                    (num (Toy.toy_state Toy.toy_weights)))
                                 (take k (all_batches (Toy.toy_args true 1 2 2 false))))
              /\ (pc.1 = step_path "out" k
                  \/ (exists e, pc.1 = epoch_path "out" (S e)
                                /\ k = length (batches_upto (Toy.toy_args true 1 2 2 false)
                                                 (S e)))
                  \/ (pc.1 = final_path "out"
                      /\ k = length (all_batches (Toy.toy_args true 1 2 2 false)))))
            new.
Proof.
  apply (training_computes_recurrence (env := Toy.toy_env Toy.toy_weights)
           (Toy.toy_args true 1 2 2 false) Toy.toy_config (Toy.toy_state Toy.toy_weights)
           [[Q2Qc 3]] (Bare {| params := [3; 4]; training := false |})
           (Toy.toy_run Toy.toy_weights true 1 2 2 false).2).
  - apply toy_shape_preserving.
  - reflexivity.
  - reflexivity.
  - apply outcome_of_run. vm_compute. reflexivity.
Defined.

(** ** The metrics session *)

Lemma metrics_app (l1 l2 : list Event) : metrics (l1 ++ l2) = metrics l1 ++ metrics l2.
Proof. apply filter_app. Qed.

Lemma metrics_progress_events a e i st loss tl :
  metrics (progress_events a e i st loss tl)
  = if use_wandb a && is_main_process (accelerator a) && (i mod 5 =? 0)
    then [EvWandbLog st loss (tl / Qc_of_nat (i + 1))%Qc (e + 1)] else [].
Proof. unfold progress_events. by repeat case_match. Qed.

Lemma log_points_between_S a e i :
  log_points_between a e (S i)
  = log_points_between a e i
    ++ (if i mod 5 =? 0 then [(length (batches_upto a e) + i + 1, e + 1)] else []).
Proof.
  unfold log_points_between. rewrite seq_S, filter_app, fmap_app. f_equal.
  rewrite filter_cons, filter_nil. cbn [Nat.add].
  destruct (Nat.eqb_spec (i mod 5) 0) as [H|H].
  - by rewrite decide_True.
  - by rewrite decide_False.
Qed.

Lemma log_points_upto_S a n :
  log_points_upto a (S n) = log_points_upto a n ++ log_points a n.
Proof.
  unfold log_points_upto. rewrite seq_S, fmap_app, concat_app. cbn. by rewrite app_nil_r.
Qed.

Lemma logged_at_is_log (logs : list Event) pts :
  Forall2 logged_at logs pts -> Forall (fun e => is_wandb_log e = true) logs.
Proof. induction 1 as [|e pt l k (loss & avg & ->)]; by constructor. Qed.

Section Metrics.
Context {env : Env} (a : Args) (config : Config).

(** X8.  Without [use_wandb], and on a secondary process, the run makes no
    call to the metrics service, whatever its outcome. *)
Theorem metrics_disabled (s : State env) :
  use_wandb a && is_main_process (accelerator a) = false ->
  metrics (out (train_consistency_distillation env a config s).2) = metrics (out s).
Proof.
  intros Hoff. rewrite train_eq. cbv zeta.
  set (h0 := heap (num s)). set (neg := or_empty (sample_neg_prompt config)).
  set (Tm := teacher_of a). set (Dm := student_of env a h0). set (Em := ema_of env a h0).
  set (P := fun s1 : State env => metrics (out s1) = metrics (out s)).
  pose proof (training_loop_invariant a config Tm Dm Em neg
    (fun _ => P) (fun _ _ => P) P (Z.to_nat (num_epochs a))) as Hloop.
  cbv beta in Hloop.
  assert (match for_each (train_epoch env a config Tm Dm Em neg)
                  (seq 0 (Z.to_nat (num_epochs a))) (loop_start env a s) with
          | (Ok _, s') => P s'
          | (Raise _, s') => P s'
          end) as Hres.
  { apply Hloop; clear Hloop; unfold P.
    - intros e s1 _ HP. cbn [out set_out]. by rewrite metrics_app, app_nil_r.
    - intros e i b s1 _ _ HP. rewrite train_batch_eq.
      destruct (distill_step _ _ _ _ _ _ _ _ _) as [[loss|ex] n']; [|done].
      cbv zeta.
      assert (metrics (out s1 ++ progress_events a e i (S (step s1)) loss
                                   (total_loss s1 + loss)) = metrics (out s)) as HP'.
      { by rewrite metrics_app, metrics_progress_events, Hoff, app_nil_r. }
      case_decide; [done|].
      destruct (_ && is_main a); [|done].
      destruct (lookup_all _ _); [|done]. cbn [out set_out].
      by rewrite metrics_app, HP', app_nil_r.
    - intros e s1 _ HP. destruct (is_main a); [|done].
      destruct (lookup_all _ _); [|done]. cbn [out set_out set_total_loss].
      by rewrite metrics_app, app_nil_r.
    - cbn [out loop_start]. unfold prologue_events. rewrite Hoff.
      by rewrite metrics_app, app_nil_r. }
  destruct (for_each _ _ _) as [[[]|ex] s2]; [|done].
  destruct (is_main_process (accelerator a)); [|done].
  destruct (lookup_all _ _); [|done]. cbn [snd out set_out].
  rewrite andb_true_r in Hoff. rewrite Hoff, metrics_app. cbn. by rewrite app_nil_r.
Qed.

(** X9.  The metrics session of the primary process with [use_wandb]:
    [wandb.init] is the first call, with the hyperparameters of the run;
    then only records follow; [wandb.finish] is called, last, exactly when
    the run completes, so that a run stopped by an exception leaves the
    session open.  In a completed run the records are those of the batch
    indices 0, 5, 10, ... of every pass, in order, each with the value of
    the step counter after the batch and the 1-based number of the pass. *)
Theorem metrics_session (s : State env) :
  use_wandb a = true -> is_main_process (accelerator a) = true ->
  let r := train_consistency_distillation env a config s in
  exists logs,
    metrics (out r.2)
    = metrics (out s)
      ++ EvWandbInit (project_name a) (run_name a) (wandb_config a)
         :: logs ++ (match r.1 with Ok _ => [EvWandbFinish] | Raise _ => [] end)
    /\ Forall (fun e => is_wandb_log e = true) logs
    /\ (forall m, r.1 = Ok m ->
          Forall2 logged_at logs (log_points_upto a (Z.to_nat (num_epochs a)))).
Proof.
  intros Hwb Hmain. cbv zeta. rewrite train_eq. cbv zeta.
  set (h0 := heap (num s)). set (neg := or_empty (sample_neg_prompt config)).
  set (Tm := teacher_of a). set (Dm := student_of env a h0). set (Em := ema_of env a h0).
  set (N := Z.to_nat (num_epochs a)).
  set (init := EvWandbInit (project_name a) (run_name a) (wandb_config a)).
  set (Inv := fun (e i : nat) (s1 : State env) =>
    step s1 = length (batches_upto a e) + i
    /\ exists logs, metrics (out s1) = metrics (out s) ++ init :: logs
                    /\ Forall2 logged_at logs (log_points_upto a e ++ log_points_between a e i)).
  set (R := fun (s1 : State env) =>
    exists logs, metrics (out s1) = metrics (out s) ++ init :: logs
                 /\ Forall (fun e => is_wandb_log e = true) logs).
  assert (forall e i s1, Inv e i s1 -> R s1) as HR.
  { intros e i s1 (_ & logs & Hm & Hl). exists logs. split; [done|].
    by eapply logged_at_is_log. }
  pose proof (training_loop_invariant a config Tm Dm Em neg
    (fun e => Inv e 0) Inv R N) as Hloop.
  cbv beta in Hloop.
  assert (match for_each (train_epoch env a config Tm Dm Em neg) (seq 0 N)
                  (loop_start env a s) with
          | (Ok _, s') => Inv N 0 s'
          | (Raise _, s') => R s'
          end) as Hres.
  { apply Hloop; clear Hloop.
    - intros e s1 _ (Hst & logs & Hm & Hl). split; [done|]. exists logs.
      cbn [out set_out]. by rewrite metrics_app, app_nil_r.
    - intros e i b s1 _ Hb (Hst & logs & Hm & Hl). rewrite train_batch_eq.
      destruct (distill_step _ _ _ _ _ _ _ _ _) as [[loss|ex] n'].
      2:{ apply (HR e i). split; [done|]. by exists logs. }
      cbv zeta.
      assert (Inv e (S i)
                {| num := n'; step := S (step s1); total_loss := total_loss s1 + loss;
                   out := out s1 ++ progress_events a e i (S (step s1)) loss
                                      (total_loss s1 + loss) |}) as HI.
      { split; [cbn; lia|]. cbn [out].
        rewrite metrics_app, metrics_progress_events, Hwb, Hmain, Hm, log_points_between_S.
        cbn [andb]. destruct (i mod 5 =? 0).
        - eexists (logs ++ [_]). split; [by rewrite <- app_assoc|].
          rewrite app_assoc. apply Forall2_app; [done|]. constructor; [|done].
          eexists _, _. cbn. do 2 f_equal. lia.
        - exists logs. by rewrite !app_nil_r. }
      case_decide; [by apply (HR e (S i))|].
      destruct (_ && is_main a); [|done].
      destruct (lookup_all _ _); [|by apply (HR e (S i))].
      destruct HI as (Hst' & logs' & Hm' & Hl'). split; [done|]. exists logs'.
      cbn [out set_out] in *. by rewrite metrics_app, Hm', app_nil_r.
    - intros e s1 _ (Hst & logs & Hm & Hl). unfold is_main. rewrite Hmain.
      destruct (lookup_all _ _).
      2:{ apply (HR e (length (train_dataloader a e))). split; [done|]. by exists logs. }
      split.
      { cbn [step set_total_loss set_out]. rewrite batches_upto_S, length_app. lia. }
      exists logs. cbn [out set_out set_total_loss].
      rewrite metrics_app, Hm, app_nil_r. split; [done|].
      rewrite log_points_upto_S.
      change (log_points_between a (S e) 0) with (@nil (nat * nat)).
      rewrite app_nil_r. exact Hl.
    - split; [done|]. exists []. cbn [out loop_start]. unfold prologue_events.
      rewrite Hwb, Hmain, metrics_app. cbn. split; [done|]. constructor. }
  destruct (for_each _ _ _) as [[[]|ex] s2].
  - destruct Hres as (Hst & logs & Hm & Hl). rewrite Hmain.
    change (log_points_between a N 0) with (@nil (nat * nat)) in Hl.
    rewrite app_nil_r in Hl.
    destruct (lookup_all _ _); cbn [fst snd out set_out].
    + exists logs. rewrite metrics_app, Hm, Hwb. cbn. rewrite <- app_assoc. cbn.
      split; [done|]. split; [by eapply logged_at_is_log|done].
    + exists logs. rewrite app_nil_r. split; [done|].
      split; [by eapply logged_at_is_log|done].
  - destruct Hres as (logs & Hm & Hl). exists logs. cbn [fst snd].
    rewrite app_nil_r. by split.
Qed.

End Metrics.

Lemma metrics_disabled_witness :
  metrics (out (Toy.toy_run Toy.toy_weights true 2 6 4 false).2)
  = metrics (out (Toy.toy_state Toy.toy_weights)).
Proof.
  apply (metrics_disabled (env := Toy.toy_env Toy.toy_weights)
           (Toy.toy_args true 2 6 4 false) Toy.toy_config (Toy.toy_state Toy.toy_weights)).
  reflexivity.
Defined.

Lemma metrics_session_witness :
  exists logs,
    metrics (out (Toy.toy_run Toy.toy_weights true 2 6 4 true).2)
    = metrics (out (Toy.toy_state Toy.toy_weights))
      ++ EvWandbInit "wan-consistency-distillation" None
           (wandb_config (Toy.toy_args true 2 6 4 true))
         :: logs
         ++ (match (Toy.toy_run Toy.toy_weights true 2 6 4 true).1 with
             | Ok _ => [EvWandbFinish]
             | Raise _ => []
             end)
    /\ Forall (fun e => is_wandb_log e = true) logs
    /\ (forall m, (Toy.toy_run Toy.toy_weights true 2 6 4 true).1 = Ok m ->
          Forall2 logged_at logs (log_points_upto (Toy.toy_args true 2 6 4 true) 2)).
Proof.
  apply (metrics_session (env := Toy.toy_env Toy.toy_weights)
           (Toy.toy_args true 2 6 4 true) Toy.toy_config (Toy.toy_state Toy.toy_weights));
    reflexivity.
Defined.

(** The records of two passes of six batches. *)
Example toy_log_points :
  log_points_upto (Toy.toy_args true 2 6 4 true) 2 = [(1, 1); (6, 1); (7, 2); (12, 2)].
Proof. vm_compute. reflexivity. Qed.

(** ** The losses reported *)

Section LossFacts.
Context {env : Env} (a : Args) (config : Config).
Implicit Types (n : NumState env) (bs : list Batch).

Lemma step_losses_length h0 bs n n' :
  num_run env a config h0 bs n = (Ok tt, n') ->
  length (step_losses env a config h0 bs n) = length bs.
Proof.
  revert n. induction bs as [|b bs IH]; intros n; [done|].
  unfold num_run. cbn [for_each step_losses]. unfold bind at 1. unfold bind at 1.
  destruct (distill_step _ _ _ _ _ _ _ _ _) as [[loss|ex] n1]; [|done].
  cbn. intros H. f_equal. by apply IH.
Qed.

Lemma step_losses_snoc h0 bs b n n2 n3 loss :
  num_run env a config h0 bs n = (Ok tt, n2) ->
  distill_step env a config (teacher_of a) (student_of env a h0) (ema_of env a h0)
    (or_empty (sample_neg_prompt config)) b n2 = (Ok loss, n3) ->
  step_losses env a config h0 (bs ++ [b]) n = step_losses env a config h0 bs n ++ [loss].
Proof.
  revert n. induction bs as [|b0 bs IH]; intros n.
  - unfold num_run. cbn. unfold ret. intros [= <-] ->. done.
  - unfold num_run. cbn [for_each step_losses app]. unfold bind at 1. unfold bind at 1.
    destruct (distill_step _ _ _ _ _ _ _ b0 n) as [[l0|ex] n1]; [|done].
    cbn. intros H Hb. f_equal. by apply IH.
Qed.

Lemma step_losses_prefix h0 bs k n :
  step_losses env a config h0 bs n `prefix_of` step_losses env a config h0 (bs ++ k) n.
Proof.
  revert n. induction bs as [|b bs IH]; intros n; [apply prefix_nil|].
  cbn [step_losses app].
  destruct (distill_step _ _ _ _ _ _ _ _ _) as [[loss|ex] n1]; [|done].
  by apply prefix_cons.
Qed.

Lemma foldl_Qcplus_snoc (l : list Qc) (x : Qc) :
  foldl Qcplus (Q2Qc 0) (l ++ [x]) = (foldl Qcplus (Q2Qc 0) l + x)%Qc.
Proof. by rewrite foldl_app. Qed.

Lemma running_mean_prefix (cur k : list Qc) (loss : Qc) (offset i : nat) :
  length cur = offset + i ->
  running_mean ((cur ++ [loss]) ++ k) offset i
  = ((foldl Qcplus (Q2Qc 0) (drop offset cur) + loss) / Qc_of_nat (i + 1))%Qc.
Proof.
  intros Hlen. unfold running_mean. f_equal.
  rewrite drop_app_le by (rewrite length_app; lia).
  rewrite drop_app_le by lia.
  rewrite take_app_length' by (rewrite length_app, length_drop; cbn; lia).
  apply foldl_Qcplus_snoc.
Qed.

Lemma reports_loss_progress_events L e i st loss tl :
  st = length (batches_upto a e) + i + 1 ->
  L !! (length (batches_upto a e) + i) = Some loss ->
  (tl / Qc_of_nat (i + 1))%Qc = running_mean L (length (batches_upto a e)) i ->
  Forall (reports_loss a L) (progress_events a e i st loss tl).
Proof.
  intros Hst Hl Havg. unfold progress_events. apply Forall_app. split.
  - case_match; constructor; [|done]. cbn. by exists e, i.
  - case_match; constructor; [|done]. cbn. by exists e.
Qed.

(** X10.  Whatever the outcome of the run, every metrics record reports as
    [batch_loss] the loss of the distillation step whose number it carries,
    and every metrics record and progress message reports as average the
    sum of the losses of the current pass up to the current batch, divided
    by the number of these batches: the running sum is reset at the end of
    every pass (line 200), the step counter is not. *)
Theorem reported_losses (s : State env) :
  let L := step_losses env a config (heap (num s)) (all_batches a)
             (setup_num env a (num s)) in
  exists new,
    out (train_consistency_distillation env a config s).2 = out s ++ new
    /\ Forall (reports_loss a L) new.
Proof.
  cbv zeta. rewrite train_eq. cbv zeta.
  set (h0 := heap (num s)). set (neg := or_empty (sample_neg_prompt config)).
  set (Tm := teacher_of a). set (Dm := student_of env a h0). set (Em := ema_of env a h0).
  set (n1 := setup_num env a (num s)). set (N := Z.to_nat (num_epochs a)).
  set (L := step_losses env a config h0 (all_batches a) n1).
  set (P := fun s1 : State env =>
    exists new, out s1 = out s ++ new /\ Forall (reports_loss a L) new).
  set (Inv := fun (e i : nat) (s1 : State env) =>
    num_run env a config h0 (batches_before a e i) n1 = (Ok tt, num s1)
    /\ step s1 = length (batches_before a e i)
    /\ total_loss s1
       = foldl Qcplus (Q2Qc 0)
           (drop (length (batches_upto a e))
              (step_losses env a config h0 (batches_before a e i) n1))
    /\ P s1).
  assert (forall s1 evs, P s1 -> Forall (reports_loss a L) evs ->
            P (set_out (out s1 ++ evs) s1)) as Hadd.
  { intros s1 evs (new & Hout & Hnew) Hevs. exists (new ++ evs). cbn [out set_out].
    rewrite Hout, <- app_assoc. split; [done|]. by apply Forall_app. }
  pose proof (training_loop_invariant a config Tm Dm Em neg
    (fun e => Inv e 0) Inv P N) as Hloop.
  cbv beta in Hloop.
  assert (match for_each (train_epoch env a config Tm Dm Em neg) (seq 0 N)
                  (loop_start env a s) with
          | (Ok _, s') => Inv N 0 s'
          | (Raise _, s') => P s'
          end) as Hres.
  { apply Hloop; clear Hloop.
    - intros e s1 _ (Hnum & Hst & Htl & HP). split_and!; [done..|].
      apply Hadd; [done|]. by repeat constructor.
    - intros e i b s1 He Hb (Hnum & Hst & Htl & HP). rewrite train_batch_eq.
      destruct (distill_step _ _ _ _ _ _ _ _ _) as [[loss|ex] n'] eqn:Hd.
      2:{ destruct HP as (new & Hout & Hnew). by exists new. }
      cbv zeta.
      pose proof (num_run_snoc a config h0 _ b n1 _ n' loss Hnum Hd) as Hnum'.
      pose proof (step_losses_snoc h0 _ b n1 _ n' loss Hnum Hd) as Hsnoc.
      pose proof (step_losses_length h0 _ n1 _ Hnum) as Hlen.
      destruct (batches_split a e N i b He Hb) as [rest Hsplit].
      assert (exists k, L = (step_losses env a config h0 (batches_before a e i) n1 ++ [loss])
                            ++ k) as [k HL].
      { unfold L, all_batches. fold N. rewrite Hsplit.
        rewrite (cons_middle b), app_assoc, <- Hsnoc. apply step_losses_prefix. }
      assert (length (batches_before a e i) = length (batches_upto a e) + i) as Hpos.
      { unfold batches_before. rewrite length_app, length_take.
        apply lookup_lt_Some in Hb. lia. }
      rewrite <- (batches_before_S a e i b Hb) in Hnum', Hsnoc.
      set (s2 := {| num := n'; step := S (step s1); total_loss := total_loss s1 + loss;
                    out := out s1 ++ progress_events a e i (S (step s1)) loss
                                       (total_loss s1 + loss) |}).
      assert (Inv e (S i) s2) as HI.
      { split_and!; [done| | |].
        - cbn. rewrite (batches_before_S a e i b Hb), length_app, Hst. cbn. lia.
        - cbn [total_loss s2]. rewrite Hsnoc, Htl.
          rewrite drop_app_le by lia. by rewrite foldl_Qcplus_snoc.
        - apply (Hadd s1); [done|]. apply reports_loss_progress_events.
          + lia.
          + rewrite HL. rewrite lookup_app_l by (rewrite length_app; cbn; lia).
            rewrite <- Hpos, <- Hlen. apply list_lookup_middle. done.
          + rewrite HL, running_mean_prefix by lia. by rewrite Htl. }
      case_decide.
      { by destruct HI as (_ & _ & _ & HP'). }
      destruct (_ && is_main a); [|done].
      destruct (lookup_all _ _).
      2:{ by destruct HI as (_ & _ & _ & HP'). }
      destruct HI as (H1 & H2 & H3 & HP'). split_and!; [done..|].
      apply (Hadd s2); [done|]. by repeat constructor.
    - intros e s1 _ (Hnum & Hst & Htl & HP). rewrite batches_before_end in Hnum, Hst.
      assert (Q2Qc 0
              = foldl Qcplus (Q2Qc 0)
                  (drop (length (batches_upto a (S e)))
                     (step_losses env a config h0 (batches_before a (S e) 0) n1))) as Hzero.
      { rewrite batches_before_0. rewrite drop_ge; [done|].
        by rewrite (step_losses_length h0 _ n1 _ Hnum). }
      destruct (is_main a).
      + destruct (lookup_all _ _); [|done].
        split_and!; [by rewrite batches_before_0..|exact Hzero|].
        destruct (Hadd s1 [EvSave (epoch_path (output_dir a) (e + 1)) l;
                           EvPrint (MsgSavedEpoch (epoch_path (output_dir a) (e + 1)))] HP)
          as (new & Hout & Hnew); [by repeat constructor|].
        by exists new.
      + split_and!; [by rewrite batches_before_0..|exact Hzero|].
        destruct HP as (new & Hout & Hnew). by exists new.
    - split_and!.
      + by rewrite batches_before_0.
      + by rewrite batches_before_0.
      + by rewrite batches_before_0.
      + exists (prologue_events a). split; [done|]. unfold prologue_events.
        apply Forall_app. split; [by repeat constructor|]. case_match; by repeat constructor. }
  destruct (for_each _ _ _) as [[[]|ex] s2]; [|done].
  destruct Hres as (_ & _ & _ & HP).
  destruct (is_main_process (accelerator a)); [|done].
  destruct (lookup_all _ _); [|done]. cbn [snd].
  apply Hadd; [exact HP|]. apply Forall_app. split; [by repeat constructor|].
  destruct (use_wandb a); by repeat constructor.
Qed.

End LossFacts.

(** ** The trace of a secondary process *)

(** X11.  The complete trace of a completed run of a secondary process:
    the initial message, the creation of the output directory, and the
    header of every pass, which lines 54 and 115 print on every process;
    no progress message, no record and no checkpoint. *)
Theorem secondary_trace {env : Env} (a : Args) (config : Config) (s : State env)
    (m : Model) (s' : State env) :
  is_main_process (accelerator a) = false ->
  train_consistency_distillation env a config s = (Ok m, s') ->
  out s' = out s
           ++ [EvPrint MsgInitializing; EvMakedirs (output_dir a)]
           ++ ((fun e => EvPrint (MsgEpoch e (num_epochs a)))
                 <$> seq 1 (Z.to_nat (num_epochs a))).
Proof.
  intros Hmain Hrun. rewrite train_eq in Hrun. cbv zeta in Hrun.
  set (h0 := heap (num s)) in *. set (neg := or_empty (sample_neg_prompt config)) in *.
  set (Tm := teacher_of a) in *. set (Dm := student_of env a h0) in *.
  set (Em := ema_of env a h0) in *. set (N := Z.to_nat (num_epochs a)) in *.
  set (J := fun (e : nat) (s1 : State env) =>
    out s1 = out s ++ [EvPrint MsgInitializing; EvMakedirs (output_dir a)]
                   ++ ((fun e => EvPrint (MsgEpoch e (num_epochs a))) <$> seq 1 e)).
  pose proof (training_loop_invariant a config Tm Dm Em neg
    J (fun e _ => J (S e)) (fun _ => True) N) as Hloop.
  cbv beta in Hloop.
  assert (match for_each (train_epoch env a config Tm Dm Em neg) (seq 0 N)
                  (loop_start env a s) with
          | (Ok _, s2) => J N s2
          | (Raise _, _) => True
          end) as Hres.
  { apply Hloop; clear Hloop; unfold J.
    - intros e s1 _ HJ. cbn [out set_out].
      rewrite HJ, seq_S, fmap_app, <- !app_assoc, Nat.add_1_r. done.
    - intros e i b s1 _ _ HJ. rewrite train_batch_eq.
      destruct (distill_step _ _ _ _ _ _ _ _ _) as [[loss|ex] n']; [|done].
      cbv zeta. case_decide; [done|]. unfold is_main, progress_events.
      rewrite Hmain, !andb_false_r. cbn. by rewrite app_nil_r.
    - intros e s1 _ HJ. unfold is_main. by rewrite Hmain.
    - cbn [out loop_start]. unfold prologue_events.
      rewrite Hmain, andb_false_r. cbn [fmap list_fmap seq]. by rewrite !app_nil_r. }
  destruct (for_each _ _ _) as [[[]|ex] s2]; [|done].
  rewrite Hmain in Hrun. by injection Hrun as <- <-.
Qed.

Lemma secondary_trace_witness :
  out (Toy.toy_run Toy.toy_weights false 2 3 2 true).2
  = out (Toy.toy_state Toy.toy_weights)
    ++ [EvPrint MsgInitializing; EvMakedirs "out"]
    ++ ((fun e => EvPrint (MsgEpoch e 2)) <$> seq 1 (Z.to_nat 2)).
Proof.
  apply (secondary_trace (env := Toy.toy_env Toy.toy_weights)
           (Toy.toy_args false 2 3 2 true) Toy.toy_config (Toy.toy_state Toy.toy_weights)
           (Bare {| params := [3; 4]; training := false |})
           (Toy.toy_run Toy.toy_weights false 2 3 2 true).2).
  - reflexivity.
  - apply outcome_of_run. vm_compute. reflexivity.
Defined.

(** ** More on the EMA update *)

Section EmaFacts.
Context {env : Env}.
Implicit Types (s : NumState env).

(** [zip] pairs the parameters up to the shorter of the two lists. *)
Lemma update_ema_common_prefix d (target source : Model) s :
  let n := length (parameters target) `min` length (parameters source) in
  update_ema env target source d s
  = update_ema env (Bare {| params := take n (parameters target); training := false |})
      (Bare {| params := take n (parameters source); training := false |}) d s.
Proof.
  cbv zeta. unfold update_ema. cbn [parameters params].
  set (T := parameters target). set (S0 := parameters source).
  assert (zip (take (length T `min` length S0) T) (take (length T `min` length S0) S0)
          = zip T S0) as ->; [|done].
  by apply zip_with_take_both'.
Qed.

(** X13.  [update_ema] on two modules with different numbers of parameters
    raises no error: the [zip] of line 107 stops at the shorter list, the
    EMA parameters of the common prefix are mixed with the source
    parameters at the same index, and the parameters beyond it, like every
    other tensor, are left as they were. *)
Theorem update_ema_stops_at_shorter d (target source : Model) s (es xs : list Tensor) :
  let n := length (parameters target) `min` length (parameters source) in
  NoDup (take n (parameters target)) ->
  (forall l, l ∈ take n (parameters target) -> l ∉ take n (parameters source)) ->
  lookup_all (heap s) (take n (parameters target)) = Some es ->
  lookup_all (heap s) (take n (parameters source)) = Some xs ->
  Forall2 (fun e x : Tensor => length e = length x) es xs ->
  exists s',
    update_ema env target source d s = (Ok tt, s')
    /\ lookup_all (heap s') (take n (parameters target))
       = Some (zip_with (zip_with (fun ema_old x => d * ema_old + (1 - d) * x)%Qc) es xs)
    /\ (forall l, l ∉ take n (parameters target) -> heap s' !! l = heap s !! l)
    /\ length (heap s') = length (heap s).
Proof.
  intros n Hnd Hdisj Hes Hxs Hshape. rewrite update_ema_common_prefix. fold n.
  destruct (update_ema_ok d
              (Bare {| params := take n (parameters target); training := false |})
              (Bare {| params := take n (parameters source); training := false |})
              s es xs) as (h' & Hrun & Hlen & Hval & Hframe); try done.
  exists (set_heap h' s). by split_and!.
Qed.

End EmaFacts.

Lemma update_ema_stops_at_shorter_witness :
  exists s',
    update_ema (Toy.toy_env Toy.toy_weights)
      (Bare {| params := [2; 3]; training := false |})
      (Bare {| params := [1]; training := true |}) (Q2Qc (1 # 4))
      (Build_NumState (Toy.toy_env Toy.toy_weights)
         [[Q2Qc 3]; [Q2Qc 8; Q2Qc 12]; [Q2Qc 4; Q2Qc 0]; [Q2Qc 7]] 0 0 true [])
    = (Ok tt, s')
    /\ lookup_all (heap s') [2]
       = Some (zip_with (zip_with (fun ema_old x => Q2Qc (1 # 4) * ema_old
                                                    + (1 - Q2Qc (1 # 4)) * x)%Qc)
                 [[Q2Qc 4; Q2Qc 0]] [[Q2Qc 8; Q2Qc 12]])
    /\ (forall l, l ∉ [2] ->
          heap s' !! l = [[Q2Qc 3]; [Q2Qc 8; Q2Qc 12]; [Q2Qc 4; Q2Qc 0]; [Q2Qc 7]] !! l)
    /\ length (heap s') = 4.
Proof.
  apply (update_ema_stops_at_shorter (env := Toy.toy_env Toy.toy_weights) (Q2Qc (1 # 4))
           (Bare {| params := [2; 3]; training := false |})
           (Bare {| params := [1]; training := true |})
           (Build_NumState (Toy.toy_env Toy.toy_weights)
              [[Q2Qc 3]; [Q2Qc 8; Q2Qc 12]; [Q2Qc 4; Q2Qc 0]; [Q2Qc 7]] 0 0 true [])
           [[Q2Qc 4; Q2Qc 0]] [[Q2Qc 8; Q2Qc 12]]).
  - apply NoDup_singleton.
  - intros l Hl Hl'. cbn in Hl, Hl'.
    apply list_elem_of_singleton in Hl. apply list_elem_of_singleton in Hl'. lia.
  - reflexivity.
  - reflexivity.
  - repeat constructor.
Defined.

(** ** More on configuration resolution *)

Section ConfigMore.
Import ConfigMerge.
Implicit Types (d : namespace) (cfg : list (string * option pyval)).

Lemma resolve_parse load cli ns :
  resolve load cli = Some ns -> exists args, parse_args cli = Some args.
Proof. unfold resolve. destruct (parse_args cli) as [args|]; [by exists args|done]. Qed.

Lemma resolve_keep load cli args ns k v :
  parse_args cli = Some args -> resolve load cli = Some ns ->
  args !! k = Some (Some v) -> ns !! k = Some (Some v).
Proof.
  intros Hparse Hres Hk. unfold resolve in Hres. rewrite Hparse in Hres.
  destruct (args !! "config_file") as [[[p| | |]|]|]; try congruence.
  case_decide; [congruence|].
  destruct (load p) as [cfg|]; [|congruence].
  injection Hres as <-. by apply merge_config_keep.
Qed.

Lemma parse_args_checkpoint_dir cli args :
  parse_args cli = Some args -> is_Some (cli !! "checkpoint_dir").
Proof. unfold parse_args. case_decide as H; [|done]. intros _. by destruct H. Qed.

(** X16.  The configuration file cannot change an option that has a
    default other than [None], nor [checkpoint_dir]: after resolution such
    an option holds the value given on the command line, or else its
    declared default, whatever the file contains.  Of the options that the
    script passes to the training function (lines 273-283), only
    [wandb_run_name] can come from the file. *)
Theorem config_file_cannot_change_hyperparameters
    (load load' : string -> option (list (string * option pyval)))
    (cli : gmap string pyval) (ns ns' : namespace) (k : string) (dflt : pyval) :
  resolve load cli = Some ns ->
  resolve load' cli = Some ns' ->
  k = "checkpoint_dir" \/ (k, Some dflt) ∈ arg_defaults ->
  exists v, ns !! k = Some (Some v) /\ ns' !! k = Some (Some v)
            /\ (cli !! k = Some v \/ (cli !! k = None /\ v = dflt)).
Proof.
  intros Hres Hres' Hk.
  destruct (resolve_parse _ _ _ Hres) as [args Hparse].
  assert (exists v, args !! k = Some (Some v)
                    /\ (cli !! k = Some v \/ (cli !! k = None /\ v = dflt)))
    as (v & Hv & Hsrc).
  { destruct Hk as [->|Hin].
    - destruct (parse_args_checkpoint_dir _ _ Hparse) as [v Hv]. exists v.
      split; [by eapply parse_args_explicit|by left].
    - rewrite (parse_args_lookup cli args k (Some dflt) Hparse) by (by right).
      destruct (cli !! k) as [v|]; [exists v|exists dflt]; eauto. }
  exists v. split_and!; [by eapply resolve_keep..|done].
Qed.

(** The result of the merge loop when the keys of the file are distinct. *)
Lemma merge_config_lookup cfg d k :
  NoDup cfg.*1 ->
  merge_config d cfg !! k
  = match d !! k with
    | Some (Some v) => Some (Some v)
    | o => match (list_to_map cfg : namespace) !! k with
           | Some v => Some v
           | None => o
           end
    end.
Proof.
  intros Hnd.
  destruct (d !! k) as [[v|]|] eqn:Hd; [by apply merge_config_keep| |].
  - destruct (list_to_map cfg !! k) as [v|] eqn:Hl.
    + apply elem_of_list_to_map in Hl; [|done]. apply merge_config_fill; auto.
    + apply not_elem_of_list_to_map in Hl. by rewrite merge_config_other.
  - destruct (list_to_map cfg !! k) as [v|] eqn:Hl.
    + apply elem_of_list_to_map in Hl; [|done]. apply merge_config_fill; auto.
    + apply not_elem_of_list_to_map in Hl. by rewrite merge_config_other.
Qed.

(** X17.  When the keys of the configuration file are distinct, the result
    of the merge loop of lines 238-240 does not depend on the order of the
    entries of the file, and merging the same file a second time changes
    nothing. *)
Theorem merge_config_order_irrelevant d cfg cfg' :
  NoDup cfg.*1 -> cfg ≡ₚ cfg' ->
  merge_config d cfg = merge_config d cfg'
  /\ merge_config (merge_config d cfg) cfg = merge_config d cfg.
Proof.
  intros Hnd Hperm.
  assert (NoDup cfg'.*1) as Hnd' by (by rewrite <- Hperm).
  split; apply map_eq; intros k.
  - rewrite !merge_config_lookup by done.
    by rewrite (list_to_map_proper (M := gmap string) cfg cfg' Hnd Hperm).
  - rewrite !merge_config_lookup by done.
    destruct (d !! k) as [[v|]|]; [done| |];
      by destruct ((list_to_map cfg : namespace) !! k) as [[w|]|].
Qed.

End ConfigMore.

Lemma example_resolve :
  ConfigMerge.resolve ConfigMerge.example_file ConfigMerge.example_cli
  = Some (ConfigMerge.merge_config (ConfigMerge.parsed_namespace ConfigMerge.example_cli)
            ConfigMerge.example_config).
Proof.
  unfold ConfigMerge.resolve. rewrite example_parse.
  replace (ConfigMerge.parsed_namespace ConfigMerge.example_cli !! "config_file")
    with (Some (Some (ConfigMerge.VStr "./config.yaml"))) by (vm_compute; reflexivity).
  reflexivity.
Qed.

Lemma example_resolve_no_file :
  ConfigMerge.resolve (fun _ => None) ConfigMerge.example_cli
  = Some (ConfigMerge.parsed_namespace ConfigMerge.example_cli).
Proof.
  unfold ConfigMerge.resolve. rewrite example_parse.
  replace (ConfigMerge.parsed_namespace ConfigMerge.example_cli !! "config_file")
    with (Some (Some (ConfigMerge.VStr "./config.yaml"))) by (vm_compute; reflexivity).
  reflexivity.
Qed.

Lemma config_file_cannot_change_hyperparameters_witness :
  exists v,
    ConfigMerge.merge_config (ConfigMerge.parsed_namespace ConfigMerge.example_cli)
      ConfigMerge.example_config !! "num_epochs" = Some (Some v)
    /\ ConfigMerge.parsed_namespace ConfigMerge.example_cli !! "num_epochs" = Some (Some v)
    /\ (ConfigMerge.example_cli !! "num_epochs" = Some v
        \/ (ConfigMerge.example_cli !! "num_epochs" = None /\ v = ConfigMerge.VInt 10)).
Proof.
  apply (config_file_cannot_change_hyperparameters ConfigMerge.example_file (fun _ => None)
           ConfigMerge.example_cli
           (ConfigMerge.merge_config (ConfigMerge.parsed_namespace ConfigMerge.example_cli)
              ConfigMerge.example_config)
           (ConfigMerge.parsed_namespace ConfigMerge.example_cli)
           "num_epochs" (ConfigMerge.VInt 10)).
  - apply example_resolve.
  - apply example_resolve_no_file.
  - right. do 2 right. left.
Defined.

Lemma merge_config_order_irrelevant_witness :
  ConfigMerge.merge_config (ConfigMerge.parsed_namespace ConfigMerge.example_cli)
    ConfigMerge.example_config
  = ConfigMerge.merge_config (ConfigMerge.parsed_namespace ConfigMerge.example_cli)
      (reverse ConfigMerge.example_config)
  /\ ConfigMerge.merge_config
       (ConfigMerge.merge_config (ConfigMerge.parsed_namespace ConfigMerge.example_cli)
          ConfigMerge.example_config)
       ConfigMerge.example_config
     = ConfigMerge.merge_config (ConfigMerge.parsed_namespace ConfigMerge.example_cli)
         ConfigMerge.example_config.
Proof.
  apply (merge_config_order_irrelevant (ConfigMerge.parsed_namespace ConfigMerge.example_cli)
           ConfigMerge.example_config (reverse ConfigMerge.example_config)).
  - compute_done.
  - symmetry. apply reverse_Permutation.
Defined.

(** ** The call of the training function *)

Section CallFacts.
Import CallSite.

(** A call binds exactly when every keyword is a parameter and every
    parameter without a default is passed. *)
Lemma bind_keywords_ok (sig : list (string * bool)) (kws : list string) :
  bind_keywords sig kws = None
  <-> (forall k, k ∈ kws -> k ∈ sig.*1)
      /\ (forall k, (k, false) ∈ sig -> k ∈ kws).
Proof.
  unfold bind_keywords. split.
  - destruct (list_find _ kws) as [[i k]|] eqn:H1; [done|].
    destruct (list_find _ sig) as [[j p]|] eqn:H2; [done|]. intros _.
    apply list_find_None in H1. apply list_find_None in H2.
    rewrite Forall_forall in H1. rewrite Forall_forall in H2. split.
    + intros k Hk. specialize (H1 k Hk). by apply dec_stable in H1.
    + intros k Hk. specialize (H2 (k, false) Hk). cbn in H2.
      destruct (decide (k ∈ kws)); [done|]. exfalso. by apply H2.
  - intros [H1 H2].
    destruct (list_find _ kws) as [[i k]|] eqn:E1.
    { apply list_find_Some in E1 as (Hi & Hk & _). exfalso. apply Hk, H1.
      by eapply list_elem_of_lookup_2. }
    destruct (list_find _ sig) as [[j [k b]]|] eqn:E2; [|done].
    apply list_find_Some in E2 as (Hj & [Hb Hk] & _). cbn in *. subst b.
    exfalso. apply Hk, H2. by eapply list_elem_of_lookup_2.
Qed.

(** X18.  The call of lines 269-284 does not bind to the signature of
    lines 16-31: it passes the keyword [config], which is not a parameter,
    so Python raises [TypeError] before the body of the function runs.
    Every call that binds passes [model_config] and does not pass [config];
    the call of the script with [config] renamed to [model_config] binds. *)
Theorem script_call_raises_type_error :
  bind_keywords train_signature main_call_keywords = Some (UnexpectedKeyword "config")
  /\ (forall kws, bind_keywords train_signature kws = None ->
        "model_config" ∈ kws /\ "config" ∉ kws)
  /\ bind_keywords train_signature
       ((fun k => if decide (k = "config") then "model_config" else k) <$> main_call_keywords)
     = None.
Proof.
  split; [by vm_compute|]. split; [|by vm_compute].
  intros kws [H1 H2]%bind_keywords_ok. split.
  - apply H2. unfold train_signature. set_solver.
  - intros Hin. specialize (H1 _ Hin). vm_compute in H1.
    repeat (apply elem_of_cons in H1 as [H1|H1]; [discriminate|]).
    by apply elem_of_nil in H1.
Qed.

End CallFacts.
